(** * BTS Dress Notes server: a shallow embedding of [server.js]

    The server keeps one mutable [globalState], decodes MIDI time code
    quarter frames and OSC cue messages into it, and answers socket.io
    client events.  Every handler of [server.js] runs to completion, so a
    handler is modelled as a function from the state before to the state
    after, paired with the list of events it emitted, in order.

    Modelling conventions:
    - JS numbers that the code treats as integers are [Z]; the 32-bit
      bitwise operators are written out with their wrap-around;
    - JS strings are [string] (code units up to 255);
    - the JS [Map] of users is an association list in insertion order;
    - values the runtime draws from the clock or the random generator
      ([Date.now()], [Math.random()], [new Date()]) are inputs of the
      handler that uses them (record [Env]);
    - file output ([saveTagsToFile], [backup]) and console logging leave
      the state alone and are not modelled. *)

From Stdlib Require Import ZArith List String Ascii Bool Lia Zbitwise.
From Stdlib Require Import QArith_base.
From Stdlib Require Import DecimalString Permutation.
Import ListNotations.
Close Scope Q_scope.
Open Scope string_scope.
Open Scope list_scope.
Open Scope Z_scope.

(** ** JavaScript primitives used by the server *)

Module Js.

(** ToInt32: the operand conversion of the bitwise operators. *)
Definition to_int32 (z : Z) : Z := (z + 2 ^ 31) mod 2 ^ 32 - 2 ^ 31.

(** [x << n] *)
Definition shl (x n : Z) : Z :=
  to_int32 (Z.shiftl (to_int32 x) (Z.land n 31)).

(** [x >> n], sign propagating *)
Definition sar (x n : Z) : Z := Z.shiftr (to_int32 x) (Z.land n 31).

(** [x | y]; the bitwise or of two 32-bit values is a 32-bit value *)
Definition bor (x y : Z) : Z := Z.lor (to_int32 x) (to_int32 y).

(** [x & y] *)
Definition band (x y : Z) : Z := Z.land (to_int32 x) (to_int32 y).

(** An array with holes; [None] reads as [undefined]. *)
Definition array (A : Type) : Type := list (option A).

(** [arr[i]] for a natural index *)
Definition get {A} (arr : array A) (i : nat) : option A :=
  match nth_error arr i with
  | Some v => v
  | None => None
  end.

Fixpoint set_nat {A} (arr : array A) (i : nat) (v : A) : array A :=
  match arr, i with
  | _ :: rest, O => Some v :: rest
  | x :: rest, S i' => x :: set_nat rest i' v
  | [], O => [Some v]
  | [], S i' => None :: set_nat [] i' v
  end.

(** [arr[i] = v]: an index past the end extends the array, leaving holes;
    a negative index creates a property and touches no element. *)
Definition set {A} (arr : array A) (i : Z) (v : A) : array A :=
  if i <? 0 then arr else set_nat arr (Z.to_nat i) v.

(** Truthiness of a possibly absent string: [undefined] and [""] are falsy. *)
Definition truthy (v : option string) : bool :=
  match v with
  | Some s => negb (s =? "")%string
  | None => false
  end.

(** [a || b] on possibly absent strings *)
Definition or_string (a : option string) (b : string) : string :=
  match a with
  | Some s => if (s =? "")%string then b else s
  | None => b
  end.

(** [a || b] on possibly absent numbers (rationals): [undefined] and [0]
    are falsy. *)
Definition or_number (a : option Q) (b : Q) : Q :=
  match a with
  | Some q => if (Qnum q =? 0) then b else q
  | None => b
  end.

(** [a || b] when [a] is an object or [undefined] *)
Definition or_object {A} (a : option A) (b : A) : A :=
  match a with
  | Some x => x
  | None => b
  end.

Definition code (c : ascii) : nat := nat_of_ascii c.

(** LineTerminator code units below 256: LF and CR. *)
Definition isLineTerminator (c : ascii) : bool :=
  (Nat.eqb (code c) 10 || Nat.eqb (code c) 13)%bool.

(** WhiteSpace and LineTerminator code units below 256, as [trim] strips
    them: TAB, LF, VT, FF, CR, SP and NBSP. *)
Definition isWhiteSpace (c : ascii) : bool :=
  (Nat.eqb (code c) 9 || Nat.eqb (code c) 10 || Nat.eqb (code c) 11
   || Nat.eqb (code c) 12 || Nat.eqb (code c) 13 || Nat.eqb (code c) 32
   || Nat.eqb (code c) 160)%bool.

Fixpoint trimStart (s : string) : string :=
  match s with
  | String c rest => if isWhiteSpace c then trimStart rest else s
  | EmptyString => EmptyString
  end.

Fixpoint trimEnd (s : string) : string :=
  match s with
  | String c rest =>
      let rest' := trimEnd rest in
      if (isWhiteSpace c && (rest' =? ""))%bool%string then EmptyString
      else String c rest'
  | EmptyString => EmptyString
  end.

(** [s.trim()] *)
Definition trim (s : string) : string := trimEnd (trimStart s).

(** [s.startsWith(p)] *)
Definition startsWith (s p : string) : bool := String.prefix p s.

(** [arr.slice(-n)]: the last [n] elements, all of them when there are
    fewer. *)
Definition slice_last {A} (n : nat) (l : list A) : list A :=
  skipn (List.length l - n)%nat l.

(** The values a client can put where the server expects a mode name. *)
Inductive value : Type :=
| Undefined
| Null
| Bool (b : bool)
| Number (n : Z)
| Str (s : string).

(** [v === s] for a string literal [s] *)
Definition strict_eq_string (v : value) (s : string) : bool :=
  match v with
  | Str t => (t =? s)%string
  | _ => false
  end.

(** A [Map]: unique keys, insertion order. *)
Definition map (V : Type) : Type := list (string * V).

Fixpoint map_get {V} (m : map V) (k : string) : option V :=
  match m with
  | [] => None
  | (k', v) :: rest => if (k' =? k)%string then Some v else map_get rest k
  end.

(** [m.set(k, v)]: replaces in place, or appends a new key *)
Fixpoint map_set {V} (m : map V) (k : string) (v : V) : map V :=
  match m with
  | [] => [(k, v)]
  | (k', v') :: rest =>
      if (k' =? k)%string then (k, v) :: rest
      else (k', v') :: map_set rest k v
  end.

(** [m.delete(k)] *)
Fixpoint map_delete {V} (m : map V) (k : string) : map V :=
  match m with
  | [] => []
  | (k', v') :: rest =>
      if (k' =? k)%string then rest else (k', v') :: map_delete rest k
  end.

(** [Array.from(m.values())] *)
Definition map_values {V} (m : map V) : list V := List.map snd m.

Definition map_keys {V} (m : map V) : list string := List.map fst m.

(** [arr.find(p)] followed by a mutation [f] of the object found: the
    first element satisfying [p] is changed in place. *)
Fixpoint update_first {A} (p : A -> bool) (f : A -> A) (l : list A) : list A :=
  match l with
  | [] => []
  | x :: rest => if p x then f x :: rest else x :: update_first p f rest
  end.

(** [arr.findIndex(p)], [None] for -1 *)
Fixpoint findIndex {A} (p : A -> bool) (l : list A) : option nat :=
  match l with
  | [] => None
  | x :: rest =>
      if p x then Some O
      else match findIndex p rest with
           | Some i => Some (S i)
           | None => None
           end
  end.

Fixpoint set_index {A} (l : list A) (i : nat) (v : A) : list A :=
  match l, i with
  | _ :: rest, O => v :: rest
  | x :: rest, S i' => x :: set_index rest i' v
  | [], _ => []
  end.

End Js.

(** ** Data model *)

Module Timecode.
Record t : Type := mk {
  hours : Z;
  minutes : Z;
  seconds : Z;
  frames : Z;
  frameRate : Q;
  source : string
}.
End Timecode.

Module Comment.
Record t : Type := mk {
  id : string;
  user : string;
  userId : string;
  text : string;
  timestamp : string;
  lastEdited : option string;
  lastEditedBy : option string
}.

Definition set_user (c : t) (v : string) : t :=
  mk (id c) v (userId c) (text c) (timestamp c) (lastEdited c)
     (lastEditedBy c).

(** [comment.text = newText; comment.lastEdited = ...; comment.lastEditedBy = ...] *)
Definition edit (c : t) (newText now by_ : string) : t :=
  mk (id c) (user c) (userId c) newText (timestamp c) (Some now) (Some by_).
End Comment.

Module Note.
Record t : Type := mk {
  id : string;
  user : string;
  userId : string;
  text : string;
  timecode : Timecode.t;
  lxCue : string;
  timestamp : string;
  frameRate : Q;
  tags : list string;
  act : string;
  comments : list Comment.t;
  lastEdited : option string;
  lastEditedBy : option string
}.

Definition set_user (n : t) (v : string) : t :=
  mk (id n) v (userId n) (text n) (timecode n) (lxCue n) (timestamp n)
     (frameRate n) (tags n) (act n) (comments n) (lastEdited n)
     (lastEditedBy n).

Definition set_tags (n : t) (v : list string) : t :=
  mk (id n) (user n) (userId n) (text n) (timecode n) (lxCue n) (timestamp n)
     (frameRate n) v (act n) (comments n) (lastEdited n) (lastEditedBy n).

Definition set_comments (n : t) (v : list Comment.t) : t :=
  mk (id n) (user n) (userId n) (text n) (timecode n) (lxCue n) (timestamp n)
     (frameRate n) (tags n) (act n) v (lastEdited n) (lastEditedBy n).

(** [note.text = newText; note.lastEdited = ...; note.lastEditedBy = ...] *)
Definition edit (n : t) (newText now by_ : string) : t :=
  mk (id n) (user n) (userId n) newText (timecode n) (lxCue n) (timestamp n)
     (frameRate n) (tags n) (act n) (comments n) (Some now) (Some by_).
End Note.

Module Tag.
Record t : Type := mk {
  id : string;
  name : string;
  color : string
}.
End Tag.

Module ChatMessage.
Record t : Type := mk {
  id : string;
  user : string;
  userId : string;
  text : string;
  timestamp : string
}.
End ChatMessage.

Module User.
Record t : Type := mk {
  id : string;
  name : string;
  isTyping : bool;
  currentTimecode : option Timecode.t;
  currentLxCue : option string;
  joinedAt : string;
  isOverlay : bool;
  isAnonymous : bool
}.

(** [user.isTyping = ...; user.currentTimecode = ...; user.currentLxCue = ...] *)
Definition set_typing (u : t) (typing : bool) (tc : option Timecode.t)
    (cue : option string) : t :=
  mk (id u) (name u) typing tc cue (joinedAt u) (isOverlay u) (isAnonymous u).

(** [user.name = newName; user.isAnonymous = false] *)
Definition rename (u : t) (newName : string) : t :=
  mk (id u) newName (isTyping u) (currentTimecode u) (currentLxCue u)
     (joinedAt u) (isOverlay u) false.
End User.

Module Anonymous.
Record t : Type := mk {
  joinedAt : string;
  ip : string
}.
End Anonymous.

(** [globalState] (lines 61-78) *)
Module GlobalState.
Record t : Type := mk {
  timecode : Timecode.t;
  notes : list Note.t;
  chatMessages : list ChatMessage.t;
  users : Js.map User.t;
  timeMode : string;
  tags : list Tag.t;
  currentLxCue : string;
  currentAct : string;
  anonymousUsers : Js.map Anonymous.t
}.

Definition set_timecode (g : t) (v : Timecode.t) : t :=
  mk v (notes g) (chatMessages g) (users g) (timeMode g) (tags g)
     (currentLxCue g) (currentAct g) (anonymousUsers g).

Definition set_notes (g : t) (v : list Note.t) : t :=
  mk (timecode g) v (chatMessages g) (users g) (timeMode g) (tags g)
     (currentLxCue g) (currentAct g) (anonymousUsers g).

Definition set_chatMessages (g : t) (v : list ChatMessage.t) : t :=
  mk (timecode g) (notes g) v (users g) (timeMode g) (tags g)
     (currentLxCue g) (currentAct g) (anonymousUsers g).

Definition set_users (g : t) (v : Js.map User.t) : t :=
  mk (timecode g) (notes g) (chatMessages g) v (timeMode g) (tags g)
     (currentLxCue g) (currentAct g) (anonymousUsers g).

Definition set_timeMode (g : t) (v : string) : t :=
  mk (timecode g) (notes g) (chatMessages g) (users g) v (tags g)
     (currentLxCue g) (currentAct g) (anonymousUsers g).

Definition set_tags (g : t) (v : list Tag.t) : t :=
  mk (timecode g) (notes g) (chatMessages g) (users g) (timeMode g) v
     (currentLxCue g) (currentAct g) (anonymousUsers g).

Definition set_currentLxCue (g : t) (v : string) : t :=
  mk (timecode g) (notes g) (chatMessages g) (users g) (timeMode g) (tags g)
     v (currentAct g) (anonymousUsers g).

Definition set_currentAct (g : t) (v : string) : t :=
  mk (timecode g) (notes g) (chatMessages g) (users g) (timeMode g) (tags g)
     (currentLxCue g) v (anonymousUsers g).

Definition set_anonymousUsers (g : t) (v : Js.map Anonymous.t) : t :=
  mk (timecode g) (notes g) (chatMessages g) (users g) (timeMode g) (tags g)
     (currentLxCue g) (currentAct g) v.
End GlobalState.

(** The module-level variables of [server.js]: [globalState], the
    quarter-frame decoder's variables (lines 169-171, 83) and whether the
    MIDI input and the OSC server were opened (lines 81, 110). *)
Module Server.
Record t : Type := mk {
  globalState : GlobalState.t;
  quarterFrameData : Js.array Z;
  lastQuarterFrame : Z;
  lastFullTimecode : option Timecode.t;
  mtcMessagesReceived : Z;
  midiInput : bool;
  oscServer : bool
}.

Definition set_globalState (s : t) (g : GlobalState.t) : t :=
  mk g (quarterFrameData s) (lastQuarterFrame s) (lastFullTimecode s)
     (mtcMessagesReceived s) (midiInput s) (oscServer s).

(** Lines 61-78 and 169-171: the state when the process has started.
    [timeMode] is ['realtime'] without a MIDI input (line 736). *)
Definition initial (tags : list Tag.t) (midi osc : bool) : t :=
  mk (GlobalState.mk (Timecode.mk 0 0 0 0 (30 # 1)%Q "midi") [] [] []
        (if midi then "midi" else "realtime") tags "1" "Preshow" [])
     (repeat (Some 0) 8) (-1) None 0 midi osc.
End Server.

(** ** Outgoing events *)

(** What the server sends, by event name; the payload of ['export-data']
    is the serialised text of the notes and is kept abstract, as are the
    port details of ['system-status']. *)
Inductive ServerEvent : Type :=
| act_update (act : string)
| timecode_update (tc : Timecode.t)
| notes_update (notes : list Note.t)
| tags_update (tags : list Tag.t)
| time_mode_update (mode : string)
| lx_cue_update (cue : string)
| system_status (midiAvailable : bool) (mtcMessagesReceived : Z)
    (oscAvailable : bool)
| user_initial_name (name : string)
| users_update (users : list User.t)
| user_joined (user : string) (userCount : nat)
| user_left (user : string) (userCount : nat)
| note_added (note : Note.t)
| chat_message_added (m : ChatMessage.t)
| chat_messages_update (ms : list ChatMessage.t)
| name_change_error (message : string)
| name_change_success (message : string)
| export_data (format : string).

(** [io.emit(...)] sends to every connected socket, [socket.emit(...)] to
    the socket of the handler. *)
Inductive Emit : Type :=
| io_emit (e : ServerEvent)
| socket_emit (sid : string) (e : ServerEvent).

Definition Result : Type := Server.t * list Emit.

(** The sockets an emission reaches, given the users connected when it is
    sent: a socket is in [globalState.users] from its connection to its
    disconnection. *)
Definition recipients (s : Server.t) (e : Emit) : list string :=
  match e with
  | io_emit _ => Js.map_keys (GlobalState.users (Server.globalState s))
  | socket_emit sid _ => [sid]
  end.

Definition payload (e : Emit) : ServerEvent :=
  match e with
  | io_emit ev => ev
  | socket_emit _ ev => ev
  end.

(** ** Timecode decoder (lines 168-220) *)

Module Mtc.
Import Server.

(** [frameRates] (lines 173-178) *)
Definition frameRates (code : Z) : option Q :=
  match code with
  | 0 => Some (24 # 1)%Q
  | 1 => Some (25 # 1)%Q
  | 2 => Some (2997 # 100)%Q
  | 3 => Some (30 # 1)%Q
  | _ => None
  end.

(** [quarterFrameData[k]] as the operand of a bitwise operator; ToInt32
    sends [undefined] to 0. *)
Definition slot (q : Js.array Z) (k : nat) : Z :=
  match Js.get q k with
  | Some z => z
  | None => 0
  end.

(** [newTimecode] of [parseCompleteMTC] (lines 192-207) *)
Definition newTimecode (q : Js.array Z) : Timecode.t :=
  let frames := Js.bor (Js.shl (slot q 1) 4) (slot q 0) in
  let seconds := Js.bor (Js.shl (slot q 3) 4) (slot q 2) in
  let minutes := Js.bor (Js.shl (slot q 5) 4) (slot q 4) in
  let hoursAndRate := Js.bor (Js.shl (slot q 7) 4) (slot q 6) in
  let hours := Js.band hoursAndRate 31 in
  let rateCode := Js.band (Js.sar hoursAndRate 5) 3 in
  Timecode.mk hours minutes seconds frames
    (Js.or_number (frameRates rateCode) (30 # 1)%Q) "midi".

(** The condition of lines 209-213 *)
Definition changed (last : option Timecode.t) (n : Timecode.t) : bool :=
  match last with
  | None => true
  | Some l =>
      negb (Timecode.hours l =? Timecode.hours n)
      || negb (Timecode.minutes l =? Timecode.minutes n)
      || negb (Timecode.seconds l =? Timecode.seconds n)
      || negb (Timecode.frames l =? Timecode.frames n)
  end.

(** [parseCompleteMTC] (lines 191-220) *)
Definition parseCompleteMTC (s : Server.t) : Result :=
  let n := newTimecode (quarterFrameData s) in
  if changed (lastFullTimecode s) n then
    (Server.mk (GlobalState.set_timecode (globalState s) n)
       (quarterFrameData s) (lastQuarterFrame s) (Some n)
       (mtcMessagesReceived s) (midiInput s) (oscServer s),
     [io_emit (timecode_update n)])
  else (s, []).

(** [parseEasyMIDIMTC] (lines 180-189) *)
Definition parseEasyMIDIMTC (messageType value : Z) (s : Server.t) : Result :=
  let s1 :=
    Server.mk (globalState s) (Js.set (quarterFrameData s) messageType value)
      messageType (lastFullTimecode s) (mtcMessagesReceived s + 1)
      (midiInput s) (oscServer s) in
  if messageType =? 7 then parseCompleteMTC s1 else (s1, []).

(** A stream of quarter-frame fragments (type, value), handled one after
    the other; the emissions are collected in order. *)
Fixpoint run (frs : list (Z * Z)) (s : Server.t) : Result :=
  match frs with
  | [] => (s, [])
  | (ty, v) :: rest =>
      let (s1, out1) := parseEasyMIDIMTC ty v s in
      let (s2, out2) := run rest s1 in
      (s2, out1 ++ out2)
  end.

(** The last full timecode among the change notifications of a trace *)
Fixpoint lastEmitted (out : list Emit) : option Timecode.t :=
  match out with
  | [] => None
  | e :: rest =>
      match lastEmitted rest with
      | Some tc => Some tc
      | None =>
          match e with
          | io_emit (timecode_update tc) => Some tc
          | _ => None
          end
      end
  end.

End Mtc.

(** ** Cue and act extractor (lines 117-157) *)

Module Osc.
Import Server.

(** The rest of the line: what a greedy [.+] takes. *)
Fixpoint restOfLine (s : string) : string :=
  match s with
  | String c rest =>
      if Js.isLineTerminator c then EmptyString
      else String c (restOfLine rest)
  | EmptyString => EmptyString
  end.

(** Capture group 1 of the leftmost match of [/[^/]+\/(.+)/] in [s], when
    [inRun] tells whether the character before [s] can end [[^/]+].  A
    match needs a slash that follows at least one character other than a
    slash and is followed by a character that is no line terminator. *)
Fixpoint cueMatchFrom (inRun : bool) (s : string) : option string :=
  match s with
  | EmptyString => None
  | String c rest =>
      if (c =? "/")%char then
        if inRun then
          match rest with
          | String d _ =>
              if Js.isLineTerminator d then cueMatchFrom false rest
              else Some (restOfLine rest)
          | EmptyString => None
          end
        else cueMatchFrom false rest
      else cueMatchFrom true rest
  end.

(** [value.match(/[^/]+\/(.+)/)], reduced to its group 1 *)
Definition cueMatch (value : string) : option string :=
  cueMatchFrom false value.

(** [oscServer.on('message', ...)] with [address = msg[0]] and
    [value = msg[1]], a string or [undefined] *)
Definition message (address : string) (value : option string)
    (s : Server.t) : Result :=
  let g := globalState s in
  if ((address =? "/eos/out/active/cue/text")%string && Js.truthy value)%bool
  then
    match value with
    | Some v =>
        match cueMatch v with
        | Some g1 =>
            if Js.truthy (Some g1) then
              let cueName := Js.trim g1 in
              (set_globalState s (GlobalState.set_currentLxCue g cueName),
               [io_emit (lx_cue_update cueName)])
            else (s, [])
        | None => (s, [])
        end
    | None => (s, [])
    end
  else if ((address =? "/eos/out/pending/cue/text")%string
           && Js.truthy value)%bool
  then (s, [])
  else if Js.startsWith address "/bts/" then
    match value with
    | Some act =>
        if (Js.truthy value
            && negb (act =? GlobalState.currentAct g)%string)%bool
        then
          (set_globalState s (GlobalState.set_currentAct g act),
           [io_emit (act_update act)])
        else (s, [])
    | None => (s, [])
    end
  else (s, []).

(** OSC messages handled one after the other *)
Fixpoint run (msgs : list (string * option string)) (s : Server.t) : Result :=
  match msgs with
  | [] => (s, [])
  | (address, value) :: rest =>
      let (s1, out1) := message address value s in
      let (s2, out2) := run rest s1 in
      (s2, out1 ++ out2)
  end.

End Osc.

(** ** Socket handlers (lines 316-719) *)

(** What a handler takes from the clock and the random generator. *)
Module Env.
Record t : Type := mk {
  newId : string;        (* Date.now() + Math.random().toString(36).substr(2, 9) *)
  now : string;          (* new Date().toISOString(), new Date() *)
  generateId : string;   (* generateId() *)
  getRandomColor : string (* getRandomColor() *)
}.
End Env.

(** The data of a ['note-submit'] event *)
Module NoteData.
Record t : Type := mk {
  text : string;
  timecode : option Timecode.t;
  lxCue : option string;
  frameRate : option Q;
  tags : option (list string)
}.
End NoteData.

(** The events a client sends, by name, with their data. *)
Inductive ClientEvent : Type :=
| note_update_tags (noteId : string) (tags : list string)
| create_tag (id : option string) (name : string) (color : option string)
| delete_tag (tagId : string)
| typing_start (timecode : option Timecode.t) (lxCue : option string)
| typing_stop
| time_mode_change (newMode : Js.value)
| lx_cue_change (newCue : string)
| note_submit (data : NoteData.t)
| comment_submit (noteId text : string)
| chat_message (text : string)
| note_edit_text (noteId newText : string)
| comment_edit (noteId commentId newText : string)
| comment_delete (noteId commentId : string)
| user_name_change (newName : string)
| export_request (format : string)
| disconnect.

Module Socket.
Import Server.

Definition users (s : Server.t) : Js.map User.t :=
  GlobalState.users (globalState s).

Definition notes (s : Server.t) : list Note.t :=
  GlobalState.notes (globalState s).

(** [Array.from(globalState.users.values()).filter(u => !u.isOverlay)] *)
Definition filteredUsers (s : Server.t) : list User.t :=
  filter (fun u => negb (User.isOverlay u)) (Js.map_values (users s)).

(** The [user] object a socket's handlers close over is the one stored in
    [globalState.users] under [socket.id]; a handler changes it in place. *)
Definition set_user (s : Server.t) (sid : string) (u : User.t) : Server.t :=
  set_globalState s
    (GlobalState.set_users (globalState s) (Js.map_set (users s) sid u)).

Definition set_notes (s : Server.t) (v : list Note.t) : Server.t :=
  set_globalState s (GlobalState.set_notes (globalState s) v).

(** [if (user.isOverlay) return;] at the entry of a handler.  Handlers run
    only for a connected socket. *)
Definition unlessOverlay (s : Server.t) (sid : string)
    (k : User.t -> Result) : Result :=
  match Js.map_get (users s) sid with
  | Some user => if User.isOverlay user then (s, []) else k user
  | None => (s, [])
  end.

Definition hasId (noteId : string) (n : Note.t) : bool :=
  (Note.id n =? noteId)%string.

Definition commentHasId (commentId : string) (c : Comment.t) : bool :=
  (Comment.id c =? commentId)%string.

(** ['disconnect'] (lines 702-718) *)
Definition on_disconnect (sid : string) (s : Server.t) : Result :=
  match Js.map_get (users s) sid with
  | Some user =>
      let s1 :=
        set_globalState s
          (GlobalState.set_users (globalState s)
             (Js.map_delete (users s) sid)) in
      if negb (User.isOverlay user) then
        let filtered := filteredUsers s1 in
        (s1, [io_emit (user_left (User.name user) (List.length filtered));
              io_emit (users_update filtered)])
      else (s1, [])
  | None => (s, [])
  end.

(** ['connection'] (lines 316-388, 553-555); [userIP] is the client
    address after its last colon and [isOverlay] tells whether the referer
    names [overlay.html].  The socket is registered by the library before
    the handler sends anything.  The timer of line 345 is armed in
    [Clock.arm]. *)
Definition on_connection (sid userIP : string) (isOverlay : bool)
    (env : Env.t) (s : Server.t) : Result :=
  let g := globalState s in
  let user :=
    User.mk sid (if isOverlay then String.append "Overlay-" userIP else userIP)
      false None None (Env.now env) isOverlay (negb isOverlay) in
  let g1 := GlobalState.set_users g (Js.map_set (GlobalState.users g) sid user) in
  let g2 :=
    if negb isOverlay then
      GlobalState.set_anonymousUsers g1
        (Js.map_set (GlobalState.anonymousUsers g1) sid
           (Anonymous.mk (Env.now env) userIP))
    else g1 in
  let s2 := set_globalState s g2 in
  let snapshot :=
    [socket_emit sid (act_update (GlobalState.currentAct g2));
     socket_emit sid (timecode_update (GlobalState.timecode g2));
     socket_emit sid (notes_update (GlobalState.notes g2));
     socket_emit sid (tags_update (GlobalState.tags g2));
     socket_emit sid (time_mode_update (GlobalState.timeMode g2));
     socket_emit sid (lx_cue_update (GlobalState.currentLxCue g2));
     socket_emit sid
       (system_status (midiInput s) (mtcMessagesReceived s) (oscServer s))] in
  if negb isOverlay then
    let filtered := filteredUsers s2 in
    (s2, snapshot
         ++ [socket_emit sid (user_initial_name userIP);
             socket_emit sid (users_update filtered);
             io_emit (user_joined (User.name user) (List.length filtered));
             socket_emit sid
               (chat_messages_update (GlobalState.chatMessages g2))])
  else (s2, snapshot ++ [socket_emit sid (users_update [])]).

(** The callback of the 15 minute timer armed at connection (lines
    345-354); [socket.disconnect(true)] runs the ['disconnect'] handler. *)
Definition on_anonymity_timeout (sid : string) (s : Server.t) : Result :=
  let (s1, out) :=
    match Js.map_get (users s) sid with
    | Some user =>
        if (User.isAnonymous user && negb (User.isOverlay user))%bool
        then on_disconnect sid s
        else (s, [])
    | None => (s, [])
    end in
  (set_globalState s1
     (GlobalState.set_anonymousUsers (globalState s1)
        (Js.map_delete (GlobalState.anonymousUsers (globalState s1)) sid)),
   out).

(** ['note-update-tags'] (lines 391-399) *)
Definition on_note_update_tags (noteId : string) (tags : list string)
    (s : Server.t) : Result :=
  match find (hasId noteId) (notes s) with
  | Some _ =>
      let s1 :=
        set_notes s
          (Js.update_first (hasId noteId) (fun n => Note.set_tags n tags)
             (notes s)) in
      (s1, [io_emit (notes_update (notes s1))])
  | None => (s, [])
  end.

(** ['create-tag'] (lines 402-418) *)
Definition on_create_tag (env : Env.t) (id : option string) (name : string)
    (color : option string) (s : Server.t) : Result :=
  let g := globalState s in
  let newTag :=
    Tag.mk (Js.or_string id (Env.generateId env)) name
      (Js.or_string color (Env.getRandomColor env)) in
  let tags1 :=
    match Js.findIndex (fun tag => (Tag.id tag =? Tag.id newTag)%string)
            (GlobalState.tags g) with
    | Some existingIndex => Js.set_index (GlobalState.tags g) existingIndex newTag
    | None => GlobalState.tags g ++ [newTag]
    end in
  (set_globalState s (GlobalState.set_tags g tags1),
   [io_emit (tags_update tags1)]).

(** ['delete-tag'] (lines 421-425) *)
Definition on_delete_tag (tagId : string) (s : Server.t) : Result :=
  let g := globalState s in
  let tags1 :=
    filter (fun tag => negb (Tag.id tag =? tagId)%string) (GlobalState.tags g) in
  (set_globalState s (GlobalState.set_tags g tags1),
   [io_emit (tags_update tags1)]).

(** ['typing-start'] (lines 428-438) *)
Definition on_typing_start (sid : string) (timecode : option Timecode.t)
    (lxCue : option string) (s : Server.t) : Result :=
  unlessOverlay s sid (fun user =>
    let g := globalState s in
    let s1 :=
      set_user s sid
        (User.set_typing user true
           (Some (Js.or_object timecode (GlobalState.timecode g)))
           (Some (Js.or_string lxCue (GlobalState.currentLxCue g)))) in
    (s1, [io_emit (users_update (filteredUsers s1))])).

(** ['typing-stop'] (lines 441-451) *)
Definition on_typing_stop (sid : string) (s : Server.t) : Result :=
  unlessOverlay s sid (fun user =>
    let s1 := set_user s sid (User.set_typing user false None None) in
    (s1, [io_emit (users_update (filteredUsers s1))])).

(** ['time-mode-change'] (lines 454-461) *)
Definition on_time_mode_change (sid : string) (newMode : Js.value)
    (s : Server.t) : Result :=
  unlessOverlay s sid (fun _ =>
    match newMode with
    | Js.Str mode =>
        if (Js.strict_eq_string newMode "midi"
            || Js.strict_eq_string newMode "realtime")%bool
        then
          (set_globalState s (GlobalState.set_timeMode (globalState s) mode),
           [io_emit (time_mode_update mode)])
        else (s, [])
    | _ => (s, [])
    end).

(** ['lx-cue-change'] (lines 464-476) *)
Definition on_lx_cue_change (sid newCue : string) (s : Server.t) : Result :=
  unlessOverlay s sid (fun _ =>
    if negb (oscServer s) then
      (set_globalState s (GlobalState.set_currentLxCue (globalState s) newCue),
       [io_emit (lx_cue_update newCue)])
    else (s, [])).

(** ['note-submit'] (lines 479-502) *)
Definition on_note_submit (sid : string) (env : Env.t) (data : NoteData.t)
    (s : Server.t) : Result :=
  unlessOverlay s sid (fun user =>
    let g := globalState s in
    let noteTimecode :=
      Js.or_object (NoteData.timecode data) (GlobalState.timecode g) in
    let note :=
      Note.mk (Env.newId env) (User.name user) (User.id user)
        (NoteData.text data) noteTimecode
        (Js.or_string (NoteData.lxCue data) (GlobalState.currentLxCue g))
        (Env.now env)
        (Js.or_number (NoteData.frameRate data)
           (Timecode.frameRate (GlobalState.timecode g)))
        (Js.or_object (NoteData.tags data) [])
        (GlobalState.currentAct g) [] None None in
    let s1 := set_notes s (notes s ++ [note]) in
    (s1, [io_emit (note_added note); io_emit (notes_update (notes s1))])).

(** ['comment-submit'] (lines 505-527); [note.comments] is an array on
    every note the server builds, so the guard of line 520 never fires. *)
Definition on_comment_submit (sid : string) (env : Env.t)
    (noteId text : string) (s : Server.t) : Result :=
  unlessOverlay s sid (fun user =>
    match find (hasId noteId) (notes s) with
    | Some _ =>
        let comment :=
          Comment.mk (Env.newId env) (User.name user) (User.id user) text
            (Env.now env) None None in
        let s1 :=
          set_notes s
            (Js.update_first (hasId noteId)
               (fun n => Note.set_comments n (Note.comments n ++ [comment]))
               (notes s)) in
        (s1, [io_emit (notes_update (notes s1))])
    | None => (s, [])
    end).

(** ['chat-message'] (lines 530-550) *)
Definition on_chat_message (sid : string) (env : Env.t) (text : string)
    (s : Server.t) : Result :=
  unlessOverlay s sid (fun user =>
    let g := globalState s in
    let chatMessage :=
      ChatMessage.mk (Env.newId env) (User.name user) (User.id user) text
        (Env.now env) in
    let pushed := GlobalState.chatMessages g ++ [chatMessage] in
    let kept :=
      if (100 <? List.length pushed)%nat then Js.slice_last 100 pushed
      else pushed in
    (set_globalState s (GlobalState.set_chatMessages g kept),
     [io_emit (chat_message_added chatMessage);
      io_emit (chat_messages_update kept)])).

(** ['note-edit-text'] (lines 558-572) *)
Definition on_note_edit_text (sid : string) (env : Env.t)
    (noteId newText : string) (s : Server.t) : Result :=
  unlessOverlay s sid (fun user =>
    match find (hasId noteId) (notes s) with
    | Some _ =>
        let s1 :=
          set_notes s
            (Js.update_first (hasId noteId)
               (fun n => Note.edit n newText (Env.now env) (User.name user))
               (notes s)) in
        (s1, [io_emit (notes_update (notes s1))])
    | None => (s, [])
    end).

(** ['comment-edit'] (lines 575-592) *)
Definition on_comment_edit (sid : string) (env : Env.t)
    (noteId commentId newText : string) (s : Server.t) : Result :=
  unlessOverlay s sid (fun user =>
    match find (hasId noteId) (notes s) with
    | Some note =>
        match find (commentHasId commentId) (Note.comments note) with
        | Some _ =>
            let s1 :=
              set_notes s
                (Js.update_first (hasId noteId)
                   (fun n =>
                      Note.set_comments n
                        (Js.update_first (commentHasId commentId)
                           (fun c =>
                              Comment.edit c newText (Env.now env)
                                (User.name user))
                           (Note.comments n)))
                   (notes s)) in
            (s1, [io_emit (notes_update (notes s1))])
        | None => (s, [])
        end
    | None => (s, [])
    end).

(** ['comment-delete'] (lines 595-605) *)
Definition on_comment_delete (sid : string) (noteId commentId : string)
    (s : Server.t) : Result :=
  unlessOverlay s sid (fun _ =>
    match find (hasId noteId) (notes s) with
    | Some _ =>
        let s1 :=
          set_notes s
            (Js.update_first (hasId noteId)
               (fun n =>
                  Note.set_comments n
                    (filter (fun c => negb (commentHasId commentId c))
                       (Note.comments n)))
               (notes s)) in
        (s1, [io_emit (notes_update (notes s1))])
    | None => (s, [])
    end).

(** ['export-request'] (lines 655-700): the state is only read. *)
Definition on_export_request (sid format : string) (s : Server.t) : Result :=
  unlessOverlay s sid (fun _ => (s, [socket_emit sid (export_data format)])).

Section NameChange.

(** [String.prototype.toLowerCase] of the runtime *)
Variable toLowerCase : string -> string.

(** [isNameTaken] (lines 612-614) *)
Definition isNameTaken (s : Server.t) (user : User.t) (newName : string)
    : bool :=
  existsb
    (fun u =>
       (negb (User.id u =? User.id user)%string
        && (toLowerCase (User.name u) =? toLowerCase newName)%string
        && negb (User.isOverlay u))%bool)
    (Js.map_values (users s)).

(** The [forEach] of lines 629-641 on one note *)
Definition renameIn (user : User.t) (newName : string) (n : Note.t) : Note.t :=
  let n1 :=
    if (Note.userId n =? User.id user)%string then Note.set_user n newName
    else n in
  Note.set_comments n1
    (List.map
       (fun c =>
          if (Comment.userId c =? User.id user)%string
          then Comment.set_user c newName else c)
       (Note.comments n1)).

(** The double quote character *)
Definition quote : ascii := "034"%char.

Definition takenMessage (newName : string) : string :=
  String.append "Name " (String.append (String quote newName)
    (String quote " is already taken. Please choose a different name.")).

Definition changedMessage (oldName newName : string) : string :=
  String.append "Name changed from "
    (String.append (String quote oldName)
       (String quote
          (String.append " to "
             (String.append (String quote newName)
                (String quote EmptyString))))).

(** ['user-name-change'] (lines 608-652) *)
Definition on_user_name_change (sid newName : string) (s : Server.t)
    : Result :=
  unlessOverlay s sid (fun user =>
    if isNameTaken s user newName then
      (s, [socket_emit sid (name_change_error (takenMessage newName))])
    else
      let oldName := User.name user in
      let s1 := set_user s sid (User.rename user newName) in
      let s2 :=
        set_globalState s1
          (GlobalState.set_anonymousUsers (globalState s1)
             (Js.map_delete (GlobalState.anonymousUsers (globalState s1)) sid)) in
      let s3 := set_notes s2 (List.map (renameIn user newName) (notes s2)) in
      (s3, [io_emit (users_update (filteredUsers s3));
            io_emit (notes_update (notes s3));
            socket_emit sid
              (name_change_success (changedMessage oldName newName))])).

(** The handler a connected socket runs for a client event; nothing runs
    for a socket that is not connected. *)
Definition on_event (sid : string) (env : Env.t) (ev : ClientEvent)
    (s : Server.t) : Result :=
  match Js.map_get (users s) sid with
  | None => (s, [])
  | Some _ =>
      match ev with
      | note_update_tags noteId tags => on_note_update_tags noteId tags s
      | create_tag id name color => on_create_tag env id name color s
      | delete_tag tagId => on_delete_tag tagId s
      | typing_start timecode lxCue => on_typing_start sid timecode lxCue s
      | typing_stop => on_typing_stop sid s
      | time_mode_change newMode => on_time_mode_change sid newMode s
      | lx_cue_change newCue => on_lx_cue_change sid newCue s
      | note_submit data => on_note_submit sid env data s
      | comment_submit noteId text => on_comment_submit sid env noteId text s
      | chat_message text => on_chat_message sid env text s
      | note_edit_text noteId newText =>
          on_note_edit_text sid env noteId newText s
      | comment_edit noteId commentId newText =>
          on_comment_edit sid env noteId commentId newText s
      | comment_delete noteId commentId =>
          on_comment_delete sid noteId commentId s
      | user_name_change newName => on_user_name_change sid newName s
      | export_request format => on_export_request sid format s
      | disconnect => on_disconnect sid s
      end
  end.

(** Client events handled one after the other *)
Fixpoint run (evs : list (string * Env.t * ClientEvent)) (s : Server.t)
    : Result :=
  match evs with
  | [] => (s, [])
  | (sid, env, ev) :: rest =>
      let (s1, out1) := on_event sid env ev s in
      let (s2, out2) := run rest s1 in
      (s2, out1 ++ out2)
  end.

End NameChange.

End Socket.

(** ** The rest of [server.js] *)

(** The EasyMIDI message handler (lines 230-244) *)
Module Midi.

(** A message as the handler reads it: [_type], [type] and [value] when
    they are numbers, [bytes] when it is an array. *)
Record Message : Type := mk {
  _type : string;
  type : option Z;
  value : option Z;
  bytes : option (list Z)
}.

(** [midiInput.on('message', ...)]; the handler is installed only when a
    MIDI input was opened (line 230).  In the raw form a missing second
    byte is [undefined], which the bitwise operators read as 0. *)
Definition on_message (msg : Message) (s : Server.t) : Result :=
  if Server.midiInput s then
    let structured :=
      match type msg, value msg with
      | Some t, Some v => if (_type msg =? "mtc")%string then Some (t, v) else None
      | _, _ => None
      end in
    match structured with
    | Some (t, v) => Mtc.parseEasyMIDIMTC t v s
    | None =>
        match bytes msg with
        | Some (status :: rest) =>
            if status =? 241 then
              let data1 := match rest with d :: _ => d | [] => 0 end in
              let messageType := Js.sar data1 4 in
              let value := Js.band data1 15 in
              Mtc.parseEasyMIDIMTC messageType value s
            else (s, [])
        | _ => (s, [])
        end
    end
  else (s, []).

End Midi.

(** [formatTimecode] (lines 222-227) *)
Module Format.

(** [n.toString()] for an integer *)
Definition toString (n : Z) : string :=
  DecimalString.NilZero.string_of_int (Z.to_int n).

Fixpoint zeros (n : nat) : string :=
  match n with
  | O => EmptyString
  | S n' => String "0"%char (zeros n')
  end.

(** [s.padStart(targetLength, '0')] *)
Definition padStart (targetLength : nat) (s : string) : string :=
  String.append (zeros (targetLength - String.length s)) s.

(** [(x || 0).toString().padStart(2, '0')]; [0 || 0] is [0]. *)
Definition field (x : Z) : string :=
  padStart 2 (toString (if x =? 0 then 0 else x)).

(** [formatTimecode(tc)], [tc] an object or absent *)
Definition formatTimecode (tc : option Timecode.t) : string :=
  match tc with
  | None => "00:00:00:00"
  | Some tc =>
      String.append (field (Timecode.hours tc))
        (String ":"%char
           (String.append (field (Timecode.minutes tc))
              (String ":"%char
                 (String.append (field (Timecode.seconds tc))
                    (String ":"%char (field (Timecode.frames tc)))))))
  end.

End Format.

(** What the process reacts to once it runs: each input is handled to
    completion before the next. *)
Module Loop.

Inductive Input : Type :=
| midi_message (msg : Midi.Message)
| osc_message (address : string) (value : option string)
| connection (sid userIP : string) (isOverlay : bool) (env : Env.t)
| socket_event (sid : string) (env : Env.t) (ev : ClientEvent)
| anonymity_timeout (sid : string).

Section Run.

Variable toLowerCase : string -> string.

(** The handler of an input; the OSC handler exists only when the OSC
    server was created (lines 111-117). *)
Definition step (i : Input) (s : Server.t) : Result :=
  match i with
  | midi_message msg => Midi.on_message msg s
  | osc_message address value =>
      if Server.oscServer s then Osc.message address value s else (s, [])
  | connection sid userIP isOverlay env =>
      Socket.on_connection sid userIP isOverlay env s
  | socket_event sid env ev => Socket.on_event toLowerCase sid env ev s
  | anonymity_timeout sid => Socket.on_anonymity_timeout sid s
  end.

Fixpoint run (inputs : list Input) (s : Server.t) : Result :=
  match inputs with
  | [] => (s, [])
  | i :: rest =>
      let (s1, out1) := step i s in
      let (s2, out2) := run rest s1 in
      (s2, out1 ++ out2)
  end.

End Run.

End Loop.

(** The process on its clock.  [Socket.on_connection] leaves out the one
    thing the connection handler does besides registering and sending:
    for a participant it arms a timer, [setTimeout(callback, 900000)]
    (lines 338-355).  Here the timer is kept as data: the world is the
    state of the server, the time of the process in milliseconds and the
    timers that are pending.  The clock moves between the handlers, which
    take no time; when it moves, the timers that have become due run,
    oldest first, each once, and leave the queue.  Every timer has the same
    delay, so the order of arming is the order of the due times. *)
Module Clock.

(** A pending callback of line 345, armed for [socket] and due at [due] *)
Record Timer : Type := mkTimer { due : Z; socket : string }.

Record World : Type := mk {
  server : Server.t;
  now : Z;
  timers : list Timer
}.

(** What reaches the process from outside *)
Inductive Input : Type :=
| midi_message (msg : Midi.Message)
| osc_message (address : string) (value : option string)
| connection (sid userIP : string) (isOverlay : bool) (env : Env.t)
| socket_event (sid : string) (env : Env.t) (ev : ClientEvent).

Definition toLoop (i : Input) : Loop.Input :=
  match i with
  | midi_message msg => Loop.midi_message msg
  | osc_message address value => Loop.osc_message address value
  | connection sid userIP isOverlay env =>
      Loop.connection sid userIP isOverlay env
  | socket_event sid env ev => Loop.socket_event sid env ev
  end.

(** The clock moves on by [dt] milliseconds, or an input arrives. *)
Inductive Tick : Type :=
| wait (dt : N)
| receive (i : Input).

(** One turn of the event loop as a log keeps it: when it ran, what ran
    (the handler of an input, or, as [Loop.anonymity_timeout], the
    callback of a timer) and what it sent. *)
Record Entry : Type := mkEntry {
  time : Z;
  cause : Loop.Input;
  out : list Emit
}.

(** The delay of line 354: 15 minutes *)
Definition delay : Z := 900000.

Definition isDue (t : Z) (tm : Timer) : bool := due tm <=? t.

(** [if (!isOverlay) { ... setTimeout(..., 900000) }] (lines 338-355) *)
Definition arm (i : Input) (t : Z) (pending : list Timer) : list Timer :=
  match i with
  | connection sid _ isOverlay _ =>
      if negb isOverlay then pending ++ [mkTimer (t + delay) sid]
      else pending
  | _ => pending
  end.

Section Run.

Variable toLowerCase : string -> string.

(** The callbacks of the timers [ts] run one after the other, each at the
    time it is due. *)
Fixpoint fire (ts : list Timer) (s : Server.t) : Server.t * list Entry :=
  match ts with
  | [] => (s, [])
  | tm :: rest =>
      let r := Socket.on_anonymity_timeout (socket tm) s in
      let x := fire rest (fst r) in
      (fst x,
       mkEntry (due tm) (Loop.anonymity_timeout (socket tm)) (snd r) :: snd x)
  end.

Definition step (k : Tick) (w : World) : World * list Entry :=
  match k with
  | wait dt =>
      let t := now w + Z.of_N dt in
      let x := fire (filter (isDue t) (timers w)) (server w) in
      (mk (fst x) t (filter (fun tm => negb (isDue t tm)) (timers w)), snd x)
  | receive i =>
      let r := Loop.step toLowerCase (toLoop i) (server w) in
      (mk (fst r) (now w) (arm i (now w) (timers w)),
       [mkEntry (now w) (toLoop i) (snd r)])
  end.

Fixpoint run (ticks : list Tick) (w : World) : World * list Entry :=
  match ticks with
  | [] => (w, [])
  | k :: rest =>
      let x := step k w in
      let y := run rest (fst x) in
      (fst y, snd x ++ snd y)
  end.

End Run.

(** The process has started: no timer is pending. *)
Definition initial (tags : list Tag.t) (midi osc : bool) : World :=
  mk (Server.initial tags midi osc) 0 [].

End Clock.

(** ** Notions used to state the properties *)

Module MtcSpec.

(** The recombination of eight nibbles [b 0 .. b 7] as the protocol
    describes it, on unbounded integers: two nibbles make a byte, the low
    five bits of the last byte are the hours and its bits 5 and 6 select
    the frame rate. *)
Definition rateOfCode (code : Z) : Q :=
  match code with
  | 0 => (24 # 1)%Q
  | 1 => (25 # 1)%Q
  | 2 => (2997 # 100)%Q
  | 3 => (30 # 1)%Q
  | _ => (30 # 1)%Q
  end.

Definition recombine (b : nat -> Z) : Timecode.t :=
  let combined := Z.lor (Z.shiftl (b 7%nat) 4) (b 6%nat) in
  Timecode.mk
    (Z.land combined 31)
    (Z.lor (Z.shiftl (b 5%nat) 4) (b 4%nat))
    (Z.lor (Z.shiftl (b 3%nat) 4) (b 2%nat))
    (Z.lor (Z.shiftl (b 1%nat) 4) (b 0%nat))
    (rateOfCode (Z.land (Z.shiftr combined 5) 3))
    "midi".

(** A fragment that writes a nibble into one of the slots 0 to 7 *)
Definition nibbleFragment (f : Z * Z) : Prop :=
  0 <= fst f <= 7 /\ 0 <= snd f <= 15.

(** All eight slots hold nibbles. *)
Definition nibbles (q : Js.array Z) : Prop :=
  forall k, (k < 8)%nat -> exists z, Js.get q k = Some z /\ 0 <= z <= 15.

(** The value a fragment stream leaves in slot [k], if it writes there *)
Fixpoint written (frs : list (Z * Z)) (k : nat) : option Z :=
  match frs with
  | [] => None
  | (ty, v) :: rest =>
      match written rest k with
      | Some w => Some w
      | None => if ty =? Z.of_nat k then Some v else None
      end
  end.

(** Two timecodes differ in hours, minutes, seconds or frames. *)
Definition differ (l n : Timecode.t) : Prop :=
  Timecode.hours l <> Timecode.hours n
  \/ Timecode.minutes l <> Timecode.minutes n
  \/ Timecode.seconds l <> Timecode.seconds n
  \/ Timecode.frames l <> Timecode.frames n.

(** The cycle of the scenario *)
Definition scenario : list (Z * Z) :=
  [(0, 5); (1, 2); (2, 10); (3, 0); (4, 5); (5, 0); (6, 8); (7, 0)].

(** The nibble that a fragment stream received since the start of the
    process has left for slot [k]: the last one sent with type [k], and 0
    while none was. *)
Definition held (frs : list (Z * Z)) (k : nat) : Z :=
  match written frs k with
  | Some w => w
  | None => 0
  end.

(** The fragments of the scenario, the one of type 7 delivered first *)
Definition sevenFirst : list (Z * Z) :=
  [(7, 0); (0, 5); (1, 2); (2, 10); (3, 0); (4, 5); (5, 0); (6, 8)].

End MtcSpec.

Module SocketSpec.

(** The events whose handlers begin with [if (user.isOverlay) return;] *)
Definition guarded (ev : ClientEvent) : bool :=
  match ev with
  | note_update_tags _ _ | create_tag _ _ _ | delete_tag _ | disconnect => false
  | _ => true
  end.

(** The events that tell of a roster change or a chat addition *)
Definition rosterOrChat (e : ServerEvent) : bool :=
  match e with
  | users_update _ | user_joined _ _ | user_left _ _
  | chat_message_added _ | chat_messages_update _ => true
  | _ => false
  end.

(** What holds of an emission that tells of the roster or the chat: it
    is an [io.emit], and a roster it carries lists no overlay session. *)
Definition rosterBroadcast (e : Emit) : Prop :=
  rosterOrChat (payload e) = true ->
  (exists ev, e = io_emit ev)
  /\ (forall us, payload e = users_update us ->
        Forall (fun u => User.isOverlay u = false) us).

(** The chat message built for a submission by [user] *)
Definition chatOf (sub : string * User.t * Env.t * string) : ChatMessage.t :=
  let '(_, user, env, text) := sub in
  ChatMessage.mk (Env.newId env) (User.name user) (User.id user) text
    (Env.now env).

Definition chatEvent (sub : string * User.t * Env.t * string)
    : string * Env.t * ClientEvent :=
  let '(sid, _, env, text) := sub in (sid, env, chat_message text).

(** The sender of a submission is a connected session that is no overlay. *)
Definition connectedParticipant (s : Server.t)
    (sub : string * User.t * Env.t * string) : Prop :=
  Js.map_get (Socket.users s) (fst (fst (fst sub)))
  = Some (snd (fst (fst sub)))
  /\ User.isOverlay (snd (fst (fst sub))) = false.

(** A comment after its author [uid] took the name [newName]: only the
    author name can have changed, and it has if the comment is theirs. *)
Definition commentRenamed (uid newName : string) (c c' : Comment.t) : Prop :=
  Comment.id c' = Comment.id c
  /\ Comment.userId c' = Comment.userId c
  /\ Comment.text c' = Comment.text c
  /\ Comment.timestamp c' = Comment.timestamp c
  /\ Comment.lastEdited c' = Comment.lastEdited c
  /\ Comment.lastEditedBy c' = Comment.lastEditedBy c
  /\ (Comment.userId c = uid -> Comment.user c' = newName)
  /\ (Comment.userId c <> uid -> Comment.user c' = Comment.user c).

(** The same for a note and its comments *)
Definition noteRenamed (uid newName : string) (n n' : Note.t) : Prop :=
  Note.id n' = Note.id n
  /\ Note.userId n' = Note.userId n
  /\ Note.text n' = Note.text n
  /\ Note.timecode n' = Note.timecode n
  /\ Note.lxCue n' = Note.lxCue n
  /\ Note.timestamp n' = Note.timestamp n
  /\ Note.frameRate n' = Note.frameRate n
  /\ Note.tags n' = Note.tags n
  /\ Note.act n' = Note.act n
  /\ Note.lastEdited n' = Note.lastEdited n
  /\ Note.lastEditedBy n' = Note.lastEditedBy n
  /\ (Note.userId n = uid -> Note.user n' = newName)
  /\ (Note.userId n <> uid -> Note.user n' = Note.user n)
  /\ Forall2 (commentRenamed uid newName) (Note.comments n) (Note.comments n').

(** Another session that is no overlay holds [newName], up to case. *)
Definition nameHeld (toLowerCase : string -> string) (s : Server.t)
    (user : User.t) (newName : string) : Prop :=
  exists u,
    In u (Js.map_values (Socket.users s))
    /\ User.id u <> User.id user
    /\ toLowerCase (User.name u) = toLowerCase newName
    /\ User.isOverlay u = false.

(** An event that names a note the state does not hold, or asks to edit a
    comment its note does not hold *)
Definition dangling (s : Server.t) (ev : ClientEvent) : Prop :=
  match ev with
  | note_update_tags noteId _ | comment_submit noteId _
  | note_edit_text noteId _ | comment_delete noteId _ =>
      find (Socket.hasId noteId) (Socket.notes s) = None
  | comment_edit noteId commentId _ =>
      match find (Socket.hasId noteId) (Socket.notes s) with
      | None => True
      | Some note =>
          find (Socket.commentHasId commentId) (Note.comments note) = None
      end
  | _ => False
  end.

End SocketSpec.

Module MoreSpec.

(** The ranges the decoder's bit layout allows; minutes, seconds and
    frames are whole bytes, as no range check is made on them. *)
Definition inLayout (tc : Timecode.t) : Prop :=
  0 <= Timecode.hours tc <= 31
  /\ 0 <= Timecode.minutes tc <= 255
  /\ 0 <= Timecode.seconds tc <= 255
  /\ 0 <= Timecode.frames tc <= 255
  /\ In (Timecode.frameRate tc)
       [(24 # 1)%Q; (25 # 1)%Q; (2997 # 100)%Q; (30 # 1)%Q]
  /\ Timecode.source tc = "midi".

(** The number of fragments of type 7 in a stream *)
Definition completions (frs : list (Z * Z)) : nat :=
  List.length (filter (fun f => fst f =? 7) frs).

(** The characters of a string *)
Definition chars (s : string) : list ascii := list_ascii_of_string s.

Definition firstChar (s : string) : option ascii :=
  match s with
  | String c _ => Some c
  | EmptyString => None
  end.

Fixpoint lastChar (s : string) : option ascii :=
  match s with
  | EmptyString => None
  | String c EmptyString => Some c
  | String _ rest => lastChar rest
  end.

(** A label as the cue extractor leaves it: on one line, with no white
    space at either end. *)
Definition cleanLabel (s : string) : Prop :=
  (forall c, In c (chars s) -> Js.isLineTerminator c = false)
  /\ (forall c, firstChar s = Some c -> Js.isWhiteSpace c = false)
  /\ (forall c, lastChar s = Some c -> Js.isWhiteSpace c = false).

(** A registry entry is sound: the session is stored under its own id,
    and an overlay is never anonymous, never typing and has no draft. *)
Definition sessionOk (p : string * User.t) : Prop :=
  User.id (snd p) = fst p
  /\ (User.isOverlay (snd p) = true ->
      User.isAnonymous (snd p) = false
      /\ User.isTyping (snd p) = false
      /\ User.currentTimecode (snd p) = None
      /\ User.currentLxCue (snd p) = None).

Definition registryOk (s : Server.t) : Prop :=
  NoDup (Js.map_keys (Socket.users s)) /\ Forall sessionOk (Socket.users s).

(** What a handler run for the socket [sid] can do to the registry:
    nothing, replace the record of [sid], a participant, by one with the
    same id, role and join time, or remove [sid]. *)
Definition usersChange (sid : string) (s s' : Server.t) : Prop :=
  Socket.users s' = Socket.users s
  \/ (exists u u',
        Js.map_get (Socket.users s) sid = Some u
        /\ Socket.users s' = Js.map_set (Socket.users s) sid u'
        /\ User.id u' = User.id u
        /\ User.isOverlay u = false
        /\ User.isOverlay u' = false
        /\ User.joinedAt u' = User.joinedAt u)
  \/ Socket.users s' = Js.map_delete (Socket.users s) sid.

(** The parts of a note that are fixed when it is submitted *)
Definition sameSnapshot (n n' : Note.t) : Prop :=
  Note.id n' = Note.id n
  /\ Note.userId n' = Note.userId n
  /\ Note.timecode n' = Note.timecode n
  /\ Note.lxCue n' = Note.lxCue n
  /\ Note.timestamp n' = Note.timestamp n
  /\ Note.frameRate n' = Note.frameRate n
  /\ Note.act n' = Note.act n.

(** The canonical timecode is the initial one until a timecode is
    announced, and the last announced one from then on. *)
Definition timecodeOk (s : Server.t) : Prop :=
  match Server.lastFullTimecode s with
  | None =>
      GlobalState.timecode (Server.globalState s)
      = Timecode.mk 0 0 0 0 (30 # 1)%Q "midi"
  | Some tc => GlobalState.timecode (Server.globalState s) = tc
  end.

(** An input that neither connects, renames, disconnects nor times out
    the socket [sid] *)
Definition leavesAnonymous (sid : string) (i : Loop.Input) : Prop :=
  match i with
  | Loop.connection sid' _ _ _ => sid' <> sid
  | Loop.anonymity_timeout sid' => sid' <> sid
  | Loop.socket_event sid' _ ev =>
      sid' <> sid
      \/ match ev with
         | user_name_change _ | disconnect => False
         | _ => True
         end
  | _ => True
  end.

(** An input that does not connect the socket [sid] *)
Definition notConnecting (sid : string) (i : Loop.Input) : Prop :=
  match i with
  | Loop.connection sid' _ _ _ => sid' <> sid
  | _ => True
  end.

(** What stays true of the shared state: the chat log is bounded, the
    time mode is one of the two modes, and the canonical timecode is the
    decoder's. *)
Definition stable (s : Server.t) : Prop :=
  (List.length (GlobalState.chatMessages (Server.globalState s)) <= 100)%nat
  /\ (GlobalState.timeMode (Server.globalState s) = "midi"
      \/ GlobalState.timeMode (Server.globalState s) = "realtime")
  /\ timecodeOk s.

(** The notes [l'] are the notes [l], each with its snapshot intact, and
    possibly more notes after them. *)
Definition notesGrow (l l' : list Note.t) : Prop :=
  exists kept added, l' = kept ++ added /\ Forall2 sameSnapshot l kept.

(** The test of a tag lookup by id *)
Definition tagHasId (id : string) (tag : Tag.t) : bool :=
  (Tag.id tag =? id)%string.

(** The author snapshots of the notes: for every note and every comment,
    the session id of its author with the author name it carries. *)
Definition noteCredits (n : Note.t) : list (string * string) :=
  (Note.userId n, Note.user n)
  :: List.map (fun c => (Comment.userId c, Comment.user c)) (Note.comments n).

Definition credits (l : list Note.t) : list (string * string) :=
  flat_map noteCredits l.

(** Every note and comment of a connected session carries the name the
    session has now. *)
Definition authorsInSync (s : Server.t) : Prop :=
  forall sid u p,
    Js.map_get (Socket.users s) sid = Some u ->
    In p (credits (Socket.notes s)) ->
    fst p = User.id u -> snd p = User.name u.

(** An author snapshot after the session [uid] took the name [newName] *)
Definition recredit (uid newName : string) (q : string * string)
    : string * string :=
  if (fst q =? uid)%string then (fst q, newName) else q.

(** A clock reading whose four fields have at most two digits *)
Definition twoDigits (tc : Timecode.t) : Prop :=
  0 <= Timecode.hours tc <= 99
  /\ 0 <= Timecode.minutes tc <= 99
  /\ 0 <= Timecode.seconds tc <= 99
  /\ 0 <= Timecode.frames tc <= 99.

(** The same reading on the clock, whatever the rate and origin *)
Definition sameClock (a b : Timecode.t) : Prop :=
  Timecode.hours a = Timecode.hours b
  /\ Timecode.minutes a = Timecode.minutes b
  /\ Timecode.seconds a = Timecode.seconds b
  /\ Timecode.frames a = Timecode.frames b.

(** The number a two-character field is read back as *)
Definition readField (f : string) : option Z :=
  match f with
  | String c1 (String c0 EmptyString) =>
      Some (Z.of_nat (nat_of_ascii c1 - 48) * 10
            + Z.of_nat (nat_of_ascii c0 - 48))
  | _ => None
  end.

(** [readField] undoes [Format.field] on the numbers [0 .. n-1]. *)
Definition readsBack (n : nat) : bool :=
  forallb
    (fun k =>
       match readField (Format.field (Z.of_nat k)) with
       | Some x => x =? Z.of_nat k
       | None => false
       end)
    (seq 0 n).

End MoreSpec.

(** ** Notions about the anonymity timer *)

Module ClockSpec.
Import Clock.

(** The callback of a timer of the socket [sid] ran. *)
Definition firedFor (sid : string) (e : Entry) : bool :=
  match cause e with
  | Loop.anonymity_timeout sid' => (sid' =? sid)%string
  | _ => false
  end.

(** The socket [sid] was told that its name change succeeded. *)
Definition renamed (sid : string) (e : Entry) : Prop :=
  exists message, In (socket_emit sid (name_change_success message)) (out e).

(** The socket [sid] disconnected. *)
Definition hungUp (sid : string) (e : Entry) : Prop :=
  exists env, cause e = Loop.socket_event sid env disconnect.

(** The session neither changed its name nor disconnected. *)
Definition quiet (sid : string) (tr : list Entry) : Prop :=
  forall e, In e tr -> ~ renamed sid e /\ ~ hungUp sid e.

(** Socket ids are unique: no other connection comes with the id [sid]. *)
Definition unique (sid : string) (k : Tick) : Prop :=
  match k with
  | receive i => MoreSpec.notConnecting sid (toLoop i)
  | wait _ => True
  end.

(** The pending timers of the socket [sid] *)
Definition timersOf (sid : string) (w : World) : list Timer :=
  filter (fun tm => (socket tm =? sid)%string) (timers w).

(** What the registry says of the session [sid] *)
Definition anonymousAs (sid name : string) (s : Server.t) : Prop :=
  exists u, Js.map_get (Socket.users s) sid = Some u
            /\ User.isAnonymous u = true /\ User.isOverlay u = false
            /\ User.name u = name.

Definition named (sid : string) (s : Server.t) : Prop :=
  exists u, Js.map_get (Socket.users s) sid = Some u
            /\ User.isAnonymous u = false.

Definition gone (sid : string) (s : Server.t) : Prop :=
  Js.map_get (Socket.users s) sid = None.

Definition namedOrGone (sid : string) (s : Server.t) : Prop :=
  forall u, Js.map_get (Socket.users s) sid = Some u ->
            User.isAnonymous u = false.

(** The socket [sid] has one timer, due at [t]: it is pending before [t]
    and has left the queue from then on. *)
Definition oneTimer (t : Z) (sid : string) (w : World) : Prop :=
  timersOf sid w = if now w <? t then [mkTimer t sid] else [].

(** The queue is in the order of the due times, from [lo] on. *)
Fixpoint ordered (lo : Z) (ts : list Timer) : Prop :=
  match ts with
  | [] => True
  | tm :: rest => lo <= due tm /\ ordered (due tm) rest
  end.

(** Every pending timer is due after now, at most the delay away, and the
    queue is in the order of the due times: the order in which the
    callbacks run is the order of their times. *)
Definition queueOk (w : World) : Prop :=
  ordered (now w + 1) (timers w)
  /\ Forall (fun tm => due tm <= now w + delay) (timers w).

(** A session that waits for its timer is anonymous before [t] and gone
    from then on. *)
Definition waiting (t : Z) (sid name : string) (w : World) : Prop :=
  if now w <? t then anonymousAs sid name (server w)
  else gone sid (server w).

End ClockSpec.

(** ** A small production, for concrete runs *)

Module Example.

Definition env (n : string) : Env.t :=
  Env.mk (String.append "id-" n) "2025-03-01T19:30:00.000Z"
    (String.append "tag-" n) "#FF6B6B".

(** The default tags of lines 41-48 *)
Definition tags : list Tag.t :=
  [Tag.mk "safety" "Safety/Show Critical" "#E63946";
   Tag.mk "lighting" "Lighting" "#00B4D8";
   Tag.mk "sound" "Sound" "#06D6A0";
   Tag.mk "stage" "Stage" "#118AB2";
   Tag.mk "dsm" "DSM" "#8AC926";
   Tag.mk "set" "Set" "#FF6f91"].

(** [toLowerCase] on the letters A to Z *)
Definition lowerChar (c : ascii) : ascii :=
  let n := nat_of_ascii c in
  if (Nat.leb 65 n && Nat.leb n 90)%bool then ascii_of_nat (n + 32) else c.

Fixpoint lower (s : string) : string :=
  match s with
  | String c rest => String (lowerChar c) (lower rest)
  | EmptyString => EmptyString
  end.

Definition started : Server.t := Server.initial tags true true.

(** Two participants and one overlay have connected. *)
Definition joined : Server.t :=
  fst (Socket.on_connection "ov" "10.0.0.9" true (env "c3")
    (fst (Socket.on_connection "p2" "10.0.0.6" false (env "c2")
      (fst (Socket.on_connection "p1" "10.0.0.5" false (env "c1") started))))).

(** p1 has taken a name and left a note; p2 has commented on it. *)
Definition noted : Server.t :=
  fst (Socket.run lower
    [("p1", env "r1", user_name_change "Alice");
     ("p1", env "n1",
      note_submit (NoteData.mk "Check focus" None None None (Some ["lighting"])));
     ("p2", env "k1", comment_submit "id-n1" "agreed")]
    joined).

(** [n] chat submissions by p1, numbered from 0 *)
Definition p1 : User.t :=
  User.mk "p1" "10.0.0.5" false None None "2025-03-01T19:30:00.000Z" false true.

Definition chatter (n : nat) : list (string * User.t * Env.t * string) :=
  List.map
    (fun i => ("p1", p1, env (String (ascii_of_nat (48 + i)) EmptyString),
               "standing by"))
    (seq 0 n).

End Example.

(** * Properties *)

(** ** Timecode decoder *)

Module MtcFacts.
Import Server Mtc MtcSpec.

Lemma to_int32_small (z : Z) :
  - 2 ^ 31 <= z < 2 ^ 31 -> Js.to_int32 z = z.
Proof.
  intros H. unfold Js.to_int32.
  rewrite Z.mod_small; lia.
Qed.

Lemma lor_bound (a b : Z) :
  0 <= a -> 0 <= b -> 0 <= Z.lor a b <= a + b.
Proof.
  intros Ha Hb. split.
  - apply Z.lor_nonneg; split; assumption.
  - pose proof (Z.add_lor_land a b) as E.
    assert (0 <= Z.land a b) by (apply Z.land_nonneg; left; assumption).
    lia.
Qed.

(** Two nibbles make a byte: on nibbles the 32-bit operators do not wrap. *)
Lemma byte_of_nibbles (hi lo : Z) :
  0 <= hi <= 15 -> 0 <= lo <= 15 ->
  Js.bor (Js.shl hi 4) lo = Z.lor (Z.shiftl hi 4) lo
  /\ 0 <= Z.lor (Z.shiftl hi 4) lo <= 255.
Proof.
  intros Hhi Hlo. unfold Js.bor, Js.shl.
  change (Z.land 4 31) with 4.
  rewrite (to_int32_small hi) by lia.
  assert (E : Z.shiftl hi 4 = hi * 16)
    by (rewrite Z.shiftl_mul_pow2 by lia; reflexivity).
  rewrite (to_int32_small (Z.shiftl hi 4)) by (rewrite E; lia).
  rewrite (to_int32_small (Z.shiftl hi 4)) by (rewrite E; lia).
  rewrite (to_int32_small lo) by lia.
  split; [reflexivity|].
  pose proof (lor_bound (Z.shiftl hi 4) lo) as B. rewrite E in *. lia.
Qed.

Lemma or_number_table (code : Z) :
  Js.or_number (frameRates code) (30 # 1)%Q = rateOfCode code.
Proof.
  destruct code as [|p|p]; try reflexivity.
  destruct p as [p|p|]; try reflexivity;
    destruct p as [p|p|]; reflexivity.
Qed.

Lemma get_set_nat {A} (i : nat) : forall (arr : Js.array A) (v : A) (k : nat),
  Js.get (Js.set_nat arr i v) k = if Nat.eqb i k then Some v else Js.get arr k.
Proof.
  induction i as [|i IH]; intros arr v k.
  - destruct arr as [|x rest]; destruct k as [|k]; simpl; try reflexivity.
    unfold Js.get. destruct k; reflexivity.
  - destruct arr as [|x rest]; destruct k as [|k]; simpl; try reflexivity.
    + unfold Js.get in *. simpl. specialize (IH [] v k). simpl in IH.
      rewrite IH. destruct (Nat.eqb i k); [reflexivity|].
      destruct k; reflexivity.
    + unfold Js.get in *. simpl. apply IH.
Qed.

(** Reading a slot after [arr[i] = v] *)
Lemma get_set {A} (arr : Js.array A) (i : Z) (v : A) (k : nat) :
  Js.get (Js.set arr i v) k = if i =? Z.of_nat k then Some v else Js.get arr k.
Proof.
  unfold Js.set. destruct (Z.ltb_spec i 0) as [Hneg|Hpos].
  - destruct (Z.eqb_spec i (Z.of_nat k)); [lia | reflexivity].
  - rewrite get_set_nat.
    destruct (Nat.eqb_spec (Z.to_nat i) k) as [E|E];
      destruct (Z.eqb_spec i (Z.of_nat k)) as [F|F]; try reflexivity; lia.
Qed.

Lemma nibbles_initial : nibbles (repeat (Some 0) 8).
Proof.
  intros k Hk. exists 0.
  do 8 (destruct k as [|k]; [split; [reflexivity | lia]|]). lia.
Qed.

Lemma nibbles_set (q : Js.array Z) (ty v : Z) :
  nibbles q -> 0 <= v <= 15 -> nibbles (Js.set q ty v).
Proof.
  intros Hq Hv k Hk. rewrite get_set.
  destruct (ty =? Z.of_nat k).
  - exists v. split; [reflexivity | assumption].
  - apply Hq, Hk.
Qed.

Lemma nibbles_slot (q : Js.array Z) (k : nat) :
  nibbles q -> (k < 8)%nat -> 0 <= slot q k <= 15.
Proof.
  intros Hq Hk. destruct (Hq k Hk) as [z [E Hz]].
  unfold slot. rewrite E. assumption.
Qed.

(** On a buffer of nibbles the decoder computes the recombination. *)
Lemma newTimecode_nibbles (q : Js.array Z) :
  nibbles q -> newTimecode q = recombine (slot q).
Proof.
  intros Hq.
  assert (H0 := nibbles_slot q 0 Hq). assert (H1 := nibbles_slot q 1 Hq).
  assert (H2 := nibbles_slot q 2 Hq). assert (H3 := nibbles_slot q 3 Hq).
  assert (H4 := nibbles_slot q 4 Hq). assert (H5 := nibbles_slot q 5 Hq).
  assert (H6 := nibbles_slot q 6 Hq). assert (H7 := nibbles_slot q 7 Hq).
  destruct (byte_of_nibbles (slot q 1) (slot q 0)) as [Ef _]; try lia.
  destruct (byte_of_nibbles (slot q 3) (slot q 2)) as [Es _]; try lia.
  destruct (byte_of_nibbles (slot q 5) (slot q 4)) as [Em _]; try lia.
  destruct (byte_of_nibbles (slot q 7) (slot q 6)) as [Eh Bh]; try lia.
  unfold newTimecode, recombine.
  rewrite Ef, Es, Em, Eh, or_number_table.
  set (c := Z.lor (Z.shiftl (slot q 7) 4) (slot q 6)) in *.
  unfold Js.band, Js.sar. change (Z.land 5 31) with 5.
  rewrite (to_int32_small c) by lia.
  assert (Bs : 0 <= Z.shiftr c 5 <= 255).
  { rewrite Z.shiftr_div_pow2 by lia. change (2 ^ 5) with 32.
    split; [apply Z.div_pos; lia|].
    apply Z.le_trans with c; [|lia].
    apply Z.div_le_upper_bound; lia. }
  rewrite (to_int32_small (Z.shiftr c 5)) by lia.
  reflexivity.
Qed.

End MtcFacts.

Module MtcRun.
Import Server Mtc MtcSpec MtcFacts.

(** What one fragment does to the decoder, field by field. *)
Lemma parseCompleteMTC_data (s : Server.t) :
  quarterFrameData (fst (parseCompleteMTC s)) = quarterFrameData s.
Proof.
  unfold parseCompleteMTC.
  destruct (changed (lastFullTimecode s) (newTimecode (quarterFrameData s)));
    reflexivity.
Qed.

Lemma fragment_data (ty v : Z) (s : Server.t) :
  quarterFrameData (fst (parseEasyMIDIMTC ty v s))
  = Js.set (quarterFrameData s) ty v.
Proof.
  unfold parseEasyMIDIMTC. destruct (ty =? 7).
  - rewrite parseCompleteMTC_data. reflexivity.
  - reflexivity.
Qed.

Lemma fragment_not7 (ty v : Z) (s : Server.t) :
  ty <> 7 ->
  snd (parseEasyMIDIMTC ty v s) = []
  /\ lastFullTimecode (fst (parseEasyMIDIMTC ty v s)) = lastFullTimecode s
  /\ globalState (fst (parseEasyMIDIMTC ty v s)) = globalState s.
Proof.
  intros H. unfold parseEasyMIDIMTC.
  destruct (Z.eqb_spec ty 7); [contradiction|]. repeat split.
Qed.

Lemma changed_refl (n : Timecode.t) : changed (Some n) n = false.
Proof. unfold changed. rewrite !Z.eqb_refl. reflexivity. Qed.

(** [changed] decides "nothing emitted yet, or a field differs". *)
Lemma changed_spec (last : option Timecode.t) (n : Timecode.t) :
  changed last n = true
  <-> last = None \/ exists l, last = Some l /\ differ l n.
Proof.
  unfold changed, differ. destruct last as [l|].
  - rewrite !orb_true_iff, !negb_true_iff, !Z.eqb_neq. split.
    + intros H. right. exists l. split; [reflexivity|]. tauto.
    + intros [H|[l' [E H]]]; [discriminate|].
      injection E as <-. tauto.
  - split; [intros _; left; reflexivity | reflexivity].
Qed.

(** A fragment of type 7 either replaces the timecode and announces it, or
    leaves everything but the buffer and the counters alone. *)
Lemma fragment_7 (v : Z) (s : Server.t) :
  let s' := fst (parseEasyMIDIMTC 7 v s) in
  let n := newTimecode (quarterFrameData s') in
  (changed (lastFullTimecode s) n = true ->
     snd (parseEasyMIDIMTC 7 v s) = [io_emit (timecode_update n)]
     /\ GlobalState.timecode (globalState s') = n
     /\ lastFullTimecode s' = Some n)
  /\ (changed (lastFullTimecode s) n = false ->
        snd (parseEasyMIDIMTC 7 v s) = []
        /\ globalState s' = globalState s
        /\ lastFullTimecode s' = lastFullTimecode s).
Proof.
  cbv zeta. rewrite fragment_data.
  unfold parseEasyMIDIMTC. change (7 =? 7) with true. cbv iota.
  unfold parseCompleteMTC. cbn [quarterFrameData lastFullTimecode].
  destruct (changed (lastFullTimecode s)
              (newTimecode (Js.set (quarterFrameData s) 7 v))) eqn:E.
  - split; [intros _ | discriminate]. repeat split.
  - split; [discriminate | intros _]. repeat split.
Qed.

Lemma run_app (a b : list (Z * Z)) : forall s,
  run (a ++ b) s
  = (fst (run b (fst (run a s))), snd (run a s) ++ snd (run b (fst (run a s)))).
Proof.
  induction a as [|[ty v] a IH]; intros s.
  - simpl. destruct (run b s); reflexivity.
  - simpl. destruct (parseEasyMIDIMTC ty v s) as [s1 o1] eqn:E1.
    rewrite IH. destruct (run a s1) as [s2 o2]. simpl.
    rewrite app_assoc. reflexivity.
Qed.

Lemma run_cons (ty v : Z) (rest : list (Z * Z)) (s : Server.t) :
  run ((ty, v) :: rest) s
  = (fst (run rest (fst (parseEasyMIDIMTC ty v s))),
     snd (parseEasyMIDIMTC ty v s)
       ++ snd (run rest (fst (parseEasyMIDIMTC ty v s)))).
Proof.
  simpl. destruct (parseEasyMIDIMTC ty v s) as [s1 o1]. simpl.
  destruct (run rest s1); reflexivity.
Qed.

(** The buffer after a stream: each slot holds its last write. *)
Lemma run_data (frs : list (Z * Z)) : forall s k,
  Js.get (quarterFrameData (fst (run frs s))) k
  = match written frs k with
    | Some w => Some w
    | None => Js.get (quarterFrameData s) k
    end.
Proof.
  induction frs as [|[ty v] rest IH]; intros s k.
  - reflexivity.
  - rewrite run_cons. cbn [fst written]. rewrite IH.
    destruct (written rest k); [reflexivity|].
    rewrite fragment_data, get_set.
    destruct (ty =? Z.of_nat k); reflexivity.
Qed.

Lemma run_nibbles (frs : list (Z * Z)) : forall s,
  Forall nibbleFragment frs -> nibbles (quarterFrameData s) ->
  nibbles (quarterFrameData (fst (run frs s))).
Proof.
  induction frs as [|[ty v] rest IH]; intros s Hfrs Hs.
  - exact Hs.
  - rewrite run_cons. cbn [fst]. inversion Hfrs as [|? ? [_ Hv] Hrest]; subst.
    apply IH; [assumption|].
    rewrite fragment_data. apply nibbles_set; assumption.
Qed.

(** A stream without a fragment of type 7 announces nothing. *)
Lemma run_not7 (frs : list (Z * Z)) : forall s,
  Forall (fun f => fst f <> 7) frs ->
  snd (run frs s) = []
  /\ lastFullTimecode (fst (run frs s)) = lastFullTimecode s
  /\ globalState (fst (run frs s)) = globalState s.
Proof.
  induction frs as [|[ty v] rest IH]; intros s H.
  - repeat split.
  - inversion H as [|? ? Hty Hrest]; subst. cbn [fst] in Hty.
    rewrite run_cons. cbn [fst snd].
    destruct (fragment_not7 ty v s Hty) as [E1 [E2 E3]].
    destruct (IH (fst (parseEasyMIDIMTC ty v s)) Hrest) as [F1 [F2 F3]].
    rewrite E1, F1, F2, F3, E2, E3. repeat split.
Qed.

Lemma lastEmitted_app (a b : list Emit) :
  lastEmitted (a ++ b)
  = match lastEmitted b with
    | Some tc => Some tc
    | None => lastEmitted a
    end.
Proof.
  induction a as [|e a IH]; simpl.
  - destruct (lastEmitted b); reflexivity.
  - rewrite IH. destruct (lastEmitted b); reflexivity.
Qed.

Lemma fragment_last (ty v : Z) (s : Server.t) :
  lastFullTimecode (fst (parseEasyMIDIMTC ty v s))
  = match lastEmitted (snd (parseEasyMIDIMTC ty v s)) with
    | Some tc => Some tc
    | None => lastFullTimecode s
    end.
Proof.
  destruct (Z.eq_dec ty 7) as [->|H].
  - destruct (fragment_7 v s) as [Hc Hn].
    destruct (changed (lastFullTimecode s)
                (newTimecode
                   (quarterFrameData (fst (parseEasyMIDIMTC 7 v s))))).
    + destruct (Hc eq_refl) as [E1 [_ E3]]. rewrite E1, E3. reflexivity.
    + destruct (Hn eq_refl) as [E1 [_ E3]]. rewrite E1, E3. reflexivity.
  - destruct (fragment_not7 ty v s H) as [E1 [E2 _]].
    rewrite E1, E2. reflexivity.
Qed.

(** The decoder's [lastFullTimecode] is the last timecode it announced. *)
Lemma run_last (frs : list (Z * Z)) : forall s,
  lastFullTimecode (fst (run frs s))
  = match lastEmitted (snd (run frs s)) with
    | Some tc => Some tc
    | None => lastFullTimecode s
    end.
Proof.
  induction frs as [|[ty v] rest IH]; intros s.
  - reflexivity.
  - rewrite run_cons. cbn [fst snd]. rewrite IH, lastEmitted_app, fragment_last.
    destruct (lastEmitted (snd (run rest (fst (parseEasyMIDIMTC ty v s)))));
      reflexivity.
Qed.

(** The decoder reads the buffer through its slots 0 to 7 only. *)
Lemma newTimecode_ext (q1 q2 : Js.array Z) :
  (forall k, Js.get q1 k = Js.get q2 k) -> newTimecode q1 = newTimecode q2.
Proof.
  intros H. unfold newTimecode, slot. rewrite !H. reflexivity.
Qed.

End MtcRun.

Module MtcClaims.
Import Server Mtc MtcSpec MtcFacts MtcRun.

(** C1: in every buffer reached from the initial one by writing nibbles
    into slots 0 to 7, a fragment of type 7 makes the decoder compute
    frames = b1<<4 | b0, seconds = b3<<4 | b2, minutes = b5<<4 | b4,
    hours = (b7<<4 | b6) & 0x1F and the frame rate selected by
    (b7<<4 | b6)>>5 & 0x03 in the table 24, 25, 29.97, 30 (30 otherwise),
    where b is the buffer the fragment leaves; what it announces, if
    anything, is that timecode.  The cycle (0,5),(1,2),(2,10),(3,0),(4,5),
    (5,0),(6,8),(7,0) decodes to frames 37 and seconds 10 (with minutes 5,
    hours 8 and 24 frames per second). *)
Theorem C1_nibble_recombination (tags : list Tag.t) (midi osc : bool)
    (frs : list (Z * Z)) (v : Z) :
  Forall nibbleFragment frs -> 0 <= v <= 15 ->
  let s := fst (run frs (Server.initial tags midi osc)) in
  let s' := fst (parseEasyMIDIMTC 7 v s) in
  let out := snd (parseEasyMIDIMTC 7 v s) in
  let b := slot (quarterFrameData s') in
  newTimecode (quarterFrameData s') = recombine b
  /\ (out = []
      \/ out = [io_emit (timecode_update (recombine b))]
         /\ GlobalState.timecode (globalState s') = recombine b)
  /\ snd (run scenario (Server.initial tags midi osc))
     = [io_emit
          (timecode_update (Timecode.mk 8 5 10 37 (24 # 1)%Q "midi"))].
Proof.
  intros Hfrs Hv s s' out b.
  assert (Hq : nibbles (quarterFrameData s')).
  { unfold s'. rewrite fragment_data. apply nibbles_set; [|assumption].
    apply run_nibbles; [assumption | apply nibbles_initial]. }
  assert (E : newTimecode (quarterFrameData s') = recombine b)
    by (apply newTimecode_nibbles, Hq).
  split; [exact E|]. split; [|reflexivity].
  destruct (fragment_7 v s) as [Hc Hn]. fold s' in Hc, Hn.
  unfold out.
  destruct (changed (lastFullTimecode s) (newTimecode (quarterFrameData s'))).
  - right. destruct (Hc eq_refl) as [E1 [E2 _]].
    rewrite E1, E2, E. split; reflexivity.
  - left. apply (Hn eq_refl).
Qed.

Lemma C1_nibble_recombination_witness :
  Forall nibbleFragment [(0, 5); (1, 2); (6, 9)] /\ 0 <= 3 <= 15
  /\ newTimecode
       (quarterFrameData
          (fst (parseEasyMIDIMTC 7 3
                  (fst (run [(0, 5); (1, 2); (6, 9)]
                          (Server.initial [] true true))))))
     = Timecode.mk 25 0 0 37 (25 # 1)%Q "midi".
Proof.
  assert (Hf : Forall nibbleFragment [(0, 5); (1, 2); (6, 9)])
    by (repeat constructor; simpl; lia).
  assert (Hv : 0 <= 3 <= 15) by lia.
  split; [exact Hf|]. split; [exact Hv|].
  rewrite (proj1 (C1_nibble_recombination [] true true
                    [(0, 5); (1, 2); (6, 9)] 3 Hf Hv)).
  reflexivity.
Defined.

(** The timecode recombined from a buffer depends on slots 0 to 7 only. *)
Lemma recombine_ext (b b' : nat -> Z) :
  (forall k, (k < 8)%nat -> b k = b' k) -> recombine b = recombine b'.
Proof.
  intros E. unfold recombine.
  rewrite (E 0%nat), (E 1%nat), (E 2%nat), (E 3%nat), (E 4%nat), (E 5%nat),
    (E 6%nat), (E 7%nat) by lia.
  reflexivity.
Qed.

(** From the start of the process the decoder computes the recombination
    of the nibbles last received for each slot. *)
Lemma newTimecode_held (tags : list Tag.t) (midi osc : bool)
    (frs : list (Z * Z)) :
  Forall nibbleFragment frs ->
  newTimecode (quarterFrameData (fst (run frs (Server.initial tags midi osc))))
  = recombine (held frs).
Proof.
  intros Hfrs.
  rewrite newTimecode_nibbles
    by (apply run_nibbles; [assumption | apply nibbles_initial]).
  apply recombine_ext. intros k Hk. unfold slot, held.
  rewrite run_data. destruct (written frs k); [reflexivity|].
  cbn [quarterFrameData Server.initial].
  do 8 (destruct k as [|k]; [reflexivity|]). lia.
Qed.

(** C2, as the code has it: after any stream of quarter-frame fragments
    from the start of the process, the next fragment announces a full
    timecode (and makes it the canonical one) exactly when its type is 7
    and no timecode was announced yet or the recombination of the nibbles
    last received for each slot differs from the last announced timecode
    in hours, minutes, seconds or frames; what is announced is that
    recombination; otherwise nothing is announced and the canonical
    timecode stays.  A cycle that ends with its only fragment of type 7,
    delivered again with the same values right after itself, announces
    nothing and leaves the canonical timecode as it is. *)
Theorem C2_emitted_on_change (tags : list Tag.t) (midi osc : bool)
    (frs pre : list (Z * Z)) (ty v v7 : Z) :
  Forall nibbleFragment frs -> nibbleFragment (ty, v) ->
  Forall (fun f => fst f <> 7) pre ->
  let s := fst (run frs (Server.initial tags midi osc)) in
  let sent := snd (run frs (Server.initial tags midi osc)) in
  let s' := fst (parseEasyMIDIMTC ty v s) in
  let out := snd (parseEasyMIDIMTC ty v s) in
  let n := recombine (held (frs ++ [(ty, v)])) in
  let due :=
    ty = 7
    /\ (lastEmitted sent = None
        \/ exists l, lastEmitted sent = Some l /\ differ l n) in
  let once := fst (run (pre ++ [(7, v7)]) s) in
  (due ->
     out = [io_emit (timecode_update n)]
     /\ GlobalState.timecode (globalState s') = n)
  /\ (~ due ->
        out = []
        /\ GlobalState.timecode (globalState s')
           = GlobalState.timecode (globalState s))
  /\ snd (run (pre ++ [(7, v7)]) once) = []
  /\ GlobalState.timecode (globalState (fst (run (pre ++ [(7, v7)]) once)))
     = GlobalState.timecode (globalState once).
Proof.
  intros Hfrs Hfr Hpre s sent s' out n due once.
  assert (Hlast : lastFullTimecode s = lastEmitted sent).
  { unfold s, sent. rewrite run_last.
    destruct (lastEmitted (snd (run frs (initial tags midi osc))));
      reflexivity. }
  assert (Hn : newTimecode (quarterFrameData s') = n).
  { unfold n. rewrite <- (newTimecode_held tags midi osc).
    - rewrite run_app. cbn [fst]. rewrite run_cons. reflexivity.
    - apply Forall_app. split; [assumption|].
      apply Forall_cons; [assumption | apply Forall_nil]. }
  assert (Hdue : due <-> ty = 7 /\ changed (lastFullTimecode s) n = true).
  { unfold due. rewrite changed_spec, Hlast. reflexivity. }
  split; [|split].
  - intros D. apply Hdue in D. destruct D as [E D]. subst ty.
    destruct (fragment_7 v s) as [Hc _]. fold s' in Hc. rewrite Hn in Hc.
    destruct (Hc D) as [E1 [E2 _]]. split; assumption.
  - intros D. destruct (Z.eq_dec ty 7) as [E|Hty].
    + subst ty. destruct (fragment_7 v s) as [_ Hc]. fold s' in Hc.
      rewrite Hn in Hc.
      destruct (changed (lastFullTimecode s) n) eqn:C.
      * exfalso. apply D, Hdue. split; reflexivity.
      * destruct (Hc eq_refl) as [E1 [E2 _]]. split; [exact E1|].
        rewrite E2. reflexivity.
    + destruct (fragment_not7 ty v s Hty) as [E1 [_ E3]].
      split; [exact E1|]. unfold s'. rewrite E3. reflexivity.
  - clear Hdue due Hn n out s' Hlast Hfr.
    set (sA := fst (run pre s)).
    set (s1 := fst (parseEasyMIDIMTC 7 v7 sA)).
    assert (R1 : once = s1).
    { unfold once. rewrite run_app. cbn [fst]. rewrite run_cons.
      reflexivity. }
    rewrite R1.
    assert (Q1 : changed (lastFullTimecode s1)
                   (newTimecode (quarterFrameData s1)) = false).
    { destruct (fragment_7 v7 sA) as [Hc Hn]. fold s1 in Hc, Hn.
      destruct (changed (lastFullTimecode sA)
                  (newTimecode (quarterFrameData s1))) eqn:C.
      - destruct (Hc eq_refl) as [_ [_ E3]]. rewrite E3. apply changed_refl.
      - destruct (Hn eq_refl) as [_ [_ E3]]. rewrite E3. exact C. }
    set (sB := fst (run pre s1)).
    destruct (run_not7 pre s1 Hpre) as [O1 [L1 G1]]. fold sB in L1, G1.
    rewrite !run_app, !run_cons. cbn [fst snd]. fold sB.
    rewrite O1, app_nil_r. cbn [app].
    assert (Q2 : forall k,
               Js.get (quarterFrameData (fst (parseEasyMIDIMTC 7 v7 sB))) k
               = Js.get (quarterFrameData s1) k).
    { intros k. unfold s1. rewrite !fragment_data, !get_set.
      destruct (7 =? Z.of_nat k) eqn:K; [reflexivity|].
      unfold sB. rewrite run_data. unfold s1. rewrite fragment_data, get_set, K.
      unfold sA. rewrite run_data.
      destruct (written pre k); reflexivity. }
    destruct (fragment_7 v7 sB) as [_ Hn].
    rewrite (newTimecode_ext _ _ Q2), L1 in Hn.
    destruct (Hn Q1) as [E1 [E2 _]].
    split; [exact E1|]. cbn [run fst]. rewrite E2, G1. reflexivity.
Qed.

Lemma C2_emitted_on_change_witness :
  Forall nibbleFragment
    [(0, 5); (1, 2); (2, 10); (3, 0); (4, 5); (5, 0); (6, 8)]
  /\ nibbleFragment (7, 0)
  /\ snd (parseEasyMIDIMTC 7 0
            (fst (run [(0, 5); (1, 2); (2, 10); (3, 0); (4, 5); (5, 0); (6, 8)]
                    (Server.initial [] true true))))
     = [io_emit (timecode_update (Timecode.mk 8 5 10 37 (24 # 1)%Q "midi"))]
  /\ snd (run scenario (fst (run scenario (Server.initial [] true true))))
     = [].
Proof.
  assert (Hfrs : Forall nibbleFragment
                   [(0, 5); (1, 2); (2, 10); (3, 0); (4, 5); (5, 0); (6, 8)])
    by (repeat constructor; simpl; lia).
  assert (Hfr : nibbleFragment (7, 0)) by (split; simpl; lia).
  assert (Hpre : Forall (fun f : Z * Z => fst f <> 7)
                   [(0, 5); (1, 2); (2, 10); (3, 0); (4, 5); (5, 0); (6, 8)])
    by (repeat constructor; simpl; lia).
  split; [exact Hfrs|]. split; [exact Hfr|]. split.
  - refine (proj1 (proj1 (C2_emitted_on_change [] true true _ _ 7 0 0
                            Hfrs Hfr Hpre) _)).
    split; [reflexivity|]. left. vm_compute. reflexivity.
  - exact (proj1 (proj2 (proj2 (C2_emitted_on_change [] true true [] _ 7 0 0
                                  (Forall_nil _) Hfr Hpre)))).
Defined.

(** C2 as stated fails when the fragment of type 7 does not come last.
    The eight fragments of the scenario, delivered with the one of type 7
    first, announce 00:00:00:00 from the buffer of the start; delivered
    again with the same values, they announce 08:05:10:37: one more
    notification, where the claim has none. *)
Lemma C2_seven_first_counterexample :
  Permutation sevenFirst scenario
  /\ snd (run sevenFirst (Server.initial [] true true))
     = [io_emit (timecode_update (Timecode.mk 0 0 0 0 (24 # 1)%Q "midi"))]
  /\ snd (run sevenFirst (fst (run sevenFirst (Server.initial [] true true))))
     = [io_emit (timecode_update (Timecode.mk 8 5 10 37 (24 # 1)%Q "midi"))].
Proof.
  split; [|split].
  - apply (Permutation_cons_append
             [(0, 5); (1, 2); (2, 10); (3, 0); (4, 5); (5, 0); (6, 8)] (7, 0)).
  - vm_compute. reflexivity.
  - vm_compute. reflexivity.
Qed.

End MtcClaims.

(** ** Cue and act extractor *)

Module OscFacts.
Import Server Osc.

(** Group 1 of a match is never empty. *)
Lemma cueMatchFrom_truthy (value : string) : forall inRun g1,
  cueMatchFrom inRun value = Some g1 -> Js.truthy (Some g1) = true.
Proof.
  induction value as [|c rest IH]; intros inRun g1 H; simpl in H.
  - discriminate.
  - destruct (c =? "/")%char.
    + destruct inRun.
      * destruct rest as [|d rest'] eqn:R; [discriminate|].
        destruct (Js.isLineTerminator d) eqn:L.
        -- eapply IH, H.
        -- injection H as <-. simpl. rewrite L. reflexivity.
      * eapply IH, H.
    + eapply IH, H.
Qed.

(** An active-cue message whose value matches is announced whatever the
    current cue is: the handler never reads [globalState.currentLxCue]. *)
Lemma active_cue_always_announced (s : Server.t) (value g1 : string) :
  cueMatch value = Some g1 ->
  message "/eos/out/active/cue/text" (Some value) s
  = (set_globalState s
       (GlobalState.set_currentLxCue (globalState s) (Js.trim g1)),
     [io_emit (lx_cue_update (Js.trim g1))]).
Proof.
  intros H. unfold message.
  change ("/eos/out/active/cue/text" =? "/eos/out/active/cue/text")%string
    with true.
  assert (T : Js.truthy (Some value) = true).
  { destruct value; [discriminate H | reflexivity]. }
  rewrite T, H. cbn [andb].
  rewrite (cueMatchFrom_truthy value false g1 H). reflexivity.
Qed.

(** The act branch of the same handler *)
Lemma act_message (s : Server.t) (address act : string) :
  Js.startsWith address "/bts/" = true ->
  message address (Some act) s
  = if (Js.truthy (Some act)
        && negb (act =? GlobalState.currentAct (globalState s))%string)%bool
    then (set_globalState s (GlobalState.set_currentAct (globalState s) act),
          [io_emit (act_update act)])
    else (s, []).
Proof.
  intros P. unfold message.
  assert (A1 : (address =? "/eos/out/active/cue/text")%string = false).
  { destruct (String.eqb_spec address "/eos/out/active/cue/text") as [->|];
      [discriminate P | reflexivity]. }
  assert (A2 : (address =? "/eos/out/pending/cue/text")%string = false).
  { destruct (String.eqb_spec address "/eos/out/pending/cue/text") as [->|];
      [discriminate P | reflexivity]. }
  rewrite A1, A2, P. reflexivity.
Qed.

(** It does compare with the current value: the second of two identical
    act messages is silent. *)
Lemma act_announced_once (s : Server.t) (address act : string) :
  Js.startsWith address "/bts/" = true ->
  snd (message address (Some act) (fst (message address (Some act) s))) = [].
Proof.
  intros P. rewrite (act_message s address act P).
  destruct (Js.truthy (Some act)
            && negb (act =? GlobalState.currentAct (globalState s))%string)%bool
    eqn:C; cbn [fst]; rewrite act_message by exact P.
  - cbn [globalState set_globalState GlobalState.currentAct
           GlobalState.set_currentAct].
    rewrite String.eqb_refl, andb_false_r. reflexivity.
  - rewrite C. reflexivity.
Qed.

End OscFacts.

Module OscClaims.
Import Server Osc OscFacts.

(** C4 (the code departs from it): two consecutive active-cue messages
    with the same label are both announced.  From any state, the message
    [/eos/out/active/cue/text] with value [1/199 B/O 1.0 2%] makes
    [199 B/O 1.0 2%] the current cue, and the same message again, with
    the cue already that label, announces it a second time. *)
Theorem C4_identical_cue_announced_twice (s : Server.t) :
  let address := "/eos/out/active/cue/text" in
  let value := Some "1/199 B/O 1.0 2%" in
  let s1 := fst (message address value s) in
  GlobalState.currentLxCue (globalState s1) = "199 B/O 1.0 2%"
  /\ snd (message address value s1)
     = [io_emit (lx_cue_update "199 B/O 1.0 2%")]
  /\ snd (run [(address, value); (address, value)] s)
     = [io_emit (lx_cue_update "199 B/O 1.0 2%");
        io_emit (lx_cue_update "199 B/O 1.0 2%")].
Proof.
  cbv zeta.
  assert (M : cueMatch "1/199 B/O 1.0 2%" = Some "199 B/O 1.0 2%")
    by reflexivity.
  assert (T : Js.trim "199 B/O 1.0 2%" = "199 B/O 1.0 2%") by reflexivity.
  cbn [run].
  repeat (rewrite (active_cue_always_announced _ _ _ M); cbn [fst snd]).
  rewrite T. repeat split.
Qed.

End OscClaims.

(** ** Socket handlers *)

Module SocketFacts.
Import Server Socket SocketSpec.

Lemma map_get_set_same {V} (m : Js.map V) (k : string) (v : V) :
  Js.map_get (Js.map_set m k v) k = Some v.
Proof.
  induction m as [|[k' v'] rest IH]; simpl.
  - rewrite String.eqb_refl. reflexivity.
  - destruct (String.eqb_spec k' k) as [->|N]; simpl.
    + rewrite String.eqb_refl. reflexivity.
    + destruct (String.eqb_spec k' k); [contradiction | exact IH].
Qed.

Lemma map_get_set_other {V} (m : Js.map V) (k k' : string) (v : V) :
  k' <> k -> Js.map_get (Js.map_set m k v) k' = Js.map_get m k'.
Proof.
  intros N. induction m as [|[k0 v0] rest IH]; simpl.
  - destruct (String.eqb_spec k k'); [congruence | reflexivity].
  - destruct (String.eqb_spec k0 k) as [->|N0]; simpl.
    + destruct (String.eqb_spec k k'); [congruence | reflexivity].
    + destruct (String.eqb_spec k0 k'); [reflexivity | exact IH].
Qed.

Lemma map_get_keys {V} (m : Js.map V) (k : string) (v : V) :
  Js.map_get m k = Some v -> In k (Js.map_keys m).
Proof.
  induction m as [|[k' v'] rest IH]; simpl; [discriminate|].
  destruct (String.eqb_spec k' k) as [->|N].
  - intros _. left. reflexivity.
  - intros H. right. apply IH, H.
Qed.

(** A connected socket's event goes to its handler. *)
Lemma on_event_connected (toLowerCase : string -> string) (sid : string)
    (env : Env.t) (ev : ClientEvent) (s : Server.t) (user : User.t) :
  Js.map_get (users s) sid = Some user ->
  on_event toLowerCase sid env ev s
  = match ev with
    | note_update_tags noteId tags => on_note_update_tags noteId tags s
    | create_tag id name color => on_create_tag env id name color s
    | delete_tag tagId => on_delete_tag tagId s
    | typing_start timecode lxCue => on_typing_start sid timecode lxCue s
    | typing_stop => on_typing_stop sid s
    | time_mode_change newMode => on_time_mode_change sid newMode s
    | lx_cue_change newCue => on_lx_cue_change sid newCue s
    | note_submit data => on_note_submit sid env data s
    | comment_submit noteId text => on_comment_submit sid env noteId text s
    | chat_message text => on_chat_message sid env text s
    | note_edit_text noteId newText =>
        on_note_edit_text sid env noteId newText s
    | comment_edit noteId commentId newText =>
        on_comment_edit sid env noteId commentId newText s
    | comment_delete noteId commentId =>
        on_comment_delete sid noteId commentId s
    | user_name_change newName => on_user_name_change toLowerCase sid newName s
    | export_request format => on_export_request sid format s
    | disconnect => on_disconnect sid s
    end.
Proof. intros H. unfold on_event. rewrite H. reflexivity. Qed.

Lemma unlessOverlay_participant (s : Server.t) (sid : string) (user : User.t)
    (k : User.t -> Result) :
  Js.map_get (users s) sid = Some user -> User.isOverlay user = false ->
  unlessOverlay s sid k = k user.
Proof. intros H O. unfold unlessOverlay. rewrite H, O. reflexivity. Qed.

Lemma unlessOverlay_overlay (s : Server.t) (sid : string) (user : User.t)
    (k : User.t -> Result) :
  Js.map_get (users s) sid = Some user -> User.isOverlay user = true ->
  unlessOverlay s sid k = (s, []).
Proof. intros H O. unfold unlessOverlay. rewrite H, O. reflexivity. Qed.

(** Every handler that begins with the overlay guard leaves the state
    alone and sends nothing when an overlay session triggers it. *)
Lemma overlay_rejected (toLowerCase : string -> string) (sid : string)
    (env : Env.t) (ev : ClientEvent) (s : Server.t) (user : User.t) :
  Js.map_get (users s) sid = Some user -> User.isOverlay user = true ->
  guarded ev = true ->
  on_event toLowerCase sid env ev s = (s, []).
Proof.
  intros H O G. rewrite (on_event_connected _ _ _ _ _ _ H).
  destruct ev; try discriminate G;
    apply (unlessOverlay_overlay _ _ _ _ H O).
Qed.

End SocketFacts.

Module OverlayClaims.
Import Server Socket SocketSpec SocketFacts.

(** C3 (the code departs from it): the three tag handlers have no overlay
    guard.  In the example production the overlay session [ov] deletes the
    tag [safety], creates a tag and replaces the tags of a note; each time
    the shared state changes and the change is broadcast. *)
Theorem C3_overlay_tag_events_accepted :
  let s := Example.noted in
  let env := Example.env "x" in
  (exists u, Js.map_get (users s) "ov" = Some u /\ User.isOverlay u = true)
  /\ (let r := on_event Example.lower "ov" env (delete_tag "safety") s in
      GlobalState.tags (globalState (fst r)) = tl Example.tags
      /\ snd r = [io_emit (tags_update (tl Example.tags))])
  /\ (let r :=
        on_event Example.lower "ov" env (create_tag None "Wardrobe" None) s in
      GlobalState.tags (globalState (fst r))
      = Example.tags ++ [Tag.mk "tag-x" "Wardrobe" "#FF6B6B"]
      /\ snd r
         = [io_emit
              (tags_update
                 (Example.tags ++ [Tag.mk "tag-x" "Wardrobe" "#FF6B6B"]))])
  /\ (let r :=
        on_event Example.lower "ov" env (note_update_tags "id-n1" ["sound"]) s
      in
      List.map Note.tags (notes s) = [["lighting"]]
      /\ List.map Note.tags (notes (fst r)) = [["sound"]]
      /\ snd r = [io_emit (notes_update (notes (fst r)))]).
Proof.
  cbv zeta. split; [|repeat split].
  eexists. split; reflexivity.
Qed.

End OverlayClaims.

Module ChatFacts.
Import Server Socket SocketSpec SocketFacts.

Lemma slice_last_short {A} (n : nat) (l : list A) :
  (List.length l <= n)%nat -> Js.slice_last n l = l.
Proof.
  intros H. unfold Js.slice_last.
  replace (List.length l - n)%nat with 0%nat by lia. reflexivity.
Qed.

Lemma slice_last_length {A} (n : nat) (l : list A) :
  List.length (Js.slice_last n l) = Nat.min n (List.length l).
Proof. unfold Js.slice_last. rewrite length_skipn. lia. Qed.

(** Trimming early does not change what is kept in the end. *)
Lemma slice_last_app {A} (n : nat) (a b : list A) :
  Js.slice_last n (Js.slice_last n a ++ b) = Js.slice_last n (a ++ b).
Proof.
  destruct (Nat.le_gt_cases (List.length a) n) as [H|H].
  - rewrite (slice_last_short n a H). reflexivity.
  - unfold Js.slice_last.
    set (p := (List.length a - n)%nat).
    assert (La : List.length (skipn p a) = n)
      by (rewrite length_skipn; unfold p; lia).
    rewrite !length_app, La.
    replace (n + List.length b - n)%nat with (List.length b) by lia.
    replace (List.length a + List.length b - n)%nat
      with (List.length b + p)%nat by (unfold p; lia).
    rewrite <- (skipn_skipn (List.length b) p (a ++ b)).
    rewrite (skipn_app p a b).
    replace (p - List.length a)%nat with 0%nat by (unfold p; lia).
    reflexivity.
Qed.

(** One submission by a participant *)
Lemma chat_step (sid : string) (user : User.t) (env : Env.t) (text : string)
    (s : Server.t) :
  Js.map_get (users s) sid = Some user -> User.isOverlay user = false ->
  let s' := fst (on_chat_message sid env text s) in
  GlobalState.chatMessages (globalState s')
  = Js.slice_last 100
      (GlobalState.chatMessages (globalState s)
         ++ [chatOf (sid, user, env, text)])
  /\ users s' = users s.
Proof.
  intros H O. cbv zeta. unfold on_chat_message.
  rewrite (unlessOverlay_participant _ _ _ _ H O). cbn [fst chatOf].
  split; [|reflexivity].
  cbn [globalState set_globalState GlobalState.chatMessages
         GlobalState.set_chatMessages].
  destruct (Nat.ltb_spec 100
              (List.length
                 (GlobalState.chatMessages (globalState s)
                    ++ [ChatMessage.mk (Env.newId env) (User.name user)
                          (User.id user) text (Env.now env)]))) as [L|L].
  - reflexivity.
  - symmetry. apply slice_last_short, L.
Qed.

Lemma chat_run (toLowerCase : string -> string)
    (subs : list (string * User.t * Env.t * string)) : forall s,
  Forall (connectedParticipant s) subs ->
  (List.length (GlobalState.chatMessages (globalState s)) <= 100)%nat ->
  GlobalState.chatMessages
    (globalState (fst (run toLowerCase (List.map chatEvent subs) s)))
  = Js.slice_last 100
      (GlobalState.chatMessages (globalState s) ++ List.map chatOf subs).
Proof.
  induction subs as [|[[[sid user] env] text] rest IH]; intros s H L.
  - cbn [List.map run fst]. rewrite app_nil_r.
    symmetry. apply slice_last_short, L.
  - inversion H as [|? ? [G O] Hrest]; subst. cbn [fst snd] in G, O.
    cbn [List.map chatEvent run].
    rewrite (on_event_connected _ _ _ _ _ _ G).
    destruct (chat_step sid user env text s G O) as [E U].
    destruct (on_chat_message sid env text s) as [s1 o1].
    cbn [fst] in E, U.
    specialize (IH s1).
    destruct (run toLowerCase (List.map chatEvent rest) s1) as [s2 o2].
    cbn [fst] in *. rewrite IH.
    + rewrite E, slice_last_app, <- app_assoc. reflexivity.
    + unfold connectedParticipant in *. rewrite U. exact Hrest.
    + rewrite E, slice_last_length. lia.
Qed.

End ChatFacts.

Module ChatClaims.
Import Server Socket SocketSpec SocketFacts ChatFacts.

(** C7: the chat log holds at most 100 messages.  After any sequence of
    submissions by connected participants, starting from a log of at most
    100 messages, the log is the last 100 messages of the old log followed
    by the submissions, in order; starting from an empty log, more than
    100 submissions (105, say) leave exactly the last 100 of them. *)
Theorem C7_chat_log_last_100 (toLowerCase : string -> string)
    (s : Server.t) (subs : list (string * User.t * Env.t * string)) :
  Forall (connectedParticipant s) subs ->
  (List.length (GlobalState.chatMessages (globalState s)) <= 100)%nat ->
  let s' := fst (run toLowerCase (List.map chatEvent subs) s) in
  let log := GlobalState.chatMessages (globalState s') in
  log = Js.slice_last 100
          (GlobalState.chatMessages (globalState s) ++ List.map chatOf subs)
  /\ (List.length log <= 100)%nat
  /\ (GlobalState.chatMessages (globalState s) = [] ->
      (100 < List.length subs)%nat ->
      List.length log = 100%nat
      /\ log = skipn (List.length subs - 100) (List.map chatOf subs)).
Proof.
  intros H L s' log.
  assert (E : log = Js.slice_last 100
                      (GlobalState.chatMessages (globalState s)
                         ++ List.map chatOf subs))
    by (apply chat_run; assumption).
  split; [exact E|]. split.
  - rewrite E, slice_last_length. lia.
  - intros Hnil Hn. rewrite E, Hnil. cbn [app]. split.
    + rewrite slice_last_length, length_map. lia.
    + unfold Js.slice_last. rewrite length_map. reflexivity.
Qed.

Lemma C7_chat_log_last_100_witness :
  Forall (connectedParticipant Example.joined) (Example.chatter 105)
  /\ (List.length
        (GlobalState.chatMessages (globalState Example.joined)) <= 100)%nat
  /\ List.map ChatMessage.id
       (GlobalState.chatMessages
          (globalState
             (fst (run Example.lower
                     (List.map chatEvent (Example.chatter 105))
                     Example.joined))))
     = List.map ChatMessage.id
         (List.map chatOf (skipn 5 (Example.chatter 105))).
Proof.
  assert (H : Forall (connectedParticipant Example.joined)
                (Example.chatter 105))
    by (repeat constructor).
  assert (L : (List.length
                 (GlobalState.chatMessages (globalState Example.joined))
               <= 100)%nat) by (simpl; lia).
  split; [exact H|]. split; [exact L|].
  rewrite (proj1 (C7_chat_log_last_100 Example.lower Example.joined
                    (Example.chatter 105) H L)).
  vm_compute. reflexivity.
Defined.

End ChatClaims.

Module TimeModeClaims.
Import Server Socket SocketSpec SocketFacts.

(** C10: for a session that is no overlay, a time-mode-change carrying
    ['midi'] or ['realtime'] replaces the time mode by it and broadcasts
    it; any other value leaves the state as it is and sends nothing. *)
Theorem C10_time_mode_change (toLowerCase : string -> string)
    (s : Server.t) (sid : string) (env : Env.t) (user : User.t)
    (newMode : Js.value) :
  Js.map_get (users s) sid = Some user -> User.isOverlay user = false ->
  let r := on_event toLowerCase sid env (time_mode_change newMode) s in
  (forall mode, newMode = Js.Str mode -> mode = "midi" \/ mode = "realtime" ->
     fst r = set_globalState s (GlobalState.set_timeMode (globalState s) mode)
     /\ GlobalState.timeMode (globalState (fst r)) = mode
     /\ snd r = [io_emit (time_mode_update mode)])
  /\ (newMode <> Js.Str "midi" -> newMode <> Js.Str "realtime" ->
      r = (s, [])).
Proof.
  intros H O. cbv zeta. rewrite (on_event_connected _ _ _ _ _ _ H).
  unfold on_time_mode_change.
  rewrite (unlessOverlay_participant _ _ _ _ H O). split.
  - intros mode -> [-> | ->]; repeat split.
  - intros N1 N2. destruct newMode as [| |b|n|m]; try reflexivity.
    cbn [Js.strict_eq_string].
    destruct (String.eqb_spec m "midi") as [->|_]; [contradiction N1; reflexivity|].
    destruct (String.eqb_spec m "realtime") as [->|_];
      [contradiction N2; reflexivity | reflexivity].
Qed.

Lemma C10_time_mode_change_witness :
  Js.map_get (users Example.joined) "p1" = Some Example.p1
  /\ User.isOverlay Example.p1 = false
  /\ on_event Example.lower "p1" (Example.env "t")
       (time_mode_change (Js.Str "wallclock")) Example.joined
     = (Example.joined, [])
  /\ snd (on_event Example.lower "p1" (Example.env "t")
            (time_mode_change (Js.Str "realtime")) Example.joined)
     = [io_emit (time_mode_update "realtime")].
Proof.
  assert (H : Js.map_get (users Example.joined) "p1" = Some Example.p1)
    by reflexivity.
  assert (O : User.isOverlay Example.p1 = false) by reflexivity.
  split; [exact H|]. split; [exact O|].
  pose proof (C10_time_mode_change Example.lower Example.joined "p1"
                (Example.env "t") Example.p1) as T.
  split.
  - apply (proj2 (T (Js.Str "wallclock") H O)); discriminate.
  - apply (proj1 (T (Js.Str "realtime") H O) "realtime" eq_refl).
    right. reflexivity.
Defined.

End TimeModeClaims.

Module RenameFacts.
Import Server Socket SocketSpec SocketFacts.

(** [isNameTaken] decides [nameHeld]. *)
Lemma isNameTaken_spec (toLowerCase : string -> string) (s : Server.t)
    (user : User.t) (newName : string) :
  isNameTaken toLowerCase s user newName = true
  <-> nameHeld toLowerCase s user newName.
Proof.
  unfold isNameTaken, nameHeld. rewrite existsb_exists.
  split; intros [u [I C]]; exists u.
  - split; [exact I|].
    rewrite !andb_true_iff, !negb_true_iff in C.
    destruct C as [[C1 C2] C3].
    apply String.eqb_neq in C1. apply String.eqb_eq in C2. auto.
  - destruct C as [C1 [C2 C3]]. split; [exact I|].
    rewrite !andb_true_iff, !negb_true_iff.
    apply String.eqb_neq in C1. apply String.eqb_eq in C2. auto.
Qed.

Lemma Forall2_map_right {A B} (R : A -> B -> Prop) (f : A -> B) (l : list A) :
  (forall x, R x (f x)) -> Forall2 R l (List.map f l).
Proof. intros H. induction l; simpl; constructor; auto. Qed.

Lemma renameIn_spec (user : User.t) (newName : string) (n : Note.t) :
  noteRenamed (User.id user) newName n (renameIn user newName n).
Proof.
  unfold noteRenamed, renameIn.
  destruct (String.eqb_spec (Note.userId n) (User.id user)) as [E|E];
    cbn [Note.set_comments Note.set_user Note.id Note.userId Note.text
         Note.timecode Note.lxCue Note.timestamp Note.frameRate Note.tags
         Note.act Note.lastEdited Note.lastEditedBy Note.user Note.comments];
    repeat (split; [first [reflexivity | congruence]|]);
    (apply Forall2_map_right; intros c; unfold commentRenamed;
     destruct (String.eqb_spec (Comment.userId c) (User.id user)) as [F|F];
     cbn [Comment.set_user Comment.id Comment.userId Comment.text
          Comment.timestamp Comment.lastEdited Comment.lastEditedBy
          Comment.user];
     repeat (split; [first [reflexivity | congruence]|]);
     first [reflexivity | congruence]).
Qed.

End RenameFacts.

Module RenameClaims.
Import Server Socket SocketSpec SocketFacts RenameFacts.

(** C5: for a session that is no overlay, a name change to a name that
    another session that is no overlay holds, up to case, sends that
    session a name-change-error and leaves the whole state as it is;
    a name change to a free name succeeds: the session's name is the new
    one and it is no longer anonymous, the other sessions are as they were,
    and every note and comment whose [userId] is this session's id carries
    the new author name, the others keeping theirs. *)
Theorem C5_rename (toLowerCase : string -> string) (s : Server.t)
    (sid : string) (env : Env.t) (user : User.t) (newName : string) :
  Js.map_get (users s) sid = Some user -> User.isOverlay user = false ->
  let r := on_event toLowerCase sid env (user_name_change newName) s in
  (nameHeld toLowerCase s user newName ->
     r = (s, [socket_emit sid (name_change_error (takenMessage newName))]))
  /\ (~ nameHeld toLowerCase s user newName ->
      (exists u,
         Js.map_get (users (fst r)) sid = Some u
         /\ User.name u = newName /\ User.isAnonymous u = false
         /\ User.id u = User.id user /\ User.isOverlay u = false)
      /\ (forall sid', sid' <> sid ->
            Js.map_get (users (fst r)) sid' = Js.map_get (users s) sid')
      /\ Forall2 (noteRenamed (User.id user) newName) (notes s) (notes (fst r))
      /\ In (socket_emit sid
               (name_change_success (changedMessage (User.name user) newName)))
           (snd r)).
Proof.
  intros H O. cbv zeta. rewrite (on_event_connected _ _ _ _ _ _ H).
  unfold on_user_name_change.
  rewrite (unlessOverlay_participant _ _ _ _ H O).
  pose proof (isNameTaken_spec toLowerCase s user newName) as T.
  destruct (isNameTaken toLowerCase s user newName).
  - split; [reflexivity|]. intros N. exfalso. apply N, T. reflexivity.
  - split.
    + intros N. apply T in N. discriminate N.
    + intros _. cbn [fst snd]. split; [|split; [|split]].
      * exists (User.rename user newName).
        split; [|repeat split; assumption].
        unfold users, set_notes, set_user, set_globalState.
        cbn [globalState GlobalState.users GlobalState.set_notes
               GlobalState.set_anonymousUsers GlobalState.set_users].
        apply map_get_set_same.
      * intros sid' N.
        unfold users, set_notes, set_user, set_globalState.
        cbn [globalState GlobalState.users GlobalState.set_notes
               GlobalState.set_anonymousUsers GlobalState.set_users].
        apply map_get_set_other, N.
      * unfold notes, set_notes, set_user, set_globalState.
        cbn [globalState GlobalState.notes GlobalState.set_notes
               GlobalState.set_anonymousUsers GlobalState.set_users].
        apply Forall2_map_right, renameIn_spec.
      * right. right. left. reflexivity.
Qed.

Lemma C5_rename_witness :
  let p2 := User.mk "p2" "10.0.0.6" false None None
              "2025-03-01T19:30:00.000Z" false true in
  Js.map_get (users Example.noted) "p2" = Some p2
  /\ User.isOverlay p2 = false
  /\ nameHeld Example.lower Example.noted p2 "ALICE"
  /\ ~ nameHeld Example.lower Example.noted p2 "Bob"
  /\ fst (on_event Example.lower "p2" (Example.env "r2")
            (user_name_change "ALICE") Example.noted)
     = Example.noted
  /\ Forall2 (noteRenamed "p2" "Bob") (notes Example.noted)
       (notes (fst (on_event Example.lower "p2" (Example.env "r2")
                      (user_name_change "Bob") Example.noted))).
Proof.
  intros p2.
  assert (H : Js.map_get (users Example.noted) "p2" = Some p2) by reflexivity.
  assert (O : User.isOverlay p2 = false) by reflexivity.
  assert (T : nameHeld Example.lower Example.noted p2 "ALICE").
  { apply isNameTaken_spec. reflexivity. }
  assert (F : ~ nameHeld Example.lower Example.noted p2 "Bob").
  { intros N. apply isNameTaken_spec in N. discriminate N. }
  split; [exact H|]. split; [exact O|]. split; [exact T|]. split; [exact F|].
  split.
  - rewrite (proj1 (C5_rename Example.lower Example.noted "p2"
                      (Example.env "r2") p2 "ALICE" H O) T).
    reflexivity.
  - exact (proj1 (proj2 (proj2 (proj2 (C5_rename Example.lower Example.noted
             "p2" (Example.env "r2") p2 "Bob" H O) F)))).
Defined.

End RenameClaims.

Module NotFoundClaims.
Import Server Socket SocketSpec SocketFacts.

(** C8, as the code has it: an event that names a note the state does not
    hold (note-update-tags, comment-submit, note-edit-text, comment-edit,
    comment-delete), or a comment-edit whose comment is not in the note
    found, changes nothing and sends nothing: no broadcast, and no error
    to the session it came from either. *)
Theorem C8_dangling_reference_ignored (toLowerCase : string -> string)
    (s : Server.t) (sid : string) (env : Env.t) (user : User.t)
    (ev : ClientEvent) :
  Js.map_get (users s) sid = Some user -> dangling s ev ->
  on_event toLowerCase sid env ev s = (s, []).
Proof.
  intros H D. rewrite (on_event_connected _ _ _ _ _ _ H).
  destruct ev; cbn [dangling] in D; try contradiction.
  - unfold on_note_update_tags. rewrite D. reflexivity.
  - unfold on_comment_submit, unlessOverlay. rewrite H.
    destruct (User.isOverlay user); [reflexivity|]. rewrite D. reflexivity.
  - unfold on_note_edit_text, unlessOverlay. rewrite H.
    destruct (User.isOverlay user); [reflexivity|]. rewrite D. reflexivity.
  - unfold on_comment_edit, unlessOverlay. rewrite H.
    destruct (User.isOverlay user); [reflexivity|].
    destruct (find (hasId noteId) (notes s)); [rewrite D|]; reflexivity.
  - unfold on_comment_delete, unlessOverlay. rewrite H.
    destruct (User.isOverlay user); [reflexivity|]. rewrite D. reflexivity.
Qed.

Lemma C8_dangling_reference_ignored_witness :
  dangling Example.noted (comment_edit "id-n1" "id-k9" "agreed, twice")
  /\ on_event Example.lower "p2" (Example.env "e")
       (comment_edit "id-n1" "id-k9" "agreed, twice") Example.noted
     = (Example.noted, []).
Proof.
  assert (D : dangling Example.noted
                (comment_edit "id-n1" "id-k9" "agreed, twice"))
    by reflexivity.
  split; [exact D|].
  eapply C8_dangling_reference_ignored; [reflexivity | exact D].
Defined.

(** C8 as stated fails twice in the example production.  A comment on a
    note that does not exist is dropped without a word: nothing is sent to
    the session it came from.  And deleting a comment that is not in an
    existing note broadcasts the notes all the same. *)
Lemma C8_not_found_counterexample :
  let r1 := on_event Example.lower "p2" (Example.env "e")
              (comment_submit "id-n9" "hello") Example.noted in
  let r2 := on_event Example.lower "p2" (Example.env "e")
              (comment_delete "id-n1" "id-k9") Example.noted in
  find (hasId "id-n9") (notes Example.noted) = None
  /\ ~ (exists e, In e (snd r1) /\ In "p2" (recipients (fst r1) e))
  /\ (exists n,
        find (hasId "id-n1") (notes Example.noted) = Some n
        /\ find (commentHasId "id-k9") (Note.comments n) = None)
  /\ fst r2 = Example.noted
  /\ snd r2 = [io_emit (notes_update (notes Example.noted))].
Proof.
  cbv zeta. split; [vm_compute; reflexivity|]. split.
  - intros [e [I _]]. vm_compute in I. exact I.
  - split; [eexists; split; vm_compute; reflexivity|].
    split; vm_compute; reflexivity.
Qed.

End NotFoundClaims.

Module BroadcastFacts.
Import Server Socket SocketSpec SocketFacts.

(** The roster a handler sends holds no overlay session. *)
Lemma filteredUsers_no_overlay (s : Server.t) :
  Forall (fun u => User.isOverlay u = false) (filteredUsers s).
Proof.
  apply Forall_forall. intros u I. unfold filteredUsers in I.
  apply filter_In in I. destruct I as [_ N].
  apply negb_true_iff in N. exact N.
Qed.

(** [io.emit] reaches every connected session. *)
Lemma io_emit_reaches_all (s : Server.t) (ev : ServerEvent) (sid : string)
    (u : User.t) :
  Js.map_get (users s) sid = Some u -> In sid (recipients s (io_emit ev)).
Proof. intros H. cbn [recipients]. eapply map_get_keys, H. Qed.

Ltac one_emission :=
  intros R; cbn [payload rosterOrChat] in R;
  first
    [ discriminate R
    | split;
      [ eexists; reflexivity
      | intros us Eq; cbn [payload] in Eq;
        first [ discriminate Eq
              | injection Eq as <-; apply filteredUsers_no_overlay
              | injection Eq as <-; apply Forall_nil ] ] ].

Ltac all_emissions :=
  repeat match goal with
         | |- context [match ?x with _ => _ end] => destruct x
         end;
  cbn [snd]; repeat (apply Forall_cons; [one_emission|]); apply Forall_nil.

(** Whatever the event, what its handler sends about the roster or the
    chat is broadcast. *)
Lemma on_event_emissions (toLowerCase : string -> string) (sid : string)
    (env : Env.t) (ev : ClientEvent) (s : Server.t) :
  Forall rosterBroadcast (snd (on_event toLowerCase sid env ev s)).
Proof.
  unfold on_event.
  destruct (Js.map_get (users s) sid) as [user|] eqn:H; [|constructor].
  destruct ev;
    unfold on_note_update_tags, on_create_tag, on_delete_tag,
      on_typing_start, on_typing_stop, on_time_mode_change,
      on_lx_cue_change, on_note_submit, on_comment_submit,
      on_chat_message, on_note_edit_text, on_comment_edit,
      on_comment_delete, on_user_name_change, on_export_request,
      on_disconnect, unlessOverlay;
    rewrite ?H.
  all: all_emissions.
Qed.

End BroadcastFacts.

Module BroadcastClaims.
Import Server Socket SocketSpec SocketFacts BroadcastFacts.

(** The count of a user-left is the number of sessions that are no
    overlay. *)
Lemma user_left_count (toLowerCase : string -> string) (sid : string)
    (env : Env.t) (ev : ClientEvent) (s : Server.t) (e : Emit)
    (name : string) (n : nat) :
  let r := on_event toLowerCase sid env ev s in
  In e (snd r) -> payload e = user_left name n ->
  n = List.length (filteredUsers (fst r)).
Proof.
  cbv zeta. unfold on_event.
  destruct (Js.map_get (users s) sid) as [user|] eqn:H;
    [|intros I; contradiction I].
  destruct ev;
    unfold on_note_update_tags, on_create_tag, on_delete_tag,
      on_typing_start, on_typing_stop, on_time_mode_change,
      on_lx_cue_change, on_note_submit, on_comment_submit,
      on_chat_message, on_note_edit_text, on_comment_edit,
      on_comment_delete, on_user_name_change, on_export_request,
      on_disconnect, unlessOverlay;
    rewrite ?H.
  all: repeat match goal with
              | |- context [match ?x with _ => _ end] => destruct x
              end.
  all: cbn [fst snd]; intros I P.
  all: repeat (destruct I as [<-|I];
               [first [discriminate P
                      | cbn [payload] in P; injection P as _ <-;
                        reflexivity]|]).
  all: contradiction I.
Qed.

(** X27: overlay sessions are kept out of the roster that is sent.  Every
    users-update a handler sends after a client event lists only sessions
    that are no overlay, and the count of a user-left counts only those.
    An overlay session that connects is itself sent a users-update, with
    an empty list, and neither the chat history nor a user-joined goes out
    for it.  A participant that connects is sent the roster of the
    sessions that are no overlay and the chat history, and is announced
    with a count that leaves overlays out. *)
Theorem roster_payload_without_overlays (toLowerCase : string -> string)
    (sid : string) (env : Env.t) (s : Server.t) :
  (forall ev e,
     let r := on_event toLowerCase sid env ev s in
     In e (snd r) ->
     (forall us, payload e = users_update us ->
        Forall (fun u => User.isOverlay u = false) us)
     /\ (forall name n, payload e = user_left name n ->
           n = List.length (filteredUsers (fst r))))
  /\ (forall userIP,
        let r := on_connection sid userIP true env s in
        In (socket_emit sid (users_update [])) (snd r)
        /\ (forall e, In e (snd r) ->
              (forall us, payload e = users_update us -> us = [])
              /\ (forall ms, payload e <> chat_messages_update ms)
              /\ (forall name n, payload e <> user_joined name n)))
  /\ (forall userIP,
        let r := on_connection sid userIP false env s in
        In (socket_emit sid (users_update (filteredUsers (fst r)))) (snd r)
        /\ In (socket_emit sid
                 (chat_messages_update
                    (GlobalState.chatMessages (globalState s))))
              (snd r)
        /\ In (io_emit
                 (user_joined userIP (List.length (filteredUsers (fst r)))))
              (snd r)
        /\ (forall e, In e (snd r) ->
              (forall us, payload e = users_update us ->
                 Forall (fun u => User.isOverlay u = false) us)
              /\ (forall name n, payload e = user_joined name n ->
                    n = List.length (filteredUsers (fst r))))).
Proof.
  split; [|split].
  - intros ev e r I. split.
    + intros us P.
      pose proof (on_event_emissions toLowerCase sid env ev s) as F.
      rewrite Forall_forall in F.
      assert (R : rosterOrChat (payload e) = true) by (rewrite P; reflexivity).
      destruct (F e I R) as [_ U]. apply U, P.
    + intros name n P. eapply user_left_count; [exact I | exact P].
  - intros userIP r. subst r. unfold on_connection.
    cbn [negb fst snd app]. split.
    + do 7 right. left. reflexivity.
    + intros e I.
      repeat (destruct I as [<-|I];
              [split; [|split]; intros; cbn [payload] in *;
               try discriminate; congruence|]).
      contradiction I.
  - intros userIP r. subst r. unfold on_connection.
    cbn [negb fst snd app]. split; [|split; [|split]].
    + do 8 right. left. reflexivity.
    + do 10 right. left. reflexivity.
    + do 9 right. left. reflexivity.
    + intros e I.
      repeat (destruct I as [<-|I];
              [split;
               [ intros us P; cbn [payload] in P;
                 first [discriminate P
                       | injection P as <-; apply filteredUsers_no_overlay]
               | intros name n P; cbn [payload] in P;
                 first [discriminate P
                       | injection P as _ <-; reflexivity] ]|]).
      contradiction I.
Qed.

Lemma roster_payload_without_overlays_witness :
  let r := on_event Example.lower "p1" (Example.env "c")
             (typing_start None None) Example.noted in
  In (io_emit (users_update (filteredUsers (fst r)))) (snd r)
  /\ List.map User.id (filteredUsers (fst r)) = ["p1"; "p2"]
  /\ Forall (fun u => User.isOverlay u = false) (filteredUsers (fst r)).
Proof.
  intros r.
  assert (I : In (io_emit (users_update (filteredUsers (fst r)))) (snd r))
    by (vm_compute; left; reflexivity).
  split; [exact I|]. split; [vm_compute; reflexivity|].
  exact (proj1 (proj1 (roster_payload_without_overlays Example.lower "p1"
           (Example.env "c") Example.noted) _ _ I) _ eq_refl).
Defined.

(** C6: the broadcasts hand roster and chat events to overlay sessions.
    In the example production the overlay session [ov] is connected next
    to two participants.  It is among the recipients of the
    chat-message-added and the chat-messages-update that a participant's
    chat message triggers, of the users-update that a participant's typing
    triggers, and of the user-left and the users-update that a
    participant's disconnection triggers.  The connection handler does
    keep them from it: an overlay session that connects is sent no chat
    history and no roster but the empty one. *)
Lemma C6_overlay_receives_broadcasts :
  let chat := on_event Example.lower "p1" (Example.env "c")
                (chat_message "places please") Example.noted in
  let typing := on_event Example.lower "p1" (Example.env "c")
                  (typing_start None None) Example.noted in
  let leave := on_event Example.lower "p2" (Example.env "c") disconnect
                 Example.noted in
  let connect := on_connection "ov2" "10.0.0.10" true (Example.env "c")
                   Example.noted in
  (exists u, Js.map_get (users Example.noted) "ov" = Some u
             /\ User.isOverlay u = true)
  /\ (exists e m, In e (snd chat) /\ payload e = chat_message_added m
                  /\ In "ov" (recipients (fst chat) e))
  /\ (exists e ms, In e (snd chat) /\ payload e = chat_messages_update ms
                   /\ In "ov" (recipients (fst chat) e))
  /\ (exists e us, In e (snd typing) /\ payload e = users_update us
                   /\ In "ov" (recipients (fst typing) e))
  /\ (exists e name n, In e (snd leave) /\ payload e = user_left name n
                       /\ In "ov" (recipients (fst leave) e))
  /\ (exists e us, In e (snd leave) /\ payload e = users_update us
                   /\ In "ov" (recipients (fst leave) e))
  /\ (forall e, In e (snd connect) ->
        (forall ms, payload e <> chat_messages_update ms)
        /\ (forall us, payload e = users_update us -> us = [])).
Proof.
  cbv zeta. split; [|split; [|split; [|split; [|split; [|split]]]]].
  - eexists. split; vm_compute; reflexivity.
  - eexists. eexists. split; [vm_compute; left; reflexivity|].
    split; [reflexivity|]. vm_compute. right. right. left. reflexivity.
  - eexists. eexists. split; [vm_compute; right; left; reflexivity|].
    split; [reflexivity|]. vm_compute. right. right. left. reflexivity.
  - eexists. eexists. split; [vm_compute; left; reflexivity|].
    split; [reflexivity|]. vm_compute. right. right. left. reflexivity.
  - eexists. eexists. eexists. split; [vm_compute; left; reflexivity|].
    split; [reflexivity|]. vm_compute. right. left. reflexivity.
  - eexists. eexists. split; [vm_compute; right; left; reflexivity|].
    split; [reflexivity|]. vm_compute. right. left. reflexivity.
  - intros e I. vm_compute in I.
    repeat (destruct I as [<-|I];
            [split; intros; cbn [payload] in *;
             try discriminate; congruence|]).
    contradiction I.
Qed.

End BroadcastClaims.

(** ** The callback of the anonymity timer *)

Module TimerFacts.
Import Server Socket SocketSpec SocketFacts.

Lemma map_get_delete_same {V} (m : Js.map V) (k : string) :
  NoDup (Js.map_keys m) -> Js.map_get (Js.map_delete m k) k = None.
Proof.
  induction m as [|[k' v'] rest IH]; intros N; simpl.
  - reflexivity.
  - inversion N as [|? ? Hk Hrest]; subst.
    destruct (String.eqb_spec k' k) as [->|Ne]; simpl.
    + destruct (Js.map_get rest k) eqn:G; [|reflexivity].
      exfalso. apply Hk. eapply map_get_keys, G.
    + destruct (String.eqb_spec k' k); [contradiction|]. apply IH, Hrest.
Qed.

(** When the callback runs for a session that is still connected and
    anonymous, the session is disconnected; for a session that has taken a
    name, or has left, the callback sends nothing and touches no user. *)
Lemma anonymity_timeout_effect (sid : string) (s : Server.t) :
  NoDup (Js.map_keys (users s)) ->
  let r := on_anonymity_timeout sid s in
  (forall user,
     Js.map_get (users s) sid = Some user ->
     User.isAnonymous user = true -> User.isOverlay user = false ->
     Js.map_get (users (fst r)) sid = None
     /\ In (io_emit (users_update (filteredUsers (fst r)))) (snd r))
  /\ (forall user,
        Js.map_get (users s) sid = Some user ->
        User.isAnonymous user = false ->
        users (fst r) = users s /\ snd r = [])
  /\ (Js.map_get (users s) sid = None ->
      users (fst r) = users s /\ snd r = []).
Proof.
  intros N. cbv zeta. unfold on_anonymity_timeout, on_disconnect.
  split; [|split].
  - intros user G A O. rewrite G, A, O. cbn [andb negb fst snd]. split.
    + unfold users in *.
      cbn [globalState set_globalState GlobalState.users
             GlobalState.set_anonymousUsers GlobalState.set_users].
      apply map_get_delete_same, N.
    + right. left. reflexivity.
  - intros user G A. rewrite G, A. cbn [andb fst snd]. split; reflexivity.
  - intros G. rewrite G. cbn [fst snd]. split; reflexivity.
Qed.

End TimerFacts.

(** * Further properties *)

(** ** MIDI input and the quarter-frame buffer *)

Module MtcMore.
Import Server Mtc MtcSpec MtcFacts MtcRun MoreSpec.

Lemma sar_byte (d : Z) : 0 <= d <= 255 -> Js.sar d 4 = d / 16.
Proof.
  intros H. unfold Js.sar. change (Z.land 4 31) with 4.
  rewrite to_int32_small by lia.
  rewrite Z.shiftr_div_pow2 by lia. reflexivity.
Qed.

Lemma band_byte (d : Z) : 0 <= d <= 255 -> Js.band d 15 = d mod 16.
Proof.
  intros H. unfold Js.band.
  rewrite (to_int32_small d) by lia. rewrite (to_int32_small 15) by lia.
  change 15 with (Z.ones 4). rewrite Z.land_ones by lia. reflexivity.
Qed.

(** X1: a raw message [0xF1, d] with a byte [d] is the fragment of type
    [d / 16] and value [d mod 16], the same as the structured message with
    these numbers; for a MIDI data byte (at most 127) the type is at most
    7 and the value a nibble.  A raw message with another status byte is
    ignored. *)
Theorem raw_bytes_are_fragments (s : Server.t) (name : string)
    (d status : Z) (rest : list Z) :
  midiInput s = true -> 0 <= d <= 255 ->
  let raw := Midi.mk name None None (Some (241 :: d :: rest)) in
  let structured := Midi.mk "mtc" (Some (d / 16)) (Some (d mod 16)) None in
  Midi.on_message raw s = parseEasyMIDIMTC (d / 16) (d mod 16) s
  /\ Midi.on_message structured s = Midi.on_message raw s
  /\ (d <= 127 -> nibbleFragment (d / 16, d mod 16))
  /\ (status <> 241 ->
      Midi.on_message (Midi.mk name None None (Some (status :: d :: rest))) s
      = (s, [])).
Proof.
  intros M H. cbv zeta. unfold Midi.on_message. rewrite M.
  cbn [Midi.type Midi.value Midi._type Midi.bytes].
  change (241 =? 241) with true. cbv iota.
  rewrite (sar_byte d H), (band_byte d H).
  split; [reflexivity|]. split; [reflexivity|]. split.
  - intros L. unfold nibbleFragment. cbn [fst snd].
    pose proof (Z.mod_pos_bound d 16). 
    assert (0 <= d / 16) by (apply Z.div_pos; lia).
    assert (d / 16 < 8) by (apply Z.div_lt_upper_bound; lia).
    lia.
  - intros N. destruct (Z.eqb_spec status 241); [contradiction | reflexivity].
Qed.

Lemma raw_bytes_are_fragments_witness :
  let s := Server.initial [] true true in
  midiInput s = true /\ 0 <= 37 <= 255
  /\ Midi.on_message (Midi.mk "sysex" None None (Some [241; 37])) s
     = parseEasyMIDIMTC 2 5 s.
Proof.
  intros s.
  assert (M : midiInput s = true) by reflexivity.
  assert (H : 0 <= 37 <= 255) by lia.
  split; [exact M|]. split; [exact H|].
  exact (proj1 (raw_bytes_are_fragments s "sysex" 37 0 [] M H)).
Defined.

(** The decoder reads slots 0 to 7 and no other. *)
Lemma newTimecode_ext8 (q1 q2 : Js.array Z) :
  (forall k, (k < 8)%nat -> Js.get q1 k = Js.get q2 k) ->
  newTimecode q1 = newTimecode q2.
Proof.
  intros H. unfold newTimecode, slot.
  rewrite (H 0%nat), (H 1%nat), (H 2%nat), (H 3%nat), (H 4%nat), (H 5%nat),
    (H 6%nat), (H 7%nat) by lia.
  reflexivity.
Qed.

(** X2: a fragment whose type is not one of 0 to 7 is counted, but it
    announces nothing, leaves [globalState] and the last full timecode
    alone, and changes no slot the decoder reads. *)
Theorem stray_fragment_harmless (ty v : Z) (s : Server.t) :
  ty < 0 \/ 7 < ty ->
  let s' := fst (parseEasyMIDIMTC ty v s) in
  snd (parseEasyMIDIMTC ty v s) = []
  /\ globalState s' = globalState s
  /\ lastFullTimecode s' = lastFullTimecode s
  /\ (forall k, (k < 8)%nat ->
        Js.get (quarterFrameData s') k = Js.get (quarterFrameData s) k)
  /\ newTimecode (quarterFrameData s') = newTimecode (quarterFrameData s)
  /\ mtcMessagesReceived s' = mtcMessagesReceived s + 1.
Proof.
  intros H. cbv zeta.
  assert (N : ty <> 7) by lia.
  destruct (fragment_not7 ty v s N) as [E1 [E2 E3]].
  assert (G : forall k, (k < 8)%nat ->
                Js.get (quarterFrameData (fst (parseEasyMIDIMTC ty v s))) k
                = Js.get (quarterFrameData s) k).
  { intros k Hk. rewrite fragment_data, get_set.
    destruct (Z.eqb_spec ty (Z.of_nat k)); [lia | reflexivity]. }
  repeat split; try assumption.
  - apply newTimecode_ext8, G.
  - unfold parseEasyMIDIMTC. destruct (Z.eqb_spec ty 7); [contradiction|].
    reflexivity.
Qed.

Lemma stray_fragment_harmless_witness :
  (12 < 0 \/ 7 < 12)
  /\ snd (parseEasyMIDIMTC 12 9 (Server.initial [] true true)) = []
  /\ List.length
       (quarterFrameData
          (fst (parseEasyMIDIMTC 12 9 (Server.initial [] true true))))
     = 13%nat.
Proof.
  assert (H : 12 < 0 \/ 7 < 12) by (right; lia).
  split; [exact H|]. split.
  - exact (proj1 (stray_fragment_harmless 12 9 (Server.initial [] true true) H)).
  - reflexivity.
Defined.

Lemma nibbles_inLayout (q : Js.array Z) :
  nibbles q -> inLayout (newTimecode q).
Proof.
  intros Hq. rewrite (newTimecode_nibbles q Hq).
  assert (H0 := nibbles_slot q 0 Hq). assert (H1 := nibbles_slot q 1 Hq).
  assert (H2 := nibbles_slot q 2 Hq). assert (H3 := nibbles_slot q 3 Hq).
  assert (H4 := nibbles_slot q 4 Hq). assert (H5 := nibbles_slot q 5 Hq).
  assert (H6 := nibbles_slot q 6 Hq). assert (H7 := nibbles_slot q 7 Hq).
  destruct (byte_of_nibbles (slot q 1) (slot q 0)) as [_ Bf]; try lia.
  destruct (byte_of_nibbles (slot q 3) (slot q 2)) as [_ Bs]; try lia.
  destruct (byte_of_nibbles (slot q 5) (slot q 4)) as [_ Bm]; try lia.
  destruct (byte_of_nibbles (slot q 7) (slot q 6)) as [_ Bh]; try lia.
  unfold inLayout, recombine.
  cbn [Timecode.hours Timecode.minutes Timecode.seconds Timecode.frames
       Timecode.frameRate Timecode.source].
  set (c := Z.lor (Z.shiftl (slot q 7) 4) (slot q 6)) in *.
  repeat split; try lia.
  - apply Z.land_nonneg. right. lia.
  - change 31 with (Z.ones 5). rewrite Z.land_ones by lia.
    change (2 ^ 5) with 32. change (Z.ones 5) with 31.
    pose proof (Z.mod_pos_bound c 32). lia.
  - change 3 with (Z.ones 2). rewrite Z.land_ones by lia.
    change (2 ^ 2) with 4.
    pose proof (Z.mod_pos_bound (Z.shiftr c 5) 4) as B.
    assert (Hc : Z.shiftr c 5 mod 4 = 0 \/ Z.shiftr c 5 mod 4 = 1
                 \/ Z.shiftr c 5 mod 4 = 2 \/ Z.shiftr c 5 mod 4 = 3) by lia.
    destruct Hc as [-> | [-> | [-> | ->]]]; simpl; auto.
Qed.

(** X3: while only nibbles are written into slots 0 to 7, every timecode
    the decoder announces, and the one it holds, has hours in 0..31,
    minutes, seconds and frames in 0..255 (they are not checked against
    59 or the frame rate), one of the four frame rates and source [midi]
    (the timecode it holds can also still be the initial one). *)
Theorem announced_timecodes_in_layout (tags : list Tag.t) (midi osc : bool)
    (frs : list (Z * Z)) :
  Forall nibbleFragment frs ->
  let r := run frs (Server.initial tags midi osc) in
  (forall tc, In (io_emit (timecode_update tc)) (snd r) -> inLayout tc)
  /\ (GlobalState.timecode (globalState (fst r))
      = Timecode.mk 0 0 0 0 (30 # 1)%Q "midi"
      \/ inLayout (GlobalState.timecode (globalState (fst r)))).
Proof.
  intros H. cbv zeta.
  assert (G : forall frs s, Forall nibbleFragment frs ->
                nibbles (quarterFrameData s) ->
                (forall tc, In (io_emit (timecode_update tc)) (snd (run frs s))
                            -> inLayout tc)
                /\ (GlobalState.timecode (globalState (fst (run frs s)))
                    = GlobalState.timecode (globalState s)
                    \/ inLayout
                         (GlobalState.timecode (globalState (fst (run frs s)))))).
  { clear. induction frs as [|[ty v] rest IH]; intros s Hf Hq.
    - split; [intros tc []|]. left. reflexivity.
    - inversion Hf as [|? ? [_ Hv] Hrest]; subst. cbn [snd] in Hv.
      rewrite run_cons. cbn [fst snd].
      set (s1 := fst (parseEasyMIDIMTC ty v s)).
      assert (Hq1 : nibbles (quarterFrameData s1)).
      { unfold s1. rewrite fragment_data. apply nibbles_set; assumption. }
      destruct (IH s1 Hrest Hq1) as [IH1 IH2].
      assert (S1 : (snd (parseEasyMIDIMTC ty v s) = []
                    /\ globalState s1 = globalState s)
                   \/ (snd (parseEasyMIDIMTC ty v s)
                       = [io_emit (timecode_update
                                     (newTimecode (quarterFrameData s1)))]
                       /\ GlobalState.timecode (globalState s1)
                          = newTimecode (quarterFrameData s1))).
      { destruct (Z.eq_dec ty 7) as [->|N].
        - destruct (fragment_7 v s) as [Hc Hn]. fold s1 in Hc, Hn.
          destruct (changed (lastFullTimecode s)
                      (newTimecode (quarterFrameData s1))).
          + right. destruct (Hc eq_refl) as [E1 [E2 _]]. split; assumption.
          + left. destruct (Hn eq_refl) as [E1 [E2 _]]. split; assumption.
        - left. destruct (fragment_not7 ty v s N) as [E1 [_ E3]].
          split; assumption. }
      split.
      + intros tc I. apply in_app_or in I. destruct I as [I|I].
        * destruct S1 as [[E _]|[E _]]; rewrite E in I.
          -- contradiction I.
          -- destruct I as [I|[]]. injection I as <-.
             apply nibbles_inLayout, Hq1.
        * apply IH1, I.
      + destruct IH2 as [IH2|IH2]; [|right; exact IH2].
        rewrite IH2. destruct S1 as [[_ E]|[_ E]].
        * left. rewrite E. reflexivity.
        * right. rewrite E. apply nibbles_inLayout, Hq1. }
  destruct (G frs (Server.initial tags midi osc) H nibbles_initial) as [G1 G2].
  split; [exact G1|]. destruct G2 as [G2|G2]; [left|right]; exact G2.
Qed.

Lemma announced_timecodes_in_layout_witness :
  Forall nibbleFragment [(5, 15); (4, 15); (7, 0)]
  /\ inLayout (Timecode.mk 0 255 0 0 (24 # 1)%Q "midi").
Proof.
  assert (H : Forall nibbleFragment [(5, 15); (4, 15); (7, 0)])
    by (repeat constructor; simpl; lia).
  split; [exact H|].
  apply (proj1 (announced_timecodes_in_layout [] true true _ H)).
  vm_compute. left. reflexivity.
Defined.

End MtcMore.

Module MtcOrder.
Import Server Mtc MtcSpec MtcFacts MtcRun MoreSpec.

(** When no type occurs twice, a slot holds the value of the one fragment
    that names it. *)
Lemma written_In (frs : list (Z * Z)) (k : nat) :
  NoDup (List.map fst frs) ->
  forall v, written frs k = Some v <-> In (Z.of_nat k, v) frs.
Proof.
  induction frs as [|[ty v0] rest IH]; intros N v.
  - split; [discriminate | intros []].
  - inversion N as [|? ? Hty Hrest]; subst. cbn [written].
    pose proof (IH Hrest) as F. clear IH.
    destruct (written rest k) as [w|]; split.
    + intros E. injection E as ->. right. apply F. reflexivity.
    + intros [E|I].
      * injection E as -> ->. exfalso. apply Hty.
        change (Z.of_nat k) with (fst (Z.of_nat k, w)).
        apply in_map. apply F. reflexivity.
      * apply F in I. exact I.
    + destruct (Z.eqb_spec ty (Z.of_nat k)) as [->|]; [|discriminate].
      intros E. injection E as ->. left. reflexivity.
    + intros [E|I].
      * injection E as -> ->. rewrite Z.eqb_refl. reflexivity.
      * apply F in I. discriminate I.
Qed.

Lemma written_perm (frs frs' : list (Z * Z)) (k : nat) :
  Permutation frs frs' -> NoDup (List.map fst frs) ->
  written frs k = written frs' k.
Proof.
  intros P N.
  assert (N' : NoDup (List.map fst frs'))
    by (eapply Permutation_NoDup; [apply Permutation_map, P | exact N]).
  destruct (written frs k) as [v|] eqn:W.
  - apply (written_In frs k N) in W.
    symmetry. apply (written_In frs' k N').
    eapply Permutation_in; [exact P | exact W].
  - destruct (written frs' k) as [v'|] eqn:W'; [|reflexivity].
    apply (written_In frs' k N') in W'.
    apply (Permutation_in _ (Permutation_sym P)) in W'.
    apply (written_In frs k N) in W'. congruence.
Qed.

(** X4: the buffer does not depend on the order of arrival.  Two streams
    that hold the same fragments, no type twice, leave the same value in
    every slot, whatever the buffer held before, and so the same timecode
    for the decoder to recombine. *)
Theorem arrival_order_irrelevant (frs frs' : list (Z * Z)) (s : Server.t) :
  Permutation frs frs' -> NoDup (List.map fst frs) ->
  (forall k,
     Js.get (quarterFrameData (fst (run frs s))) k
     = Js.get (quarterFrameData (fst (run frs' s))) k)
  /\ newTimecode (quarterFrameData (fst (run frs s)))
     = newTimecode (quarterFrameData (fst (run frs' s))).
Proof.
  intros P N.
  assert (G : forall k,
            Js.get (quarterFrameData (fst (run frs s))) k
            = Js.get (quarterFrameData (fst (run frs' s))) k).
  { intros k. rewrite !run_data, (written_perm frs frs' k P N). reflexivity. }
  split; [exact G | apply newTimecode_ext, G].
Qed.

Lemma arrival_order_irrelevant_witness :
  Permutation [(0, 5); (1, 2); (7, 1)] [(7, 1); (1, 2); (0, 5)]
  /\ NoDup (List.map fst [(0, 5); (1, 2); (7, 1)])
  /\ newTimecode
       (quarterFrameData
          (fst (run [(7, 1); (1, 2); (0, 5)] (Server.initial [] true true))))
     = Timecode.mk 16 0 0 37 (24 # 1)%Q "midi".
Proof.
  assert (P : Permutation [(0, 5); (1, 2); (7, 1)] [(7, 1); (1, 2); (0, 5)]).
  { apply perm_trans with [(0, 5); (7, 1); (1, 2)].
    - apply perm_skip, perm_swap.
    - apply perm_trans with [(7, 1); (0, 5); (1, 2)].
      + apply perm_swap.
      + apply perm_skip, perm_swap. }
  assert (N : NoDup (List.map fst [(0, 5); (1, 2); (7, 1)])).
  { simpl. repeat constructor; simpl; intuition discriminate. }
  split; [exact P|]. split; [exact N|].
  rewrite <- (proj2 (arrival_order_irrelevant _ _
                       (Server.initial [] true true) P N)).
  reflexivity.
Defined.

(** X5: the decoder announces at most one timecode per fragment of type
    7, and nothing but timecodes. *)
Theorem one_announcement_per_cycle (frs : list (Z * Z)) : forall s,
  (List.length (snd (run frs s)) <= completions frs)%nat
  /\ (forall e, In e (snd (run frs s)) ->
        exists tc, e = io_emit (timecode_update tc)).
Proof.
  induction frs as [|[ty v] rest IH]; intros s.
  - split; [apply Nat.le_refl | intros e []].
  - rewrite run_cons. cbn [snd]. unfold completions in *. cbn [filter fst].
    destruct (IH (fst (parseEasyMIDIMTC ty v s))) as [L A].
    destruct (Z.eqb_spec ty 7) as [->|N].
    + destruct (fragment_7 v s) as [Hc Hn].
      destruct (changed (lastFullTimecode s)
                  (newTimecode
                     (quarterFrameData (fst (parseEasyMIDIMTC 7 v s))))).
      * destruct (Hc eq_refl) as [E _]. rewrite E. cbn [app List.length].
        split; [lia|]. intros e [<-|I]; [eexists; reflexivity | apply A, I].
      * destruct (Hn eq_refl) as [E _]. rewrite E. cbn [app List.length].
        split; [lia | exact A].
    + destruct (fragment_not7 ty v s N) as [E _]. rewrite E. cbn [app].
      split; assumption.
Qed.

End MtcOrder.

(** ** OSC input *)

Module OscMore.
Import Server Osc OscFacts MoreSpec.

Lemma cueMatchFrom_no_slash (value : string) : forall inRun,
  ~ In "/"%char (chars value) -> cueMatchFrom inRun value = None.
Proof.
  induction value as [|c rest IH]; intros inRun N; simpl.
  - reflexivity.
  - destruct (Ascii.eqb_spec c "/"%char) as [->|Ne].
    + exfalso. apply N. left. reflexivity.
    + apply IH. intros I. apply N. right. exact I.
Qed.

(** X6: what the OSC handler ignores.  A pending-cue message, a message
    to an address that is neither the active-cue address nor under
    [/bts/], an active-cue message without a value, and an active-cue
    message whose value holds no slash all leave the state as it is and
    send nothing. *)
Theorem osc_ignored (s : Server.t) (address : string)
    (value : option string) :
  (address = "/eos/out/pending/cue/text" ->
   message address value s = (s, []))
  /\ (address <> "/eos/out/active/cue/text" ->
      Js.startsWith address "/bts/" = false ->
      message address value s = (s, []))
  /\ (address = "/eos/out/active/cue/text" ->
      (value = None \/ value = Some ""
       \/ exists v, value = Some v /\ ~ In "/"%char (chars v)) ->
      message address value s = (s, [])).
Proof.
  split; [|split].
  - intros ->. unfold message. cbn.
    destruct (Js.truthy value); reflexivity.
  - intros N P. unfold message.
    destruct (String.eqb_spec address "/eos/out/active/cue/text");
      [contradiction|].
    cbn [andb]. rewrite P.
    destruct ((address =? "/eos/out/pending/cue/text")%string
              && Js.truthy value)%bool; reflexivity.
  - intros -> H. unfold message.
    change ("/eos/out/active/cue/text" =? "/eos/out/active/cue/text")%string
      with true.
    change ("/eos/out/active/cue/text" =? "/eos/out/pending/cue/text")%string
      with false.
    change (Js.startsWith "/eos/out/active/cue/text" "/bts/") with false.
    cbn [andb].
    destruct H as [-> | [-> | [v [-> N]]]]; try reflexivity.
    destruct (Js.truthy (Some v)); [|reflexivity].
    unfold cueMatch. rewrite (cueMatchFrom_no_slash v false N). reflexivity.
Qed.

Lemma osc_ignored_witness :
  "/eos/out/ping" <> "/eos/out/active/cue/text"
  /\ Js.startsWith "/eos/out/ping" "/bts/" = false
  /\ message "/eos/out/ping" (Some "1/2") (Server.initial [] true true)
     = (Server.initial [] true true, [])
  /\ message "/eos/out/active/cue/text" (Some "Blackout")
       (Server.initial [] true true)
     = (Server.initial [] true true, []).
Proof.
  assert (N : "/eos/out/ping" <> "/eos/out/active/cue/text") by discriminate.
  assert (P : Js.startsWith "/eos/out/ping" "/bts/" = false) by reflexivity.
  split; [exact N|]. split; [exact P|]. split.
  - exact (proj1 (proj2 (osc_ignored (Server.initial [] true true)
                           "/eos/out/ping" (Some "1/2"))) N P).
  - apply (proj2 (proj2 (osc_ignored (Server.initial [] true true)
                           "/eos/out/active/cue/text" (Some "Blackout")))
             eq_refl).
    right. right. exists "Blackout". split; [reflexivity|].
    simpl. intuition discriminate.
Defined.

Lemma restOfLine_chars (s : string) (c : ascii) :
  In c (chars (restOfLine s)) -> Js.isLineTerminator c = false.
Proof.
  induction s as [|d rest IH]; simpl.
  - intros [].
  - destruct (Js.isLineTerminator d) eqn:L; simpl.
    + intros [].
    + intros [<-|I]; [exact L | apply IH, I].
Qed.

Lemma trimStart_chars (s : string) (c : ascii) :
  In c (chars (Js.trimStart s)) -> In c (chars s).
Proof.
  induction s as [|d rest IH]; simpl.
  - intros [].
  - destruct (Js.isWhiteSpace d); simpl.
    + intros I. right. apply IH, I.
    + intros I. exact I.
Qed.

Lemma trimEnd_chars (s : string) (c : ascii) :
  In c (chars (Js.trimEnd s)) -> In c (chars s).
Proof.
  induction s as [|d rest IH]; simpl.
  - intros [].
  - destruct (Js.isWhiteSpace d && (Js.trimEnd rest =? "")%string)%bool; simpl.
    + intros [].
    + intros [<-|I]; [left; reflexivity | right; apply IH, I].
Qed.

Lemma trimStart_first (s : string) (c : ascii) :
  firstChar (Js.trimStart s) = Some c -> Js.isWhiteSpace c = false.
Proof.
  induction s as [|d rest IH]; simpl.
  - discriminate.
  - destruct (Js.isWhiteSpace d) eqn:W.
    + exact IH.
    + simpl. intros E. injection E as <-. exact W.
Qed.

Lemma trimEnd_first (s : string) (c : ascii) :
  firstChar (Js.trimEnd s) = Some c -> firstChar s = Some c.
Proof.
  destruct s as [|d rest]; simpl.
  - discriminate.
  - destruct (Js.isWhiteSpace d && (Js.trimEnd rest =? "")%string)%bool; simpl.
    + discriminate.
    + intros E. exact E.
Qed.

Lemma trimEnd_last (s : string) (c : ascii) :
  lastChar (Js.trimEnd s) = Some c -> Js.isWhiteSpace c = false.
Proof.
  induction s as [|d rest IH]; simpl.
  - discriminate.
  - destruct (String.eqb_spec (Js.trimEnd rest) "") as [E|E].
    + rewrite E in *. rewrite andb_true_r.
      destruct (Js.isWhiteSpace d) eqn:W; simpl.
      * discriminate.
      * intros F. injection F as <-. exact W.
    + rewrite andb_false_r. simpl.
      destruct (Js.trimEnd rest) as [|e rest'] eqn:T; [contradiction E; reflexivity|].
      exact IH.
Qed.

Lemma trim_clean (g1 : string) :
  (forall c, In c (chars g1) -> Js.isLineTerminator c = false) ->
  cleanLabel (Js.trim g1).
Proof.
  intros H. unfold cleanLabel, Js.trim. split; [|split].
  - intros c I. apply H. apply trimStart_chars, trimEnd_chars, I.
  - intros c F. apply trimEnd_first in F. eapply trimStart_first, F.
  - intros c L. eapply trimEnd_last, L.
Qed.

Lemma cueMatchFrom_chars (value : string) : forall inRun g1 c,
  cueMatchFrom inRun value = Some g1 ->
  In c (chars g1) -> Js.isLineTerminator c = false.
Proof.
  induction value as [|d rest IH]; intros inRun g1 c H I; simpl in H.
  - discriminate.
  - destruct (d =? "/")%char.
    + destruct inRun.
      * destruct rest as [|e rest'] eqn:R; [discriminate|].
        destruct (Js.isLineTerminator e) eqn:L.
        -- eapply IH; [exact H | exact I].
        -- injection H as <-.
           apply (restOfLine_chars (String e rest')). simpl. exact I.
      * eapply IH; [exact H | exact I].
    + eapply IH; [exact H | exact I].
Qed.

(** X7: every cue label the OSC handler announces is the new current
    cue and is clean: it holds no line terminator and neither starts nor
    ends with white space.  An active-cue message sends nothing else. *)
Theorem cue_label_clean (s : Server.t) (value : option string) (e : Emit) :
  let r := message "/eos/out/active/cue/text" value s in
  In e (snd r) ->
  exists cue,
    e = io_emit (lx_cue_update cue)
    /\ GlobalState.currentLxCue (globalState (fst r)) = cue
    /\ cleanLabel cue.
Proof.
  cbv zeta. unfold message.
  change ("/eos/out/active/cue/text" =? "/eos/out/active/cue/text")%string
    with true.
  change ("/eos/out/active/cue/text" =? "/eos/out/pending/cue/text")%string
    with false.
  change (Js.startsWith "/eos/out/active/cue/text" "/bts/") with false.
  cbn [andb].
  destruct value as [v|]; [|intros []].
  destruct (Js.truthy (Some v)); [|intros []].
  destruct (cueMatch v) as [g1|] eqn:M; [|intros []].
  destruct (Js.truthy (Some g1)); [|intros []].
  cbn [fst snd]. intros [<-|[]].
  exists (Js.trim g1). split; [reflexivity|]. split; [reflexivity|].
  apply trim_clean. intros c I. eapply cueMatchFrom_chars; [exact M | exact I].
Qed.

Lemma cue_label_clean_witness :
  let r := message "/eos/out/active/cue/text" (Some "1/ 201 Start 1.0  ")
             (Server.initial [] true true) in
  In (io_emit (lx_cue_update "201 Start 1.0")) (snd r)
  /\ cleanLabel "201 Start 1.0".
Proof.
  intros r.
  assert (I : In (io_emit (lx_cue_update "201 Start 1.0")) (snd r))
    by (left; reflexivity).
  split; [exact I|].
  destruct (cue_label_clean (Server.initial [] true true)
              (Some "1/ 201 Start 1.0  ") _ I) as [cue [E [_ C]]].
  injection E as <-. exact C.
Defined.

(** X8: act messages are announced on change only.  For an address under
    [/bts/], a value that is not empty and differs from the current act
    becomes the current act and is broadcast; an empty value or the
    current act changes nothing and sends nothing, so the same message
    again is silent.  The current cue is never touched. *)
Theorem act_change_detection (s : Server.t) (address act : string) :
  Js.startsWith address "/bts/" = true ->
  let r := message address (Some act) s in
  (act <> "" -> act <> GlobalState.currentAct (globalState s) ->
   GlobalState.currentAct (globalState (fst r)) = act
   /\ snd r = [io_emit (act_update act)])
  /\ (act = "" \/ act = GlobalState.currentAct (globalState s) ->
      r = (s, []))
  /\ snd (message address (Some act) (fst r)) = []
  /\ GlobalState.currentLxCue (globalState (fst r))
     = GlobalState.currentLxCue (globalState s).
Proof.
  intros P. cbv zeta.
  split; [|split; [|split]].
  - intros N1 N2. rewrite (act_message s address act P).
    assert (T : Js.truthy (Some act) = true).
    { simpl. destruct (String.eqb_spec act ""); [contradiction | reflexivity]. }
    rewrite T.
    destruct (String.eqb_spec act (GlobalState.currentAct (globalState s)));
      [contradiction|].
    split; reflexivity.
  - intros H. rewrite (act_message s address act P).
    destruct H as [->| E].
    + reflexivity.
    + rewrite E at 2. rewrite String.eqb_refl, andb_false_r. reflexivity.
  - apply act_announced_once, P.
  - rewrite (act_message s address act P).
    destruct (Js.truthy (Some act)
              && negb (act =? GlobalState.currentAct (globalState s))%string)%bool;
      reflexivity.
Qed.

Lemma act_change_detection_witness :
  let s := Server.initial [] true true in
  Js.startsWith "/bts/act" "/bts/" = true
  /\ "Act 1" <> "" /\ "Act 1" <> GlobalState.currentAct (globalState s)
  /\ snd (message "/bts/act" (Some "Act 1") s) = [io_emit (act_update "Act 1")]
  /\ message "/bts/act" (Some "Preshow") s = (s, []).
Proof.
  intros s.
  assert (P : Js.startsWith "/bts/act" "/bts/" = true) by reflexivity.
  assert (N1 : "Act 1" <> "") by discriminate.
  assert (N2 : "Act 1" <> GlobalState.currentAct (globalState s))
    by discriminate.
  split; [exact P|]. split; [exact N1|]. split; [exact N2|]. split.
  - exact (proj2 (proj1 (act_change_detection s "/bts/act" "Act 1" P) N1 N2)).
  - apply (proj1 (proj2 (act_change_detection s "/bts/act" "Preshow" P))).
    right. reflexivity.
Defined.

End OscMore.

(** ** The session registry *)

Module RegistryFacts.
Import Server Socket SocketSpec SocketFacts MoreSpec.

Lemma map_get_In {V} (m : Js.map V) (k : string) (v : V) :
  Js.map_get m k = Some v -> In (k, v) m.
Proof.
  induction m as [|[k' v'] rest IH]; simpl; [discriminate|].
  destruct (String.eqb_spec k' k) as [->|N].
  - intros E. injection E as ->. left. reflexivity.
  - intros H. right. apply IH, H.
Qed.

Lemma map_set_keys_In {V} (m : Js.map V) (k k' : string) (v : V) :
  In k' (Js.map_keys (Js.map_set m k v)) -> In k' (Js.map_keys m) \/ k' = k.
Proof.
  induction m as [|[k0 v0] rest IH]; simpl.
  - intros [<-|[]]. right. reflexivity.
  - destruct (String.eqb_spec k0 k) as [->|N]; simpl.
    + intros [<-|I]; [left; left; reflexivity | left; right; exact I].
    + intros [<-|I]; [left; left; reflexivity|].
      destruct (IH I) as [J|J]; [left; right; exact J | right; exact J].
Qed.

Lemma map_set_NoDup {V} (m : Js.map V) (k : string) (v : V) :
  NoDup (Js.map_keys m) -> NoDup (Js.map_keys (Js.map_set m k v)).
Proof.
  induction m as [|[k0 v0] rest IH]; simpl; intros N.
  - constructor; [intros [] | constructor].
  - inversion N as [|? ? Hk Hrest]; subst.
    destruct (String.eqb_spec k0 k) as [->|Ne]; simpl.
    + constructor; assumption.
    + constructor; [|apply IH, Hrest].
      intros I. destruct (map_set_keys_In rest k k0 v I) as [J|J];
        [apply Hk, J | contradiction].
Qed.

Lemma map_set_Forall {V} (P : string * V -> Prop) (m : Js.map V)
    (k : string) (v : V) :
  P (k, v) -> Forall P m -> Forall P (Js.map_set m k v).
Proof.
  intros Hp. induction m as [|[k0 v0] rest IH]; simpl; intros F.
  - constructor; [exact Hp | constructor].
  - inversion F as [|? ? H0 Hrest]; subst.
    destruct (k0 =? k)%string; constructor; auto.
Qed.

Lemma map_delete_keys_In {V} (m : Js.map V) (k k' : string) :
  In k' (Js.map_keys (Js.map_delete m k)) -> In k' (Js.map_keys m).
Proof.
  induction m as [|[k0 v0] rest IH]; simpl; [intros []|].
  destruct (k0 =? k)%string; simpl.
  - intros I. right. exact I.
  - intros [<-|I]; [left; reflexivity | right; apply IH, I].
Qed.

Lemma map_delete_NoDup {V} (m : Js.map V) (k : string) :
  NoDup (Js.map_keys m) -> NoDup (Js.map_keys (Js.map_delete m k)).
Proof.
  induction m as [|[k0 v0] rest IH]; simpl; intros N; [constructor|].
  inversion N as [|? ? Hk Hrest]; subst.
  destruct (k0 =? k)%string; simpl; [exact Hrest|].
  constructor; [|apply IH, Hrest].
  intros I. apply Hk. eapply map_delete_keys_In, I.
Qed.

Lemma map_delete_Forall {V} (P : string * V -> Prop) (m : Js.map V)
    (k : string) :
  Forall P m -> Forall P (Js.map_delete m k).
Proof.
  induction m as [|[k0 v0] rest IH]; simpl; intros F; [constructor|].
  inversion F as [|? ? H0 Hrest]; subst.
  destruct (k0 =? k)%string; [exact Hrest | constructor; auto].
Qed.

Lemma map_get_delete_other {V} (m : Js.map V) (k k' : string) :
  k' <> k -> Js.map_get (Js.map_delete m k) k' = Js.map_get m k'.
Proof.
  intros N. induction m as [|[k0 v0] rest IH]; simpl; [reflexivity|].
  destruct (String.eqb_spec k0 k) as [->|N0]; simpl.
  - destruct (String.eqb_spec k k'); [congruence | reflexivity].
  - destruct (String.eqb_spec k0 k'); [reflexivity | exact IH].
Qed.

Lemma map_get_delete_gone {V} (m : Js.map V) (k : string) :
  NoDup (Js.map_keys m) -> Js.map_get (Js.map_delete m k) k = None.
Proof.
  induction m as [|[k' v'] rest IH]; intros N; simpl.
  - reflexivity.
  - inversion N as [|? ? Hk Hrest]; subst.
    destruct (String.eqb_spec k' k) as [->|Ne]; simpl.
    + destruct (Js.map_get rest k) eqn:G; [|reflexivity].
      exfalso. apply Hk. eapply map_get_keys, G.
    + destruct (String.eqb_spec k' k); [contradiction|]. apply IH, Hrest.
Qed.

Ltac open_handlers :=
  unfold on_note_update_tags, on_create_tag, on_delete_tag,
    on_typing_start, on_typing_stop, on_time_mode_change,
    on_lx_cue_change, on_note_submit, on_comment_submit,
    on_chat_message, on_note_edit_text, on_comment_edit,
    on_comment_delete, on_user_name_change, on_export_request,
    on_disconnect, unlessOverlay.

Ltac split_cases :=
  repeat match goal with
         | |- context [match ?x with _ => _ end] => destruct x eqn:?
         end.

(** What the handler of a client event does to the registry *)
Lemma on_event_users (toLowerCase : string -> string) (sid : string)
    (env : Env.t) (ev : ClientEvent) (s : Server.t) :
  usersChange sid s (fst (on_event toLowerCase sid env ev s)).
Proof.
  unfold on_event.
  destruct (Js.map_get (users s) sid) as [user|] eqn:H;
    [|left; reflexivity].
  destruct ev; open_handlers; rewrite ?H.
  all: try (destruct (User.isOverlay user) eqn:O; [left; reflexivity|]).
  all: split_cases; cbn [fst].
  all: try (left; reflexivity).
  all: try (right; right; reflexivity).
  all: right; left; exists user; eexists;
    (split; [exact H|]); (split; [reflexivity|]);
    repeat split; assumption.
Qed.

End RegistryFacts.

Module LoopFacts.
Import Server Socket SocketSpec SocketFacts MoreSpec RegistryFacts.

(** A fragment writes, of [globalState], the timecode at most. *)
Lemma fragment_globalState (ty v : Z) (s : Server.t) :
  globalState (fst (Mtc.parseEasyMIDIMTC ty v s)) = globalState s
  \/ exists n,
       globalState (fst (Mtc.parseEasyMIDIMTC ty v s))
       = GlobalState.set_timecode (globalState s) n.
Proof.
  unfold Mtc.parseEasyMIDIMTC, Mtc.parseCompleteMTC.
  cbn [quarterFrameData lastFullTimecode globalState].
  split_cases; cbn [fst globalState]; [right; eexists; reflexivity | left..];
    reflexivity.
Qed.

Lemma midi_globalState (msg : Midi.Message) (s : Server.t) :
  globalState (fst (Midi.on_message msg s)) = globalState s
  \/ exists n,
       globalState (fst (Midi.on_message msg s))
       = GlobalState.set_timecode (globalState s) n.
Proof.
  unfold Midi.on_message.
  split_cases; try (left; reflexivity); apply fragment_globalState.
Qed.

(** An OSC message writes, of the whole state, the current cue or the
    current act at most. *)
Lemma osc_state (address : string) (value : option string) (s : Server.t) :
  fst (Osc.message address value s) = s
  \/ (exists cue,
        fst (Osc.message address value s)
        = set_globalState s (GlobalState.set_currentLxCue (globalState s) cue))
  \/ (exists act,
        fst (Osc.message address value s)
        = set_globalState s (GlobalState.set_currentAct (globalState s) act)).
Proof.
  unfold Osc.message.
  split_cases; cbn [fst];
    first [ left; reflexivity
          | right; left; eexists; reflexivity
          | right; right; eexists; reflexivity ].
Qed.

Lemma disconnect_users (sid : string) (s : Server.t) :
  users (fst (on_disconnect sid s)) = users s
  \/ users (fst (on_disconnect sid s)) = Js.map_delete (users s) sid.
Proof.
  unfold on_disconnect. split_cases; cbn [fst];
    first [left; reflexivity | right; reflexivity].
Qed.

Lemma timeout_users (sid : string) (s : Server.t) :
  users (fst (on_anonymity_timeout sid s)) = users s
  \/ users (fst (on_anonymity_timeout sid s)) = Js.map_delete (users s) sid.
Proof.
  unfold on_anonymity_timeout.
  destruct (Js.map_get (users s) sid) as [user|]; [|left; reflexivity].
  destruct (User.isAnonymous user && negb (User.isOverlay user))%bool;
    [|left; reflexivity].
  pose proof (disconnect_users sid s) as D.
  destruct (on_disconnect sid s) as [s1 out]. cbn [fst] in *. exact D.
Qed.

Lemma connection_users (sid userIP : string) (isOverlay : bool)
    (env : Env.t) (s : Server.t) :
  users (fst (on_connection sid userIP isOverlay env s))
  = Js.map_set (users s) sid
      (User.mk sid
         (if isOverlay then String.append "Overlay-" userIP else userIP)
         false None None (Env.now env) isOverlay (negb isOverlay)).
Proof. unfold on_connection. destruct isOverlay; reflexivity. Qed.

(** What an input does to the registry *)
Lemma step_users (toLowerCase : string -> string) (i : Loop.Input)
    (s : Server.t) :
  let s' := fst (Loop.step toLowerCase i s) in
  match i with
  | Loop.connection sid userIP isOverlay env =>
      users s'
      = Js.map_set (users s) sid
          (User.mk sid
             (if isOverlay then String.append "Overlay-" userIP else userIP)
             false None None (Env.now env) isOverlay (negb isOverlay))
  | Loop.socket_event sid _ _ => usersChange sid s s'
  | Loop.anonymity_timeout sid =>
      users s' = users s \/ users s' = Js.map_delete (users s) sid
  | _ => users s' = users s
  end.
Proof.
  destruct i as [msg|address value|sid userIP isOverlay env|sid env ev|sid];
    cbn [Loop.step].
  - unfold users. destruct (midi_globalState msg s) as [E|[n E]];
      rewrite E; reflexivity.
  - destruct (oscServer s); [|reflexivity].
    unfold users.
    destruct (osc_state address value s) as [E|[[c E]|[a E]]];
      rewrite E; reflexivity.
  - apply connection_users.
  - apply on_event_users.
  - apply timeout_users.
Qed.

Lemma usersChange_registry (sid : string) (s s' : Server.t) :
  registryOk s -> usersChange sid s s' -> registryOk s'.
Proof.
  intros [N F] [E|[[u [u' [G [E [I [O [O' J]]]]]]]|E]]; unfold registryOk;
    rewrite E.
  - split; assumption.
  - split; [apply map_set_NoDup, N | apply map_set_Forall; [|exact F]].
    rewrite Forall_forall in F.
    destruct (F (sid, u) (map_get_In _ _ _ G)) as [Hid _]. cbn [fst snd] in *.
    split; cbn [fst snd]; [congruence|]. rewrite O'. discriminate.
  - split; [apply map_delete_NoDup, N | apply map_delete_Forall, F].
Qed.

Lemma step_registry (toLowerCase : string -> string) (i : Loop.Input)
    (s : Server.t) :
  registryOk s -> registryOk (fst (Loop.step toLowerCase i s)).
Proof.
  intros R. pose proof (step_users toLowerCase i s) as U. cbv zeta in U.
  destruct i as [msg|address value|sid userIP isOverlay env|sid env ev|sid].
  - eapply (usersChange_registry ""); [exact R | left; exact U].
  - eapply (usersChange_registry ""); [exact R | left; exact U].
  - destruct R as [N F]. unfold registryOk. rewrite U. split.
    + apply map_set_NoDup, N.
    + apply map_set_Forall; [|exact F]. split; cbn [fst snd User.id];
        [reflexivity|].
      cbn [User.isOverlay User.isAnonymous User.isTyping User.currentTimecode
           User.currentLxCue].
      intros ->. repeat split.
  - eapply usersChange_registry; [exact R | exact U].
  - eapply (usersChange_registry sid); [exact R|].
    destruct U as [U|U]; [left | right; right]; exact U.
Qed.

Lemma loop_run_cons (toLowerCase : string -> string) (i : Loop.Input)
    (rest : list Loop.Input) (s : Server.t) :
  Loop.run toLowerCase (i :: rest) s
  = (fst (Loop.run toLowerCase rest (fst (Loop.step toLowerCase i s))),
     snd (Loop.step toLowerCase i s)
       ++ snd (Loop.run toLowerCase rest (fst (Loop.step toLowerCase i s)))).
Proof.
  cbn [Loop.run]. destruct (Loop.step toLowerCase i s) as [s1 o1].
  cbn [fst snd]. destruct (Loop.run toLowerCase rest s1); reflexivity.
Qed.

(** An invariant of the steps holds after every run. *)
Lemma run_invariant (toLowerCase : string -> string) (P : Server.t -> Prop) :
  (forall i s, P s -> P (fst (Loop.step toLowerCase i s))) ->
  forall inputs s, P s -> P (fst (Loop.run toLowerCase inputs s)).
Proof.
  intros Hstep. induction inputs as [|i rest IH]; intros s Hs.
  - exact Hs.
  - rewrite loop_run_cons. cbn [fst]. apply IH, Hstep, Hs.
Qed.

End LoopFacts.

Module RegistryMore.
Import Server Socket SocketSpec SocketFacts MoreSpec RegistryFacts LoopFacts.

(** X9: whatever the process receives after its start, the registry
    stays sound: no socket id is registered twice, every session is stored
    under its own id, and an overlay session is never anonymous, never
    typing and never has a draft timecode or cue. *)
Theorem registry_always_sound (toLowerCase : string -> string)
    (tags : list Tag.t) (midi osc : bool) (inputs : list Loop.Input) :
  registryOk
    (fst (Loop.run toLowerCase inputs (Server.initial tags midi osc))).
Proof.
  apply (run_invariant toLowerCase registryOk).
  - intros i s. apply step_registry.
  - split; constructor.
Qed.

(** X10: in a sound registry a client event touches no session but its
    sender.  The record of every other socket is as it was; the sender's
    own record is removed (on disconnect) or keeps its id, its role and
    its join time; and unless the event is a name change, it keeps its
    name and its anonymity. *)
Theorem session_isolation (toLowerCase : string -> string) (sid : string)
    (env : Env.t) (ev : ClientEvent) (s : Server.t) :
  registryOk s ->
  let s' := fst (on_event toLowerCase sid env ev s) in
  (forall sid', sid' <> sid ->
     Js.map_get (users s') sid' = Js.map_get (users s) sid')
  /\ (ev = disconnect -> Js.map_get (users s') sid = None)
  /\ (forall u u',
        Js.map_get (users s) sid = Some u ->
        Js.map_get (users s') sid = Some u' ->
        User.id u' = User.id u
        /\ User.isOverlay u' = User.isOverlay u
        /\ User.joinedAt u' = User.joinedAt u
        /\ ((forall newName, ev <> user_name_change newName) ->
            User.name u' = User.name u
            /\ User.isAnonymous u' = User.isAnonymous u)).
Proof.
  intros [N _]. cbv zeta. split; [|split].
  - intros sid' Ne.
    destruct (on_event_users toLowerCase sid env ev s)
      as [E|[[u [u' [G [E _]]]]|E]]; rewrite E.
    + reflexivity.
    + apply map_get_set_other, Ne.
    + apply map_get_delete_other, Ne.
  - intros ->. unfold on_event, on_disconnect.
    destruct (Js.map_get (users s) sid) as [u|] eqn:G; [|exact G].
    split_cases; cbn [fst]; apply map_get_delete_gone, N.
  - intros u u' G. unfold on_event. rewrite G.
    destruct ev; open_handlers; rewrite ?G.
    all: try (destruct (User.isOverlay u) eqn:O;
              [cbn [fst]; rewrite G; intros E; injection E as <-;
               repeat split; reflexivity|]).
    all: split_cases; cbn [fst].
    all: unfold users, set_notes, set_user, set_globalState;
      cbn [globalState GlobalState.users GlobalState.set_notes
           GlobalState.set_anonymousUsers GlobalState.set_users
           GlobalState.set_tags GlobalState.set_timeMode
           GlobalState.set_currentLxCue GlobalState.set_chatMessages];
      fold (users s).
    all: try (rewrite map_get_set_same).
    all: try (rewrite G).
    all: try (rewrite (map_get_delete_gone (users s) sid N); discriminate).
    all: intros E; injection E as <-;
      cbn [User.set_typing User.rename User.id User.isOverlay
           User.joinedAt User.name User.isAnonymous];
      repeat split; try reflexivity; try congruence.
    all: exfalso; eapply H; reflexivity.
Qed.

Lemma session_isolation_witness :
  registryOk Example.noted
  /\ Js.map_get
       (users (fst (on_event Example.lower "p1" (Example.env "t")
                      (typing_start None None) Example.noted))) "p2"
     = Js.map_get (users Example.noted) "p2".
Proof.
  assert (R : registryOk Example.noted).
  { split.
    - vm_compute. repeat constructor; simpl; intuition discriminate.
    - repeat constructor; simpl; try reflexivity; discriminate. }
  split; [exact R|].
  apply (proj1 (session_isolation Example.lower "p1" (Example.env "t")
                  (typing_start None None) Example.noted R)).
  discriminate.
Defined.

End RegistryMore.

Module TimerMore.
Import Server Socket SocketSpec SocketFacts MoreSpec RegistryFacts LoopFacts.

(** A client event other than a disconnect keeps its sender registered,
    with the same id, role and join time, and, unless it is a name
    change, the same name and anonymity. *)
Lemma on_event_stays (toLowerCase : string -> string) (sid : string)
    (env : Env.t) (ev : ClientEvent) (s : Server.t) (u : User.t) :
  ev <> disconnect ->
  Js.map_get (users s) sid = Some u ->
  exists u',
    Js.map_get (users (fst (on_event toLowerCase sid env ev s))) sid = Some u'
    /\ User.id u' = User.id u
    /\ User.isOverlay u' = User.isOverlay u
    /\ ((forall newName, ev <> user_name_change newName) ->
        User.name u' = User.name u
        /\ User.isAnonymous u' = User.isAnonymous u)
    /\ (User.isAnonymous u = false -> User.isAnonymous u' = false).
Proof.
  intros D G. unfold on_event. rewrite G.
  destruct ev; try contradiction; open_handlers; rewrite ?G.
  all: try (destruct (User.isOverlay u) eqn:O;
            [cbn [fst]; exists u; rewrite G, ?O; repeat split; auto|]).
  all: split_cases; cbn [fst].
  all: unfold users, set_notes, set_user, set_globalState;
    cbn [globalState GlobalState.users GlobalState.set_notes
         GlobalState.set_anonymousUsers GlobalState.set_users
         GlobalState.set_tags GlobalState.set_timeMode
         GlobalState.set_currentLxCue GlobalState.set_chatMessages];
    fold (users s).
  all: try (rewrite map_get_set_same).
  all: try (rewrite G).
  all: eexists; (split; [reflexivity|]);
    cbn [User.set_typing User.rename User.id User.isOverlay
         User.joinedAt User.name User.isAnonymous];
    repeat split; try reflexivity; try congruence; auto.
  all: exfalso; eapply H; reflexivity.
Qed.

Lemma step_keeps_anonymous (toLowerCase : string -> string) (sid : string)
    (name : string) (i : Loop.Input) (s : Server.t) :
  leavesAnonymous sid i ->
  (exists u, Js.map_get (users s) sid = Some u
             /\ User.isAnonymous u = true /\ User.isOverlay u = false
             /\ User.name u = name) ->
  exists u, Js.map_get (users (fst (Loop.step toLowerCase i s))) sid = Some u
            /\ User.isAnonymous u = true /\ User.isOverlay u = false
            /\ User.name u = name.
Proof.
  intros L [u [G [A [O Nm]]]].
  pose proof (step_users toLowerCase i s) as U. cbv zeta in U.
  destruct i as [msg|address value|sid' userIP isOverlay env|sid' env ev|sid'];
    cbn [leavesAnonymous] in L.
  - exists u. rewrite U. auto.
  - exists u. rewrite U. auto.
  - exists u. rewrite U, map_get_set_other by congruence. auto.
  - destruct (String.eqb_spec sid' sid) as [->|Ne].
    + destruct L as [L|L]; [contradiction L; reflexivity|].
      assert (D : ev <> disconnect) by (intros ->; exact L).
      destruct (on_event_stays toLowerCase sid env ev s u D G)
        as [u' [G' [_ [O' [K _]]]]].
      assert (R : forall newName, ev <> user_name_change newName)
        by (intros newName ->; exact L).
      destruct (K R) as [K1 K2].
      exists u'. cbn [Loop.step]. rewrite G'. repeat split; congruence.
    + exists u. cbn [Loop.step] in *.
      destruct U as [E|[[u0 [u' [_ [E _]]]]|E]]; unfold users in *; rewrite E.
      * auto.
      * rewrite map_get_set_other by congruence. auto.
      * rewrite map_get_delete_other by congruence. auto.
  - exists u. cbn [Loop.step] in *. destruct U as [E|E]; rewrite E.
    + auto.
    + rewrite map_get_delete_other by congruence. auto.
Qed.

(** X11: an anonymous participant stays anonymous, under its first name,
    whatever the process receives, as long as its socket neither changes
    its name nor disconnects; when the callback of its timer then runs,
    the session is gone from the registry and its departure is broadcast
    under that name. *)
Theorem anonymous_until_rename (toLowerCase : string -> string)
    (sid : string) (u : User.t) (inputs : list Loop.Input) (s : Server.t) :
  registryOk s ->
  Js.map_get (users s) sid = Some u ->
  User.isAnonymous u = true -> User.isOverlay u = false ->
  Forall (leavesAnonymous sid) inputs ->
  let s1 := fst (Loop.run toLowerCase inputs s) in
  let r := on_anonymity_timeout sid s1 in
  (exists u1, Js.map_get (users s1) sid = Some u1
              /\ User.isAnonymous u1 = true /\ User.name u1 = User.name u)
  /\ Js.map_get (users (fst r)) sid = None
  /\ snd r = [io_emit (user_left (User.name u)
                         (List.length (filteredUsers (fst r))));
              io_emit (users_update (filteredUsers (fst r)))].
Proof.
  intros R G A O F. cbv zeta.
  assert (K : registryOk (fst (Loop.run toLowerCase inputs s))
              /\ exists u1,
                   Js.map_get (users (fst (Loop.run toLowerCase inputs s))) sid
                   = Some u1
                   /\ User.isAnonymous u1 = true /\ User.isOverlay u1 = false
                   /\ User.name u1 = User.name u).
  { assert (K0 : exists u1, Js.map_get (users s) sid = Some u1
                   /\ User.isAnonymous u1 = true /\ User.isOverlay u1 = false
                   /\ User.name u1 = User.name u)
      by (exists u; auto).
    clear G A O. revert s R K0.
    induction inputs as [|i rest IH]; intros s R K0.
    - split; assumption.
    - inversion F as [|? ? Li Lrest]; subst. rewrite loop_run_cons. cbn [fst].
      apply IH; [exact Lrest | apply step_registry, R|].
      apply step_keeps_anonymous; assumption. }
  destruct K as [[N _] [u1 [G1 [A1 [O1 N1]]]]].
  split; [exists u1; auto|].
  unfold on_anonymity_timeout, on_disconnect. rewrite G1, A1, O1.
  cbn [andb negb fst snd]. split.
  - unfold users in *.
    cbn [globalState set_globalState GlobalState.users
           GlobalState.set_anonymousUsers GlobalState.set_users].
    apply map_get_delete_gone, N.
  - rewrite N1. reflexivity.
Qed.

Lemma anonymous_until_rename_witness :
  let inputs :=
    [Loop.socket_event "p2" (Example.env "n2")
       (note_submit (NoteData.mk "Late cue" None None None None));
     Loop.osc_message "/bts/act" (Some "Act 1");
     Loop.socket_event "p1" (Example.env "q") disconnect] in
  let p2 := User.mk "p2" "10.0.0.6" false None None
              "2025-03-01T19:30:00.000Z" false true in
  registryOk Example.noted
  /\ Js.map_get (users Example.noted) "p2" = Some p2
  /\ Forall (leavesAnonymous "p2") inputs
  /\ Js.map_get
       (users (fst (on_anonymity_timeout "p2"
                      (fst (Loop.run Example.lower inputs Example.noted)))))
       "p2"
     = None.
Proof.
  intros inputs p2.
  assert (R : registryOk Example.noted).
  { split.
    - vm_compute. repeat constructor; simpl; intuition discriminate.
    - repeat constructor; simpl; try reflexivity; discriminate. }
  assert (G : Js.map_get (users Example.noted) "p2" = Some p2) by reflexivity.
  assert (F : Forall (leavesAnonymous "p2") inputs).
  { apply Forall_cons; [right; exact I|].
    apply Forall_cons; [exact I|].
    apply Forall_cons; [left; discriminate|]. apply Forall_nil. }
  split; [exact R|]. split; [exact G|]. split; [exact F|].
  exact (proj1 (proj2 (anonymous_until_rename Example.lower "p2" p2 inputs
                         Example.noted R G eq_refl eq_refl F))).
Defined.

Lemma step_keeps_named (toLowerCase : string -> string) (sid : string)
    (i : Loop.Input) (s : Server.t) :
  notConnecting sid i -> registryOk s ->
  (forall u, Js.map_get (users s) sid = Some u -> User.isAnonymous u = false) ->
  forall u, Js.map_get (users (fst (Loop.step toLowerCase i s))) sid = Some u ->
            User.isAnonymous u = false.
Proof.
  intros C [N _] Q u1.
  pose proof (step_users toLowerCase i s) as U. cbv zeta in U.
  destruct i as [msg|address value|sid' userIP isOverlay env|sid' env ev|sid'];
    cbn [notConnecting] in C.
  - rewrite U. apply Q.
  - rewrite U. apply Q.
  - rewrite U, map_get_set_other by congruence. apply Q.
  - cbn [Loop.step] in *. destruct (String.eqb_spec sid' sid) as [->|Ne].
    + destruct (Js.map_get (users s) sid) as [u|] eqn:G.
      * destruct ev;
          try (match goal with
               | |- context [on_event _ _ _ ?e _] =>
                   assert (D : e <> disconnect) by discriminate;
                   destruct (on_event_stays toLowerCase sid env e s u D G)
                     as [u' [G' [_ [_ [_ K]]]]];
                   rewrite G'; intros E; injection E as <-;
                   apply K, Q; reflexivity
               end).
        unfold on_event, on_disconnect. rewrite G. split_cases; cbn [fst];
          unfold users in *;
          cbn [globalState set_globalState GlobalState.users
                 GlobalState.set_users];
          rewrite (map_get_delete_gone _ sid N); discriminate.
      * unfold on_event. rewrite G. cbn [fst]. rewrite G. discriminate.
    + destruct U as [E|[[u0 [u' [_ [E _]]]]|E]]; unfold users in *; rewrite E.
      * apply Q.
      * rewrite map_get_set_other by congruence. apply Q.
      * rewrite map_get_delete_other by congruence. apply Q.
  - cbn [Loop.step] in *. destruct U as [E|E]; rewrite E; [apply Q|].
    destruct (String.eqb_spec sid' sid) as [->|Ne].
    + rewrite (map_get_delete_gone _ sid N). discriminate.
    + rewrite map_get_delete_other by congruence. apply Q.
Qed.

(** X12: a session that is no longer anonymous never becomes anonymous
    again, whatever the process receives (its id not being connected
    anew), and the callback of its timer then leaves the registry as it
    is and sends nothing; the same holds once the session has left. *)
Theorem named_never_expires (toLowerCase : string -> string)
    (sid : string) (inputs : list Loop.Input) (s : Server.t) :
  registryOk s ->
  (forall u, Js.map_get (users s) sid = Some u -> User.isAnonymous u = false) ->
  Forall (notConnecting sid) inputs ->
  let s1 := fst (Loop.run toLowerCase inputs s) in
  let r := on_anonymity_timeout sid s1 in
  (forall u, Js.map_get (users s1) sid = Some u -> User.isAnonymous u = false)
  /\ users (fst r) = users s1
  /\ snd r = [].
Proof.
  intros R Q F. cbv zeta.
  assert (K : registryOk (fst (Loop.run toLowerCase inputs s))
              /\ forall u,
                   Js.map_get (users (fst (Loop.run toLowerCase inputs s))) sid
                   = Some u -> User.isAnonymous u = false).
  { revert s R Q. induction inputs as [|i rest IH]; intros s R Q.
    - split; assumption.
    - inversion F as [|? ? Ci Crest]; subst. rewrite loop_run_cons. cbn [fst].
      apply IH; [exact Crest | apply step_registry, R|].
      apply step_keeps_named; assumption. }
  destruct K as [_ Q1]. split; [exact Q1|].
  unfold on_anonymity_timeout.
  destruct (Js.map_get (users (fst (Loop.run toLowerCase inputs s))) sid)
    as [u1|] eqn:G1.
  - rewrite (Q1 u1 eq_refl). cbn [andb fst snd]. split; reflexivity.
  - cbn [fst snd]. split; reflexivity.
Qed.

Lemma named_never_expires_witness :
  let inputs :=
    [Loop.socket_event "p1" (Example.env "t") (typing_start None None);
     Loop.connection "p3" "10.0.0.7" false (Example.env "c4")] in
  registryOk Example.noted
  /\ (forall u, Js.map_get (users Example.noted) "p1" = Some u ->
                User.isAnonymous u = false)
  /\ Forall (notConnecting "p1") inputs
  /\ snd (on_anonymity_timeout "p1"
            (fst (Loop.run Example.lower inputs Example.noted)))
     = [].
Proof.
  intros inputs.
  assert (R : registryOk Example.noted).
  { split.
    - vm_compute. repeat constructor; simpl; intuition discriminate.
    - repeat constructor; simpl; try reflexivity; discriminate. }
  assert (Q : forall u, Js.map_get (users Example.noted) "p1" = Some u ->
                        User.isAnonymous u = false).
  { intros u E. vm_compute in E. injection E as <-. reflexivity. }
  assert (F : Forall (notConnecting "p1") inputs).
  { apply Forall_cons; [exact I|].
    apply Forall_cons; [discriminate|]. apply Forall_nil. }
  split; [exact R|]. split; [exact Q|]. split; [exact F|].
  exact (proj2 (proj2 (named_never_expires Example.lower "p1" inputs
                         Example.noted R Q F))).
Defined.

End TimerMore.

(** ** Invariants of the shared state *)

Module StateMore.
Import Server Socket SocketSpec SocketFacts MoreSpec RegistryFacts LoopFacts.
Import ChatFacts.

Ltac projections :=
  cbn [fst globalState quarterFrameData lastQuarterFrame lastFullTimecode
       mtcMessagesReceived midiInput oscServer set_globalState set_notes
       set_user
       GlobalState.timecode GlobalState.notes GlobalState.chatMessages
       GlobalState.users GlobalState.timeMode GlobalState.tags
       GlobalState.currentLxCue GlobalState.currentAct
       GlobalState.anonymousUsers GlobalState.set_timecode
       GlobalState.set_notes GlobalState.set_chatMessages
       GlobalState.set_users GlobalState.set_timeMode GlobalState.set_tags
       GlobalState.set_currentLxCue GlobalState.set_currentAct
       GlobalState.set_anonymousUsers] in *.

Lemma fragment_stable (ty v : Z) (s : Server.t) :
  stable s -> stable (fst (Mtc.parseEasyMIDIMTC ty v s)).
Proof.
  intros [C [M T]]. unfold Mtc.parseEasyMIDIMTC, Mtc.parseCompleteMTC.
  split_cases; unfold stable, timecodeOk in *; projections; auto.
Qed.

Lemma on_event_stable (toLowerCase : string -> string) (sid : string)
    (env : Env.t) (ev : ClientEvent) (s : Server.t) :
  stable s -> stable (fst (on_event toLowerCase sid env ev s)).
Proof.
  intros [C [M T]]. unfold on_event.
  destruct (Js.map_get (users s) sid) as [user|] eqn:H;
    [|split; [|split]; assumption].
  destruct ev; open_handlers; rewrite ?H.
  all: try (destruct (User.isOverlay user) eqn:O;
            [split; [|split]; assumption|]).
  all: split_cases; unfold stable, timecodeOk, set_notes, set_user in *;
    projections; auto.
  - (* time-mode-change *)
    split; [assumption|]. split; [|assumption].
    cbn [Js.strict_eq_string] in *.
    match goal with
    | E : (_ || _)%bool = true |- _ =>
        apply orb_true_iff in E; destruct E as [E|E];
        apply String.eqb_eq in E; auto
    end.
  - (* chat-message, trimmed *)
    split; [|auto]. rewrite slice_last_length. lia.
  - (* chat-message, short *)
    split; [|auto].
    match goal with
    | E : (_ <? _)%nat = false |- _ => apply Nat.ltb_ge in E; exact E
    end.
Qed.

Lemma step_stable (toLowerCase : string -> string) (i : Loop.Input)
    (s : Server.t) :
  stable s -> stable (fst (Loop.step toLowerCase i s)).
Proof.
  intros P.
  destruct i as [msg|address value|sid userIP isOverlay env|sid env ev|sid];
    cbn [Loop.step].
  - unfold Midi.on_message. split_cases; try exact P.
    all: apply fragment_stable, P.
  - destruct (oscServer s); [|exact P].
    destruct P as [C [M T]].
    destruct (osc_state address value s) as [E|[[c E]|[a E]]]; rewrite E;
      unfold stable, timecodeOk in *; projections; auto.
  - destruct P as [C [M T]]. unfold on_connection.
    destruct isOverlay; unfold stable, timecodeOk in *; projections; auto.
  - apply on_event_stable, P.
  - assert (D : stable (fst (on_disconnect sid s))).
    { destruct P as [C [M T]]. unfold on_disconnect.
      split_cases; unfold stable, timecodeOk in *; projections; auto. }
    unfold on_anonymity_timeout.
    destruct (Js.map_get (users s) sid) as [user|];
      [destruct (User.isAnonymous user && negb (User.isOverlay user))%bool|].
    + destruct (on_disconnect sid s) as [s1 out]. cbn [fst] in D.
      destruct D as [C [M T]].
      unfold stable, timecodeOk in *; projections; auto.
    + destruct P as [C [M T]].
      unfold stable, timecodeOk in *; projections; auto.
    + destruct P as [C [M T]].
      unfold stable, timecodeOk in *; projections; auto.
Qed.

Lemma initial_stable (tags : list Tag.t) (midi osc : bool) :
  stable (Server.initial tags midi osc).
Proof.
  split; [simpl; lia|]. split; [|reflexivity].
  destruct midi; [left | right]; reflexivity.
Qed.

(** X13: whatever the process receives after its start, and from
    whomever, the chat log never holds more than 100 messages. *)
Theorem chat_log_always_bounded (toLowerCase : string -> string)
    (tags : list Tag.t) (midi osc : bool) (inputs : list Loop.Input) :
  (List.length
     (GlobalState.chatMessages
        (globalState
           (fst (Loop.run toLowerCase inputs (Server.initial tags midi osc)))))
   <= 100)%nat.
Proof.
  apply (run_invariant toLowerCase stable (step_stable toLowerCase) inputs
           _ (initial_stable tags midi osc)).
Qed.

(** X14: the time mode is always ['midi'] or ['realtime'], whatever
    clients send; it starts as ['midi'] exactly when a MIDI input was
    opened. *)
Theorem time_mode_always_valid (toLowerCase : string -> string)
    (tags : list Tag.t) (midi osc : bool) (inputs : list Loop.Input) :
  let s := fst (Loop.run toLowerCase inputs (Server.initial tags midi osc)) in
  (GlobalState.timeMode (globalState s) = "midi"
   \/ GlobalState.timeMode (globalState s) = "realtime")
  /\ GlobalState.timeMode (globalState (Server.initial tags midi osc))
     = (if midi then "midi" else "realtime").
Proof.
  cbv zeta. split; [|reflexivity].
  apply (run_invariant toLowerCase stable (step_stable toLowerCase) inputs
           _ (initial_stable tags midi osc)).
Qed.

(** A MIDI message is ignored or handled as one fragment. *)
Lemma midi_cases (msg : Midi.Message) (s : Server.t) :
  Midi.on_message msg s = (s, [])
  \/ exists ty v, Midi.on_message msg s = Mtc.parseEasyMIDIMTC ty v s.
Proof.
  unfold Midi.on_message.
  split_cases; first [left; reflexivity | right; eexists; eexists; reflexivity].
Qed.

Ltac last_cases :=
  split_cases;
  first [ reflexivity
        | match goal with
          | H : Mtc.lastEmitted _ = _ |- _ =>
              cbn [Mtc.lastEmitted snd] in H; discriminate H
          end ].

Lemma step_last (toLowerCase : string -> string) (i : Loop.Input)
    (s : Server.t) :
  lastFullTimecode (fst (Loop.step toLowerCase i s))
  = match Mtc.lastEmitted (snd (Loop.step toLowerCase i s)) with
    | Some tc => Some tc
    | None => lastFullTimecode s
    end.
Proof.
  destruct i as [msg|address value|sid userIP isOverlay env|sid env ev|sid];
    cbn [Loop.step].
  - destruct (midi_cases msg s) as [E|[ty [v E]]]; rewrite E;
      [reflexivity | apply MtcRun.fragment_last].
  - destruct (oscServer s); [|reflexivity].
    unfold Osc.message. last_cases.
  - unfold on_connection. destruct isOverlay; reflexivity.
  - unfold on_event. destruct (Js.map_get (users s) sid) as [user|] eqn:H;
      [|reflexivity].
    destruct ev; open_handlers; rewrite ?H.
    all: try (destruct (User.isOverlay user) eqn:O; [reflexivity|]).
    all: last_cases.
  - unfold on_anonymity_timeout, on_disconnect.
    destruct (Js.map_get (users s) sid) as [user|]; [|reflexivity].
    destruct (User.isAnonymous user && negb (User.isOverlay user))%bool;
      [|reflexivity].
    destruct (negb (User.isOverlay user)); reflexivity.
Qed.

Lemma loop_run_last (toLowerCase : string -> string) (inputs : list Loop.Input) :
  forall s,
  lastFullTimecode (fst (Loop.run toLowerCase inputs s))
  = match Mtc.lastEmitted (snd (Loop.run toLowerCase inputs s)) with
    | Some tc => Some tc
    | None => lastFullTimecode s
    end.
Proof.
  induction inputs as [|i rest IH]; intros s.
  - reflexivity.
  - rewrite loop_run_cons. cbn [fst snd].
    rewrite IH, MtcRun.lastEmitted_app, step_last.
    destruct (Mtc.lastEmitted
                (snd (Loop.run toLowerCase rest
                        (fst (Loop.step toLowerCase i s)))));
      reflexivity.
Qed.

(** X15: the canonical timecode belongs to the decoder: whatever the
    process receives, it is the initial 00:00:00:00 at 30 frames per
    second until a timecode change is broadcast, and the last timecode
    broadcast as a change from then on; no client event, OSC message or
    timer changes it. *)
Theorem canonical_timecode_is_decoded (toLowerCase : string -> string)
    (tags : list Tag.t) (midi osc : bool) (inputs : list Loop.Input) :
  let r := Loop.run toLowerCase inputs (Server.initial tags midi osc) in
  GlobalState.timecode (globalState (fst r))
  = match Mtc.lastEmitted (snd r) with
    | Some tc => tc
    | None => Timecode.mk 0 0 0 0 (30 # 1)%Q "midi"
    end.
Proof.
  cbv zeta.
  pose proof (run_invariant toLowerCase stable (step_stable toLowerCase)
                inputs _ (initial_stable tags midi osc)) as [_ [_ T]].
  unfold timecodeOk in T. rewrite loop_run_last in T. cbn [lastFullTimecode] in T.
  destruct (Mtc.lastEmitted
              (snd (Loop.run toLowerCase inputs (initial tags midi osc))));
    exact T.
Qed.

End StateMore.

(** ** Notes *)

Module NotesMore.
Import Server Socket SocketSpec SocketFacts MoreSpec RegistryFacts LoopFacts.
Import StateMore.

Lemma sameSnapshot_refl (n : Note.t) : sameSnapshot n n.
Proof. repeat split. Qed.

Lemma sameSnapshot_trans (a b c : Note.t) :
  sameSnapshot a b -> sameSnapshot b c -> sameSnapshot a c.
Proof. unfold sameSnapshot. intuition congruence. Qed.

Lemma Forall2_same (l : list Note.t) : Forall2 sameSnapshot l l.
Proof. induction l; constructor; auto using sameSnapshot_refl. Qed.

Lemma Forall2_snapshot_trans (a : list Note.t) : forall b c,
  Forall2 sameSnapshot a b -> Forall2 sameSnapshot b c ->
  Forall2 sameSnapshot a c.
Proof.
  induction a as [|x a IH]; intros b c H1 H2.
  - inversion H1; subst. inversion H2; subst. constructor.
  - inversion H1; subst. inversion H2; subst. constructor.
    + eapply sameSnapshot_trans; eassumption.
    + eapply IH; eassumption.
Qed.

Lemma update_first_snapshot (p : Note.t -> bool) (f : Note.t -> Note.t)
    (l : list Note.t) :
  (forall n, sameSnapshot n (f n)) ->
  Forall2 sameSnapshot l (Js.update_first p f l).
Proof.
  intros H. induction l as [|x l IH]; simpl; [constructor|].
  destruct (p x); constructor; auto using sameSnapshot_refl, Forall2_same.
Qed.

Lemma map_snapshot (f : Note.t -> Note.t) (l : list Note.t) :
  (forall n, sameSnapshot n (f n)) -> Forall2 sameSnapshot l (List.map f l).
Proof. intros H. induction l; simpl; constructor; auto. Qed.

Lemma notesGrow_refl (l : list Note.t) : notesGrow l l.
Proof.
  exists l, []. split; [symmetry; apply app_nil_r | apply Forall2_same].
Qed.

Lemma notesGrow_changed (l l' : list Note.t) :
  Forall2 sameSnapshot l l' -> notesGrow l l'.
Proof. intros H. exists l', []. split; [symmetry; apply app_nil_r | exact H]. Qed.

Lemma notesGrow_trans (a b c : list Note.t) :
  notesGrow a b -> notesGrow b c -> notesGrow a c.
Proof.
  intros [k1 [a1 [E1 F1]]] [k2 [a2 [E2 F2]]]. subst b.
  apply Forall2_app_inv_l in F2. destruct F2 as [k3 [k4 [F3 [F4 E3]]]].
  subst k2. exists k3, (k4 ++ a2). split.
  - rewrite E2, app_assoc. reflexivity.
  - eapply Forall2_snapshot_trans; eassumption.
Qed.

Lemma renameIn_snapshot (user : User.t) (newName : string) (n : Note.t) :
  sameSnapshot n (renameIn user newName n).
Proof.
  unfold renameIn, sameSnapshot.
  destruct (Note.userId n =? User.id user)%string; repeat split.
Qed.

Lemma on_event_notes (toLowerCase : string -> string) (sid : string)
    (env : Env.t) (ev : ClientEvent) (s : Server.t) :
  notesGrow (notes s) (notes (fst (on_event toLowerCase sid env ev s))).
Proof.
  unfold on_event.
  destruct (Js.map_get (users s) sid) as [user|] eqn:H;
    [|apply notesGrow_refl].
  destruct ev; open_handlers; rewrite ?H.
  all: try (destruct (User.isOverlay user) eqn:O; [apply notesGrow_refl|]).
  all: split_cases; unfold notes, set_notes, set_user in *; projections.
  all: try apply notesGrow_refl.
  all: try (apply notesGrow_changed, update_first_snapshot; intros n;
            repeat split).
  - eexists; eexists; split; [reflexivity | apply Forall2_same].
  - apply notesGrow_changed, map_snapshot. intros n.
    apply renameIn_snapshot.
Qed.

Lemma step_notes (toLowerCase : string -> string) (i : Loop.Input)
    (s : Server.t) :
  notesGrow (notes s) (notes (fst (Loop.step toLowerCase i s))).
Proof.
  destruct i as [msg|address value|sid userIP isOverlay env|sid env ev|sid];
    cbn [Loop.step].
  - unfold notes. destruct (midi_globalState msg s) as [E|[n E]]; rewrite E;
      apply notesGrow_refl.
  - destruct (oscServer s); [|apply notesGrow_refl]. unfold notes.
    destruct (osc_state address value s) as [E|[[c E]|[a E]]]; rewrite E;
      apply notesGrow_refl.
  - unfold on_connection. destruct isOverlay; apply notesGrow_refl.
  - apply on_event_notes.
  - unfold on_anonymity_timeout, on_disconnect.
    destruct (Js.map_get (users s) sid) as [user|]; [|apply notesGrow_refl].
    destruct (User.isAnonymous user && negb (User.isOverlay user))%bool;
      [|apply notesGrow_refl].
    destruct (negb (User.isOverlay user)); apply notesGrow_refl.
Qed.

(** X16: notes are never lost.  Whatever the process receives, every note
    it held is still there, at its place, with its id, its author's
    session id, its timecode, cue, act, frame rate and time stamp as they
    were when it was submitted; new notes come after the old ones.  (No
    handler deletes a note; text, tags, comments and the author name are
    what can change.) *)
Theorem notes_never_lost (toLowerCase : string -> string)
    (inputs : list Loop.Input) : forall s,
  notesGrow (notes s) (notes (fst (Loop.run toLowerCase inputs s))).
Proof.
  induction inputs as [|i rest IH]; intros s.
  - apply notesGrow_refl.
  - rewrite loop_run_cons. cbn [fst].
    eapply notesGrow_trans; [apply step_notes | apply IH].
Qed.

End NotesMore.

(** ** Tags *)

Module TagsMore.
Import Server Socket SocketSpec SocketFacts MoreSpec.

Lemma findIndex_none (id : string) (l : list Tag.t) :
  Js.findIndex (tagHasId id) l = None ->
  find (tagHasId id) l = None /\ ~ In id (List.map Tag.id l).
Proof.
  induction l as [|x l IH]; simpl; intros H.
  - split; [reflexivity | intros []].
  - unfold tagHasId in *. destruct (String.eqb_spec (Tag.id x) id) as [E|E];
      [discriminate|].
    destruct (Js.findIndex (fun tag => (Tag.id tag =? id)%string) l);
      [discriminate|].
    destruct (IH eq_refl) as [F N]. split; [exact F|].
    intros [I|I]; [contradiction | apply N, I].
Qed.

Lemma find_app_none {A} (p : A -> bool) (l : list A) (x : A) :
  find p l = None -> find p (l ++ [x]) = find p [x].
Proof.
  induction l as [|y l IH]; simpl; [reflexivity|].
  destruct (p y); [discriminate | exact IH].
Qed.

Lemma find_app_some {A} (p : A -> bool) (l : list A) (x y : A) :
  find p l = Some y -> find p (l ++ [x]) = Some y.
Proof.
  induction l as [|z l IH]; simpl; [discriminate|].
  destruct (p z); [intros E; exact E | exact IH].
Qed.

Lemma set_index_find (id : string) (new : Tag.t) (l : list Tag.t) :
  forall i, Js.findIndex (tagHasId id) l = Some i -> Tag.id new = id ->
  find (tagHasId id) (Js.set_index l i new) = Some new
  /\ List.map Tag.id (Js.set_index l i new) = List.map Tag.id l
  /\ (forall id', id' <> id ->
        find (tagHasId id') (Js.set_index l i new) = find (tagHasId id') l).
Proof.
  induction l as [|x l IH]; intros i H E; simpl in H; [discriminate|].
  unfold tagHasId in *.
  destruct (String.eqb_spec (Tag.id x) id) as [Ex|Ex].
  - injection H as <-. simpl. rewrite E, String.eqb_refl.
    split; [reflexivity|]. split; [congruence|].
    intros id' N. rewrite Ex.
    destruct (String.eqb_spec id id'); [congruence | reflexivity].
  - destruct (Js.findIndex (fun tag => (Tag.id tag =? id)%string) l) as [j|]
      eqn:F; [|discriminate].
    injection H as <-. simpl.
    destruct (IH j eq_refl E) as [I1 [I2 I3]].
    destruct (String.eqb_spec (Tag.id x) id); [contradiction|].
    split; [exact I1|]. split; [rewrite I2; reflexivity|].
    intros id' N. rewrite (I3 id' N). reflexivity.
Qed.

(** X17: create-tag is an insert-or-replace by id.  After it, the tag
    found under the id is the new one and every other id finds what it
    found before; a tag with a new id goes to the end and a known id keeps
    its place, so the list grows by one or not at all and ids that were
    unique stay unique.  The new tags are broadcast; notes are not
    touched. *)
Theorem create_tag_upsert (env : Env.t) (id : option string)
    (name : string) (color : option string) (s : Server.t) :
  let r := on_create_tag env id name color s in
  let tags := GlobalState.tags (globalState s) in
  let tags' := GlobalState.tags (globalState (fst r)) in
  let new :=
    Tag.mk (Js.or_string id (Env.generateId env)) name
      (Js.or_string color (Env.getRandomColor env)) in
  find (tagHasId (Tag.id new)) tags' = Some new
  /\ (forall id', id' <> Tag.id new ->
        find (tagHasId id') tags' = find (tagHasId id') tags)
  /\ (List.map Tag.id tags' = List.map Tag.id tags
      \/ (~ In (Tag.id new) (List.map Tag.id tags) /\ tags' = tags ++ [new]))
  /\ (NoDup (List.map Tag.id tags) -> NoDup (List.map Tag.id tags'))
  /\ snd r = [io_emit (tags_update tags')]
  /\ notes (fst r) = notes s.
Proof.
  cbv zeta. unfold on_create_tag. cbn [fst snd].
  cbn [globalState set_globalState GlobalState.tags GlobalState.set_tags].
  set (new := Tag.mk (Js.or_string id (Env.generateId env)) name
                (Js.or_string color (Env.getRandomColor env))).
  fold (tagHasId (Tag.id new)).
  destruct (Js.findIndex (tagHasId (Tag.id new))
              (GlobalState.tags (globalState s))) as [i|] eqn:F.
  - destruct (set_index_find (Tag.id new) new _ i F eq_refl) as [I1 [I2 I3]].
    split; [exact I1|]. split; [exact I3|]. split; [left; exact I2|].
    split; [rewrite I2; auto|]. split; reflexivity.
  - destruct (findIndex_none _ _ F) as [N1 N2].
    split.
    { rewrite (find_app_none _ _ new N1). simpl. unfold tagHasId.
      rewrite String.eqb_refl. reflexivity. }
    split.
    { intros id' Ne.
      destruct (find (tagHasId id') (GlobalState.tags (globalState s)))
        as [y|] eqn:G.
      - apply find_app_some, G.
      - rewrite (find_app_none _ _ new G). simpl. unfold tagHasId.
        destruct (String.eqb_spec (Tag.id new) id'); [congruence | reflexivity]. }
    split; [right; split; [exact N2 | reflexivity]|].
    split; [|split; reflexivity].
    intros ND. rewrite map_app. cbn [List.map].
    apply NoDup_app; [exact ND | constructor; [intros [] | constructor]|].
    intros x Ix [<-|[]]. apply N2, Ix.
Qed.

Lemma create_tag_upsert_witness :
  let r := on_create_tag (Example.env "t") (Some "sound") "Audio"
             (Some "#000000") Example.noted in
  NoDup (List.map Tag.id (GlobalState.tags (globalState Example.noted)))
  /\ "lighting" <> "sound"
  /\ NoDup (List.map Tag.id (GlobalState.tags (globalState (fst r))))
  /\ find (tagHasId "lighting") (GlobalState.tags (globalState (fst r)))
     = Some (Tag.mk "lighting" "Lighting" "#00B4D8").
Proof.
  intros r.
  assert (N : NoDup (List.map Tag.id
                       (GlobalState.tags (globalState Example.noted)))).
  { vm_compute. repeat constructor; simpl; intuition discriminate. }
  assert (D : "lighting" <> "sound") by discriminate.
  pose proof (create_tag_upsert (Example.env "t") (Some "sound") "Audio"
                (Some "#000000") Example.noted) as T.
  cbv zeta in T. destruct T as [_ [T2 [_ [T4 _]]]].
  split; [exact N|]. split; [exact D|]. split; [exact (T4 N)|].
  unfold r. rewrite (T2 "lighting" D). reflexivity.
Defined.

Lemma find_filter_other (id id' : string) (l : list Tag.t) :
  id' <> id ->
  find (tagHasId id')
    (filter (fun tag => negb (Tag.id tag =? id)%string) l)
  = find (tagHasId id') l.
Proof.
  intros N. induction l as [|x l IH]; simpl; [reflexivity|].
  unfold tagHasId in *.
  destruct (String.eqb_spec (Tag.id x) id) as [E|E]; simpl.
  - rewrite E. destruct (String.eqb_spec id id'); [congruence | exact IH].
  - destruct (Tag.id x =? id')%string; [reflexivity | exact IH].
Qed.

Lemma find_filter_gone (id : string) (l : list Tag.t) :
  find (tagHasId id)
    (filter (fun tag => negb (Tag.id tag =? id)%string) l)
  = None.
Proof.
  induction l as [|x l IH]; simpl; [reflexivity|].
  unfold tagHasId in *.
  destruct (String.eqb_spec (Tag.id x) id) as [E|E]; simpl; [exact IH|].
  destruct (String.eqb_spec (Tag.id x) id); [contradiction | exact IH].
Qed.

Lemma filter_idem {A} (p : A -> bool) (l : list A) :
  filter p (filter p l) = filter p l.
Proof.
  induction l as [|x l IH]; simpl; [reflexivity|].
  destruct (p x) eqn:E; simpl; [rewrite E, IH|]; auto.
Qed.

(** X18: delete-tag removes every tag with the id and nothing else: the
    id finds no tag afterwards, every other id finds what it found
    before, and deleting again changes nothing more (the tags are
    broadcast all the same).  Notes are not touched: a note keeps the id
    of a deleted tag in its tags. *)
Theorem delete_tag_no_cascade (tagId : string) (s : Server.t) :
  let r := on_delete_tag tagId s in
  let tags := GlobalState.tags (globalState s) in
  let tags' := GlobalState.tags (globalState (fst r)) in
  find (tagHasId tagId) tags' = None
  /\ (forall id', id' <> tagId ->
        find (tagHasId id') tags' = find (tagHasId id') tags)
  /\ notes (fst r) = notes s
  /\ on_delete_tag tagId (fst r) = r
  /\ snd r = [io_emit (tags_update tags')].
Proof.
  cbv zeta. unfold on_delete_tag. cbn [fst snd].
  cbn [globalState set_globalState GlobalState.tags GlobalState.set_tags].
  split; [apply find_filter_gone|].
  split; [intros id' N; apply find_filter_other, N|].
  split; [reflexivity|]. split; [|reflexivity].
  rewrite filter_idem. reflexivity.
Qed.

Lemma delete_tag_no_cascade_witness :
  let r := on_delete_tag "lighting" Example.noted in
  "sound" <> "lighting"
  /\ find (tagHasId "sound") (GlobalState.tags (globalState (fst r)))
     = Some (Tag.mk "sound" "Sound" "#06D6A0")
  /\ List.map Note.tags (notes (fst r)) = [["lighting"]].
Proof.
  intros r.
  assert (D : "sound" <> "lighting") by discriminate.
  pose proof (delete_tag_no_cascade "lighting" Example.noted) as T.
  cbv zeta in T. destruct T as [_ [T2 [T3 _]]].
  split; [exact D|]. split.
  - unfold r. rewrite (T2 "sound" D). reflexivity.
  - unfold r. rewrite T3. reflexivity.
Defined.

End TagsMore.

(** ** Comments and typing: doing and undoing *)

Module RoundTrips.
Import Server Socket SocketSpec SocketFacts MoreSpec RegistryFacts.

Lemma update_first_twice {A} (p : A -> bool) (f g : A -> A) (l : list A) :
  (forall x, p (g x) = p x) ->
  Js.update_first p f (Js.update_first p g l)
  = Js.update_first p (fun x => f (g x)) l.
Proof.
  intros H. induction l as [|x l IH]; simpl; [reflexivity|].
  destruct (p x) eqn:E; simpl.
  - rewrite H, E. reflexivity.
  - rewrite E, IH. reflexivity.
Qed.

Lemma update_first_fixed {A} (p : A -> bool) (h : A -> A) (l : list A)
    (n : A) :
  find p l = Some n -> h n = n -> Js.update_first p h l = l.
Proof.
  intros F H. induction l as [|x l IH]; simpl in *; [reflexivity|].
  destruct (p x).
  - injection F as ->. rewrite H. reflexivity.
  - rewrite (IH F). reflexivity.
Qed.

Lemma find_update_first {A} (p : A -> bool) (g : A -> A) (l : list A) :
  (forall x, p (g x) = p x) ->
  find p (Js.update_first p g l) = option_map g (find p l).
Proof.
  intros H. induction l as [|x l IH]; simpl; [reflexivity|].
  destruct (p x) eqn:E; simpl.
  - rewrite H, E. reflexivity.
  - rewrite E. exact IH.
Qed.

Lemma filter_keeps (cid : string) (l : list Comment.t) :
  Forall (fun c => Comment.id c <> cid) l ->
  filter (fun c => negb (commentHasId cid c)) l = l.
Proof.
  induction l as [|c l IH]; intros F; simpl; [reflexivity|].
  inversion F as [|? ? Hc Hl]; subst. unfold commentHasId in *.
  destruct (String.eqb_spec (Comment.id c) cid); [contradiction|].
  simpl. rewrite (IH Hl). reflexivity.
Qed.

(** X19: a comment can be taken back.  When a participant comments on an
    existing note, the comment goes to the end of the comments of the
    first note with that id, under the participant's name and id; and if
    no other comment of that note has the new comment's id, deleting the
    comment by its id gives back the state that was there before.  Both
    steps broadcast the notes. *)
Theorem comment_submit_then_delete (sid : string) (env : Env.t)
    (noteId text : string) (user : User.t) (n : Note.t) (s : Server.t) :
  Js.map_get (users s) sid = Some user -> User.isOverlay user = false ->
  find (hasId noteId) (notes s) = Some n ->
  Forall (fun c => Comment.id c <> Env.newId env) (Note.comments n) ->
  let r1 := on_comment_submit sid env noteId text s in
  let r2 := on_comment_delete sid noteId (Env.newId env) (fst r1) in
  (exists n1,
     find (hasId noteId) (notes (fst r1)) = Some n1
     /\ Note.comments n1
        = Note.comments n
            ++ [Comment.mk (Env.newId env) (User.name user) (User.id user)
                  text (Env.now env) None None])
  /\ snd r1 = [io_emit (notes_update (notes (fst r1)))]
  /\ fst r2 = s
  /\ snd r2 = [io_emit (notes_update (notes s))].
Proof.
  intros G O F Fresh. cbv zeta.
  unfold on_comment_submit.
  rewrite (unlessOverlay_participant _ _ _ _ G O), F. cbn [fst snd].
  set (c := Comment.mk (Env.newId env) (User.name user) (User.id user) text
              (Env.now env) None None).
  set (g := fun n0 : Note.t => Note.set_comments n0 (Note.comments n0 ++ [c])).
  assert (Pg : forall x, hasId noteId (g x) = hasId noteId x)
    by (intros x; reflexivity).
  assert (F1 : find (hasId noteId)
                 (Js.update_first (hasId noteId) g (notes s)) = Some (g n)).
  { rewrite (find_update_first _ _ _ Pg), F. reflexivity. }
  split; [exists (g n); split; [exact F1 | reflexivity]|].
  split; [reflexivity|].
  unfold on_comment_delete.
  assert (G1 : Js.map_get (users (set_notes s
                 (Js.update_first (hasId noteId) g (notes s)))) sid
               = Some user) by exact G.
  rewrite (unlessOverlay_participant _ _ _ _ G1 O).
  assert (N1 : notes (set_notes s (Js.update_first (hasId noteId) g (notes s)))
               = Js.update_first (hasId noteId) g (notes s)) by reflexivity.
  rewrite N1, F1, (update_first_twice _ _ g _ Pg). cbn [fst snd].
  assert (Back : Js.update_first (hasId noteId)
                   (fun x =>
                      Note.set_comments (g x)
                        (filter
                           (fun c0 => negb (commentHasId (Env.newId env) c0))
                           (Note.comments (g x))))
                   (notes s) = notes s).
  { apply (update_first_fixed _ _ _ n F).
    unfold g. cbn [Note.comments Note.set_comments].
    rewrite filter_app, (filter_keeps _ _ Fresh).
    cbn [filter commentHasId Comment.id c]. unfold commentHasId, c.
    cbn [Comment.id]. rewrite String.eqb_refl. cbn [negb].
    rewrite app_nil_r. destruct n; reflexivity. }
  rewrite Back.
  split; [|reflexivity].
  destruct s as [gs q lq lf m mi os]. destruct gs. reflexivity.
Qed.

Lemma comment_submit_then_delete_witness :
  let p2 := User.mk "p2" "10.0.0.6" false None None
              "2025-03-01T19:30:00.000Z" false true in
  let r1 := on_comment_submit "p2" (Example.env "k2") "id-n1" "Noted"
              Example.noted in
  Js.map_get (users Example.noted) "p2" = Some p2
  /\ User.isOverlay p2 = false
  /\ (exists n, find (hasId "id-n1") (notes Example.noted) = Some n
                /\ Forall (fun c => Comment.id c <> "id-k2") (Note.comments n))
  /\ fst (on_comment_delete "p2" "id-n1" "id-k2" (fst r1)) = Example.noted.
Proof.
  intros p2 r1.
  assert (G : Js.map_get (users Example.noted) "p2" = Some p2) by reflexivity.
  assert (O : User.isOverlay p2 = false) by reflexivity.
  destruct (find (hasId "id-n1") (notes Example.noted)) as [n|] eqn:F;
    [|vm_compute in F; discriminate F].
  assert (Fr : Forall (fun c => Comment.id c <> Env.newId (Example.env "k2"))
                 (Note.comments n)).
  { vm_compute in F. injection F as <-.
    repeat constructor. cbn. discriminate. }
  split; [exact G|]. split; [exact O|].
  split; [exists n; split; [reflexivity | exact Fr]|].
  exact (proj1 (proj2 (proj2 (comment_submit_then_delete "p2"
           (Example.env "k2") "id-n1" "Noted" p2 n Example.noted G O F Fr)))).
Defined.

Lemma map_set_idle {V} (m : Js.map V) (k : string) (v w : V) :
  Js.map_get m k = Some v -> Js.map_set (Js.map_set m k w) k v = m.
Proof.
  induction m as [|[k' v'] rest IH]; simpl; [discriminate|].
  destruct (String.eqb_spec k' k) as [->|N]; simpl.
  - intros E. injection E as ->. rewrite String.eqb_refl. reflexivity.
  - intros H. destruct (String.eqb_spec k' k); [contradiction|].
    rewrite (IH H). reflexivity.
Qed.

(** X20: typing leaves no trace.  When a participant that is not typing
    and has no draft starts typing, its record shows it typing with the
    draft timecode and cue it sent, or the current ones where it sent
    none; when it stops, the state is again what it was before.  Both
    steps broadcast the roster of sessions that are no overlay. *)
Theorem typing_start_then_stop (sid : string)
    (timecode : option Timecode.t) (lxCue : option string) (user : User.t)
    (s : Server.t) :
  Js.map_get (users s) sid = Some user -> User.isOverlay user = false ->
  User.isTyping user = false -> User.currentTimecode user = None ->
  User.currentLxCue user = None ->
  let r1 := on_typing_start sid timecode lxCue s in
  let r2 := on_typing_stop sid (fst r1) in
  Js.map_get (users (fst r1)) sid
  = Some (User.set_typing user true
            (Some (Js.or_object timecode
                     (GlobalState.timecode (globalState s))))
            (Some (Js.or_string lxCue
                     (GlobalState.currentLxCue (globalState s)))))
  /\ snd r1 = [io_emit (users_update (filteredUsers (fst r1)))]
  /\ fst r2 = s
  /\ snd r2 = [io_emit (users_update (filteredUsers s))].
Proof.
  intros G O T D1 D2. cbv zeta. unfold on_typing_start.
  rewrite (unlessOverlay_participant _ _ _ _ G O). cbn [fst snd].
  set (u1 := User.set_typing user true
               (Some (Js.or_object timecode
                        (GlobalState.timecode (globalState s))))
               (Some (Js.or_string lxCue
                        (GlobalState.currentLxCue (globalState s))))).
  assert (G1 : Js.map_get (users (set_user s sid u1)) sid = Some u1).
  { unfold users, set_user, set_globalState.
    cbn [globalState GlobalState.users GlobalState.set_users].
    apply map_get_set_same. }
  split; [exact G1|]. split; [reflexivity|].
  unfold on_typing_stop.
  assert (O1 : User.isOverlay u1 = false) by exact O.
  rewrite (unlessOverlay_participant _ _ _ _ G1 O1). cbn [fst snd].
  assert (U : User.set_typing u1 false None None = user).
  { unfold u1. destruct user. cbn in *. subst. reflexivity. }
  rewrite U.
  assert (Back : set_user (set_user s sid u1) sid user = s).
  { unfold set_user, set_globalState, users.
    cbn [globalState GlobalState.users GlobalState.set_users
         GlobalState.timecode GlobalState.notes GlobalState.chatMessages
         GlobalState.timeMode GlobalState.tags GlobalState.currentLxCue
         GlobalState.currentAct GlobalState.anonymousUsers
         quarterFrameData lastQuarterFrame lastFullTimecode
         mtcMessagesReceived midiInput oscServer].
    pose proof (map_set_idle _ _ _ u1 G) as I. unfold users in I.
    rewrite I.
    destruct s as [gs q lq lf m mi os]. destruct gs. reflexivity. }
  rewrite Back. split; reflexivity.
Qed.

Lemma typing_start_then_stop_witness :
  let p2 := User.mk "p2" "10.0.0.6" false None None
              "2025-03-01T19:30:00.000Z" false true in
  Js.map_get (users Example.noted) "p2" = Some p2
  /\ User.isOverlay p2 = false /\ User.isTyping p2 = false
  /\ User.currentTimecode p2 = None /\ User.currentLxCue p2 = None
  /\ fst (on_typing_stop "p2"
            (fst (on_typing_start "p2" None (Some "12") Example.noted)))
     = Example.noted.
Proof.
  intros p2.
  assert (G : Js.map_get (users Example.noted) "p2" = Some p2) by reflexivity.
  repeat (split; [first [exact G | reflexivity]|]).
  exact (proj1 (proj2 (proj2 (typing_start_then_stop "p2" None (Some "12") p2
           Example.noted G eq_refl eq_refl eq_refl eq_refl)))).
Defined.

End RoundTrips.

(** ** Who writes what *)

Module Writers.
Import Server Socket SocketSpec SocketFacts MoreSpec RegistryFacts LoopFacts.
Import StateMore.

(** X21: what a client event can write.  No client event changes the
    timecode, the act or the decoder; the current cue changes only through
    a cue override while no OSC server is attached (with one attached, the
    override is accepted and dropped); the time mode changes only through
    a time-mode change, the tags only through tag creation or deletion,
    the chat log only through a chat message. *)
Theorem client_event_writes (toLowerCase : string -> string) (sid : string)
    (env : Env.t) (ev : ClientEvent) (s : Server.t) :
  let s' := fst (on_event toLowerCase sid env ev s) in
  GlobalState.timecode (globalState s') = GlobalState.timecode (globalState s)
  /\ GlobalState.currentAct (globalState s')
     = GlobalState.currentAct (globalState s)
  /\ quarterFrameData s' = quarterFrameData s
  /\ lastFullTimecode s' = lastFullTimecode s
  /\ mtcMessagesReceived s' = mtcMessagesReceived s
  /\ (oscServer s = true \/ (forall newCue, ev <> lx_cue_change newCue) ->
      GlobalState.currentLxCue (globalState s')
      = GlobalState.currentLxCue (globalState s))
  /\ ((forall newMode, ev <> time_mode_change newMode) ->
      GlobalState.timeMode (globalState s')
      = GlobalState.timeMode (globalState s))
  /\ ((forall id name color, ev <> create_tag id name color) ->
      (forall tagId, ev <> delete_tag tagId) ->
      GlobalState.tags (globalState s') = GlobalState.tags (globalState s))
  /\ ((forall text, ev <> chat_message text) ->
      GlobalState.chatMessages (globalState s')
      = GlobalState.chatMessages (globalState s)).
Proof.
  cbv zeta. unfold on_event.
  destruct (Js.map_get (users s) sid) as [user|] eqn:H;
    [|repeat split].
  destruct ev; open_handlers; rewrite ?H.
  all: try (destruct (User.isOverlay user) eqn:O; [repeat split|]).
  all: split_cases; unfold set_notes, set_user in *; projections.
  all: repeat split; try reflexivity.
  all: try (intros A; exfalso; eapply A; reflexivity).
  all: try (intros A B; exfalso;
            first [eapply A; reflexivity | eapply B; reflexivity]).
  all: intros [A|A];
    [ match goal with
      | E : negb (oscServer _) = true |- _ => rewrite A in E; discriminate E
      end
    | exfalso; eapply A; reflexivity ].
Qed.

Lemma client_event_writes_witness :
  let s := Example.noted in
  (oscServer s = true \/ (forall newCue, lx_cue_change "99" <> lx_cue_change newCue))
  /\ GlobalState.currentLxCue
       (globalState
          (fst (on_event Example.lower "p1" (Example.env "c")
                  (lx_cue_change "99") s)))
     = "1".
Proof.
  intros s.
  assert (A : oscServer s = true
              \/ (forall newCue, lx_cue_change "99" <> lx_cue_change newCue))
    by (left; reflexivity).
  split; [exact A|].
  pose proof (client_event_writes Example.lower "p1" (Example.env "c")
                (lx_cue_change "99") s) as T.
  cbv zeta in T. destruct T as [_ [_ [_ [_ [_ [T _]]]]]].
  rewrite (T A). reflexivity.
Defined.

(** X22: what the production signals can write.  A MIDI message changes,
    of the shared state, the timecode at most; an OSC message changes the
    current cue or the current act at most, never both, and nothing of
    the decoder.  Notes, chat, sessions, tags and the time mode are out of
    reach of both. *)
Theorem signal_writes (msg : Midi.Message) (address : string)
    (value : option string) (s : Server.t) :
  (let g := globalState s in
   let g' := globalState (fst (Midi.on_message msg s)) in
   GlobalState.notes g' = GlobalState.notes g
   /\ GlobalState.chatMessages g' = GlobalState.chatMessages g
   /\ GlobalState.users g' = GlobalState.users g
   /\ GlobalState.timeMode g' = GlobalState.timeMode g
   /\ GlobalState.tags g' = GlobalState.tags g
   /\ GlobalState.currentLxCue g' = GlobalState.currentLxCue g
   /\ GlobalState.currentAct g' = GlobalState.currentAct g
   /\ GlobalState.anonymousUsers g' = GlobalState.anonymousUsers g)
  /\ (let s' := fst (Osc.message address value s) in
      s' = s
      \/ (exists cue,
            s' = set_globalState s
                   (GlobalState.set_currentLxCue (globalState s) cue))
      \/ (exists act,
            s' = set_globalState s
                   (GlobalState.set_currentAct (globalState s) act))).
Proof.
  split.
  - cbv zeta. destruct (midi_globalState msg s) as [E|[n E]]; rewrite E;
      repeat split.
  - apply osc_state.
Qed.

(** X23: an overlay session cannot author.  Any sequence of events whose
    handlers carry the overlay guard (typing, time mode, cue override,
    note submit and edit, comment submit, edit and delete, chat, name
    change, export), sent by a connected overlay session, leaves the state
    exactly as it was and sends nothing to anyone. *)
Theorem overlay_events_rejected (toLowerCase : string -> string)
    (sid : string) (user : User.t) (evs : list (Env.t * ClientEvent))
    (s : Server.t) :
  Js.map_get (users s) sid = Some user -> User.isOverlay user = true ->
  Forall (fun e => guarded (snd e) = true) evs ->
  run toLowerCase (List.map (fun e => (sid, fst e, snd e)) evs) s = (s, []).
Proof.
  intros G O F. induction evs as [|[env ev] rest IH]; [reflexivity|].
  inversion F as [|? ? Hg Hrest]; subst. cbn [List.map fst snd run] in *.
  rewrite (overlay_rejected toLowerCase sid env ev s user G O Hg).
  rewrite (IH Hrest). reflexivity.
Qed.

Lemma overlay_events_rejected_witness :
  let ov := User.mk "ov" "Overlay-10.0.0.9" false None None
              "2025-03-01T19:30:00.000Z" true false in
  let evs :=
    [(Example.env "a", chat_message "hello");
     (Example.env "b", user_name_change "Alice");
     (Example.env "c", comment_delete "id-n1" "id-k1")] in
  Js.map_get (users Example.noted) "ov" = Some ov
  /\ User.isOverlay ov = true
  /\ Forall (fun e => guarded (snd e) = true) evs
  /\ run Example.lower (List.map (fun e => ("ov", fst e, snd e)) evs)
       Example.noted
     = (Example.noted, []).
Proof.
  intros ov evs.
  assert (G : Js.map_get (users Example.noted) "ov" = Some ov) by reflexivity.
  assert (F : Forall (fun e => guarded (snd e) = true) evs)
    by (repeat constructor).
  split; [exact G|]. split; [reflexivity|]. split; [exact F|].
  exact (overlay_events_rejected Example.lower "ov" ov evs Example.noted
           G eq_refl F).
Defined.

End Writers.

(** ** Names *)

Module NamesMore.
Import Server Socket SocketSpec SocketFacts MoreSpec RegistryFacts LoopFacts.
Import StateMore TimerMore RenameFacts.

Lemma map_set_values {V} (m : Js.map V) (k : string) (v x : V) :
  In x (Js.map_values (Js.map_set m k v)) ->
  x = v \/ In x (Js.map_values m).
Proof.
  unfold Js.map_values. induction m as [|[k' v'] rest IH]; simpl.
  - intros [<-|[]]. left. reflexivity.
  - destruct (k' =? k)%string; simpl.
    + intros [<-|I]; [left; reflexivity | right; right; exact I].
    + intros [<-|I]; [right; left; reflexivity|].
      destruct (IH I) as [J|J]; [left; exact J | right; right; exact J].
Qed.

(** X24: after a successful name change no other session that is no
    overlay holds the new name, up to case; the session itself holds it
    and is no longer anonymous, and it is told of the success. *)
Theorem rename_keeps_names_apart (toLowerCase : string -> string)
    (sid newName : string) (user : User.t) (s : Server.t) :
  Js.map_get (users s) sid = Some user -> User.isOverlay user = false ->
  ~ nameHeld toLowerCase s user newName ->
  let r := on_user_name_change toLowerCase sid newName s in
  Js.map_get (users (fst r)) sid = Some (User.rename user newName)
  /\ (forall u',
        In u' (Js.map_values (users (fst r))) ->
        User.id u' <> User.id user -> User.isOverlay u' = false ->
        toLowerCase (User.name u') <> toLowerCase newName)
  /\ In (socket_emit sid
           (name_change_success (changedMessage (User.name user) newName)))
        (snd r).
Proof.
  intros G O N. cbv zeta. unfold on_user_name_change.
  rewrite (unlessOverlay_participant _ _ _ _ G O).
  destruct (isNameTaken toLowerCase s user newName) eqn:T.
  - exfalso. apply N, isNameTaken_spec, T.
  - cbn [fst snd]. unfold users, set_notes, set_user, set_globalState.
    cbn [globalState GlobalState.users GlobalState.set_notes
           GlobalState.set_anonymousUsers GlobalState.set_users].
    split; [apply map_get_set_same|]. split.
    + intros u' I Hid Ho E.
      apply map_set_values in I. destruct I as [->|I].
      * apply Hid. reflexivity.
      * apply N. exists u'. auto.
    + right. right. left. reflexivity.
Qed.

Lemma rename_keeps_names_apart_witness :
  let p2 := User.mk "p2" "10.0.0.6" false None None
              "2025-03-01T19:30:00.000Z" false true in
  Js.map_get (users Example.noted) "p2" = Some p2
  /\ User.isOverlay p2 = false
  /\ ~ nameHeld Example.lower Example.noted p2 "Bob"
  /\ Js.map_get
       (users (fst (on_user_name_change Example.lower "p2" "Bob"
                      Example.noted))) "p2"
     = Some (User.rename p2 "Bob").
Proof.
  intros p2.
  assert (G : Js.map_get (users Example.noted) "p2" = Some p2) by reflexivity.
  assert (O : User.isOverlay p2 = false) by reflexivity.
  assert (F : ~ nameHeld Example.lower Example.noted p2 "Bob").
  { intros N. apply isNameTaken_spec in N. discriminate N. }
  split; [exact G|]. split; [exact O|]. split; [exact F|].
  exact (proj1 (rename_keeps_names_apart Example.lower "p2" "Bob" p2
                  Example.noted G O F)).
Defined.

End NamesMore.

Module AuthorsMore.
Import Server Socket SocketSpec SocketFacts MoreSpec RegistryFacts LoopFacts.
Import StateMore TimerMore RenameFacts.

Lemma credits_update_first (h : Note.t -> bool) (f : Note.t -> Note.t)
    (Q : string * string -> Prop) (l : list Note.t) :
  (forall n p, In p (noteCredits (f n)) -> In p (noteCredits n) \/ Q p) ->
  forall p, In p (credits (Js.update_first h f l)) ->
            In p (credits l) \/ Q p.
Proof.
  intros H p. unfold credits.
  induction l as [|x l IH]; cbn [Js.update_first flat_map]; [auto|].
  destruct (h x); cbn [flat_map]; rewrite !in_app_iff.
  - intros [I|I]; [|left; right; exact I].
    destruct (H x p I) as [J|J]; [left; left; exact J | right; exact J].
  - intros [I|I]; [left; left; exact I|].
    destruct (IH I) as [J|J]; [left; right; exact J | right; exact J].
Qed.

Lemma map_update_first {A B} (g : A -> B) (p : A -> bool) (f : A -> A)
    (l : list A) :
  (forall x, g (f x) = g x) ->
  List.map g (Js.update_first p f l) = List.map g l.
Proof.
  intros H. induction l as [|x l IH]; simpl; [reflexivity|].
  destruct (p x); simpl; [rewrite H | rewrite IH]; reflexivity.
Qed.

Lemma in_map_filter {A B} (g : A -> B) (p : A -> bool) (l : list A) (y : B) :
  In y (List.map g (filter p l)) -> In y (List.map g l).
Proof.
  rewrite !in_map_iff. intros [x [E I]]. exists x. split; [exact E|].
  apply filter_In in I. apply I.
Qed.

(** What a client event other than a name change does to the author
    snapshots: it keeps them, drops some, or adds one of its sender. *)
Lemma on_event_credits (toLowerCase : string -> string) (sid : string)
    (env : Env.t) (ev : ClientEvent) (s : Server.t) (user : User.t)
    (p : string * string) :
  Js.map_get (users s) sid = Some user ->
  (forall newName, ev <> user_name_change newName) ->
  In p (credits (notes (fst (on_event toLowerCase sid env ev s)))) ->
  In p (credits (notes s)) \/ p = (User.id user, User.name user).
Proof.
  intros H R. unfold on_event. rewrite H.
  destruct ev; open_handlers; rewrite ?H.
  all: try (destruct (User.isOverlay user) eqn:O; [cbn [fst]; auto|]).
  all: try (exfalso; eapply R; reflexivity).
  all: split_cases; unfold notes, set_notes, set_user in *; projections;
    auto.
  all: try (apply (credits_update_first _ _
                     (fun q => q = (User.id user, User.name user)));
            intros n q; unfold noteCredits;
            cbn [Note.set_tags Note.set_comments Note.edit Note.userId
                 Note.user Note.comments]).
  - auto.
  - auto.
  - (* note-submit *)
    unfold credits. rewrite flat_map_app, in_app_iff. cbn [flat_map].
    unfold noteCredits at 2.
    cbn [Note.userId Note.user Note.comments List.map app].
    intros [I|[<-|[]]]; auto.
  - (* comment-submit *)
    rewrite map_app. cbn [List.map Comment.userId Comment.user].
    intros [E|I]; [left; left; exact E|].
    apply in_app_iff in I. destruct I as [I|[<-|[]]]; auto.
    left. right. exact I.
  - auto.
  - (* comment-edit *)
    rewrite map_update_first by (intros x; reflexivity). auto.
  - (* comment-delete *)
    intros [E|I]; [left; left; exact E|].
    left. right. eapply in_map_filter, I.
Qed.

Lemma noteCredits_rename (user : User.t) (newName : string) (n : Note.t) :
  noteCredits (renameIn user newName n)
  = List.map (recredit (User.id user) newName) (noteCredits n).
Proof.
  unfold renameIn, noteCredits, recredit.
  cbn [List.map fst snd Note.set_comments Note.userId Note.user Note.comments].
  destruct (String.eqb_spec (Note.userId n) (User.id user)) as [E|E];
    cbn [Note.set_user Note.userId Note.user Note.comments]; f_equal;
    rewrite !map_map; apply map_ext; intros c; cbn [fst snd];
    destruct (Comment.userId c =? User.id user)%string; reflexivity.
Qed.

Lemma credits_rename (user : User.t) (newName : string) (l : list Note.t) :
  credits (List.map (renameIn user newName) l)
  = List.map (recredit (User.id user) newName) (credits l).
Proof.
  unfold credits. induction l as [|n l IH]; cbn [List.map flat_map];
    [reflexivity|].
  rewrite map_app, IH, noteCredits_rename. reflexivity.
Qed.

Lemma on_event_others (toLowerCase : string -> string) (sid sid' : string)
    (env : Env.t) (ev : ClientEvent) (s : Server.t) :
  sid' <> sid ->
  Js.map_get (users (fst (on_event toLowerCase sid env ev s))) sid'
  = Js.map_get (users s) sid'.
Proof.
  intros Ne.
  destruct (on_event_users toLowerCase sid env ev s)
    as [E|[[u [u' [G [E _]]]]|E]]; rewrite E.
  - reflexivity.
  - apply map_get_set_other, Ne.
  - apply map_get_delete_other, Ne.
Qed.

Lemma recredit_fst (uid newName : string) (q : string * string) :
  fst (recredit uid newName q) = fst q.
Proof. unfold recredit. destruct (fst q =? uid)%string; reflexivity. Qed.

Lemma rename_sync (toLowerCase : string -> string) (sid newName : string)
    (s : Server.t) :
  registryOk s -> authorsInSync s ->
  authorsInSync (fst (on_user_name_change toLowerCase sid newName s)).
Proof.
  intros [N F] A. unfold on_user_name_change, unlessOverlay.
  destruct (Js.map_get (users s) sid) as [user|] eqn:G; [|exact A].
  destruct (User.isOverlay user); [exact A|].
  destruct (isNameTaken toLowerCase s user newName); [exact A|].
  cbn [fst]. intros sid' u' p G' I E.
  unfold users, notes, set_notes, set_user, set_globalState in G', I.
  cbn [globalState GlobalState.users GlobalState.notes GlobalState.set_notes
       GlobalState.set_anonymousUsers GlobalState.set_users] in G', I.
  fold (users s) in G'. fold (notes s) in I.
  rewrite credits_rename in I. apply in_map_iff in I.
  destruct I as [q [<- Iq]]. rewrite recredit_fst in E.
  rewrite Forall_forall in F.
  assert (Hid : User.id user = sid)
    by (apply (F (sid, user)), map_get_In, G).
  destruct (String.eqb_spec sid' sid) as [->|Ne].
  - rewrite map_get_set_same in G'. injection G' as <-.
    cbn [User.rename User.id User.name] in *.
    unfold recredit. rewrite E, String.eqb_refl. reflexivity.
  - rewrite map_get_set_other in G' by exact Ne.
    assert (Hid' : User.id u' = sid')
      by (apply (F (sid', u')), map_get_In, G').
    unfold recredit.
    destruct (String.eqb_spec (fst q) (User.id user)) as [Eq|Eq];
      [congruence|].
    apply (A sid' u' q G' Iq E).
Qed.

Lemma on_event_sync (toLowerCase : string -> string) (sid : string)
    (env : Env.t) (ev : ClientEvent) (s : Server.t) :
  registryOk s -> authorsInSync s ->
  authorsInSync (fst (on_event toLowerCase sid env ev s)).
Proof.
  intros R A.
  destruct (Js.map_get (users s) sid) as [user|] eqn:G;
    [|unfold on_event; rewrite G; exact A].
  assert (Rename : forall newName, ev = user_name_change newName ->
            authorsInSync (fst (on_event toLowerCase sid env ev s))).
  { intros newName ->. rewrite (on_event_connected _ _ _ _ _ _ G).
    apply rename_sync; assumption. }
  destruct ev; try (eapply Rename; reflexivity); clear Rename.
  all: match goal with
       | |- authorsInSync (fst (on_event _ _ _ ?e _)) =>
           assert (Nr : forall newName, e <> user_name_change newName)
             by discriminate;
           pose proof (on_event_credits toLowerCase sid env e s user) as C;
           pose proof (on_event_others toLowerCase sid) as Ot;
           pose proof (fun D => on_event_stays toLowerCase sid env e s user D G)
             as St
       end.
  all: intros sid' u' p G' I E;
    destruct R as [N F]; rewrite Forall_forall in F;
    assert (Hid : User.id user = sid)
      by (apply (F (sid, user)), map_get_In, G);
    destruct (String.eqb_spec sid' sid) as [->|Ne].
  all: try (rewrite Ot in G' by exact Ne;
            assert (Hid' : User.id u' = sid')
              by (apply (F (sid', u')), map_get_In, G');
            destruct (C p G Nr I) as [J| ->];
            [apply (A sid' u' p G' J E) | cbn [fst] in E; congruence]).
  all: try (destruct St as [u1 [G1 [I1 [_ [K _]]]]]; [discriminate|];
            rewrite G1 in G'; injection G' as <-;
            destruct (K Nr) as [K1 _];
            destruct (C p G Nr I) as [J| ->];
            [rewrite K1; apply (A sid user p G J); congruence
            | cbn [snd]; congruence]).
  (* disconnect: the sender is gone *)
  exfalso. revert G'. unfold on_event, on_disconnect. rewrite G.
  split_cases; cbn [fst]; unfold users;
    cbn [globalState set_globalState GlobalState.users GlobalState.set_users];
    fold (users s); rewrite (map_get_delete_gone _ sid N); discriminate.
Qed.

(** X25: author names follow the session.  In a sound registry, if every
    note and comment written by a connected session carries that
    session's current name, then so it is after any client event: a name
    change rewrites the author name of every note and comment with the
    session's id and of no other, and every other event writes new notes
    and comments under the sender's current name and id.  A session that
    connects under an id no note or comment refers to keeps it so. *)
Theorem authors_follow_sessions (toLowerCase : string -> string)
    (sid : string) (env : Env.t) (s : Server.t) :
  registryOk s -> authorsInSync s ->
  (forall ev, authorsInSync (fst (on_event toLowerCase sid env ev s)))
  /\ (forall userIP isOverlay,
        (forall p, In p (credits (notes s)) -> fst p <> sid) ->
        authorsInSync (fst (on_connection sid userIP isOverlay env s))).
Proof.
  intros R A. split.
  - intros ev. apply on_event_sync; assumption.
  - intros userIP isOverlay Fresh sid' u' p G' I E.
    rewrite connection_users in G'.
    assert (Nn : notes (fst (on_connection sid userIP isOverlay env s))
                 = notes s)
      by (unfold on_connection; destruct isOverlay; reflexivity).
    rewrite Nn in I.
    destruct (String.eqb_spec sid' sid) as [->|Ne].
    + rewrite map_get_set_same in G'. injection G' as <-.
      cbn [User.id] in E. exfalso. apply (Fresh p I E).
    + rewrite map_get_set_other in G' by exact Ne.
      apply (A sid' u' p G' I E).
Qed.

Lemma authors_follow_sessions_witness :
  authorsInSync
    (fst (on_event Example.lower "p1" (Example.env "r2")
            (user_name_change "Bea") Example.noted)).
Proof.
  assert (R : registryOk Example.noted).
  { split.
    - vm_compute. repeat constructor; simpl; intuition discriminate.
    - vm_compute. repeat constructor; discriminate. }
  assert (A : authorsInSync Example.noted).
  { intros sid u p G I E.
    assert (Hid : User.id u = sid).
    { destruct R as [_ F]. rewrite Forall_forall in F.
      apply (F (sid, u)), RegistryFacts.map_get_In, G. }
    let v := eval vm_compute in (credits (notes Example.noted)) in
    assert (Ec : credits (notes Example.noted) = v)
      by (vm_compute; reflexivity).
    let v := eval vm_compute in (Js.map_get (users Example.noted) "p1") in
    assert (G1 : Js.map_get (users Example.noted) "p1" = v)
      by (vm_compute; reflexivity).
    let v := eval vm_compute in (Js.map_get (users Example.noted) "p2") in
    assert (G2 : Js.map_get (users Example.noted) "p2" = v)
      by (vm_compute; reflexivity).
    rewrite Ec in I.
    destruct I as [<-|[<-|[]]]; cbn [fst snd] in *;
      rewrite <- Hid, <- E in G;
      first [rewrite G1 in G | rewrite G2 in G];
      injection G as <-; reflexivity. }
  exact (proj1 (authors_follow_sessions Example.lower "p1"
                  (Example.env "r2") Example.noted R A)
           (user_name_change "Bea")).
Defined.

End AuthorsMore.

(** ** The timecode column of the CSV export *)

Module FormatMore.
Import Format MoreSpec.

Lemma zeros_length (n : nat) : String.length (zeros n) = n.
Proof. induction n as [|n IH]; simpl; congruence. Qed.

Lemma append_length (a b : string) :
  String.length (String.append a b)
  = (String.length a + String.length b)%nat.
Proof. induction a as [|c a IH]; simpl; congruence. Qed.

Lemma padStart_length (n : nat) (x : string) :
  String.length (padStart n x) = Nat.max n (String.length x).
Proof. unfold padStart. rewrite append_length, zeros_length. lia. Qed.

Lemma field_wide (x : Z) : (2 <= String.length (field x))%nat.
Proof. unfold field. rewrite padStart_length. lia. Qed.

Lemma field_reads_back (x : Z) :
  0 <= x <= 99 ->
  exists c1 c0,
    field x = String c1 (String c0 EmptyString)
    /\ Z.of_nat (nat_of_ascii c1 - 48) * 10
       + Z.of_nat (nat_of_ascii c0 - 48) = x.
Proof.
  intros B.
  assert (C : readsBack 100 = true) by (vm_compute; reflexivity).
  unfold readsBack in C. rewrite forallb_forall in C.
  specialize (C (Z.to_nat x)).
  rewrite Z2Nat.id in C by lia.
  assert (I : In (Z.to_nat x) (seq 0 100)) by (apply in_seq; lia).
  specialize (C I). unfold readField in C.
  destruct (field x) as [|c1 [|c0 [|c r]]]; try discriminate C.
  exists c1, c0. split; [reflexivity|]. apply Z.eqb_eq, C.
Qed.

Lemma format_shape (tc : Timecode.t) :
  twoDigits tc ->
  exists h1 h0 m1 m0 s1 s0 f1 f0,
    formatTimecode (Some tc)
    = String h1 (String h0 (String ":" (String m1 (String m0 (String ":"
        (String s1 (String s0 (String ":"
           (String f1 (String f0 EmptyString))))))))))
    /\ Z.of_nat (nat_of_ascii h1 - 48) * 10
       + Z.of_nat (nat_of_ascii h0 - 48) = Timecode.hours tc
    /\ Z.of_nat (nat_of_ascii m1 - 48) * 10
       + Z.of_nat (nat_of_ascii m0 - 48) = Timecode.minutes tc
    /\ Z.of_nat (nat_of_ascii s1 - 48) * 10
       + Z.of_nat (nat_of_ascii s0 - 48) = Timecode.seconds tc
    /\ Z.of_nat (nat_of_ascii f1 - 48) * 10
       + Z.of_nat (nat_of_ascii f0 - 48) = Timecode.frames tc.
Proof.
  intros [Bh [Bm [Bs Bf]]].
  destruct (field_reads_back _ Bh) as [h1 [h0 [Eh Rh]]].
  destruct (field_reads_back _ Bm) as [m1 [m0 [Em Rm]]].
  destruct (field_reads_back _ Bs) as [s1 [s0 [Es Rs]]].
  destruct (field_reads_back _ Bf) as [f1 [f0 [Ef Rf]]].
  exists h1, h0, m1, m0, s1, s0, f1, f0.
  unfold formatTimecode. rewrite Eh, Em, Es, Ef.
  repeat split; assumption.
Qed.

Lemma format_min_width (tc : option Timecode.t) :
  (11 <= String.length (formatTimecode tc))%nat.
Proof.
  destruct tc as [tc|]; [|simpl; lia].
  unfold formatTimecode.
  repeat (rewrite append_length; cbn [String.length]).
  pose proof (field_wide (Timecode.hours tc)).
  pose proof (field_wide (Timecode.minutes tc)).
  pose proof (field_wide (Timecode.seconds tc)).
  pose proof (field_wide (Timecode.frames tc)).
  lia.
Qed.

(** X26: the timecode column of the CSV export.  The formatted timecode is
    never shorter than 11 characters, as the padding never cuts a field.
    When the four fields of a reading have at most two digits, it is
    exactly 11 characters long, two readings are formatted alike only if
    they agree on hours, minutes, seconds and frames, and a reading is
    formatted like an absent timecode exactly when it is 00:00:00:00. *)
Theorem timecode_column (a b : Timecode.t) :
  twoDigits a -> twoDigits b ->
  (forall tc, (11 <= String.length (formatTimecode tc))%nat)
  /\ String.length (formatTimecode (Some a)) = 11%nat
  /\ (formatTimecode (Some a) = formatTimecode (Some b) -> sameClock a b)
  /\ (formatTimecode (Some a) = formatTimecode None
      <-> Timecode.hours a = 0 /\ Timecode.minutes a = 0
          /\ Timecode.seconds a = 0 /\ Timecode.frames a = 0).
Proof.
  intros A B.
  destruct (format_shape a A)
    as [h1 [h0 [m1 [m0 [s1 [s0 [f1 [f0 [Ea [Ah [Am [As Af]]]]]]]]]]]].
  destruct (format_shape b B)
    as [i1 [i0 [n1 [n0 [t1 [t0 [g1 [g0 [Eb [Bh [Bm [Bs Bf]]]]]]]]]]]].
  split; [exact format_min_width|].
  split; [rewrite Ea; reflexivity|].
  split.
  - rewrite Ea, Eb. intros E.
    injection E as -> -> -> -> -> -> -> ->.
    unfold sameClock. repeat split; congruence.
  - split.
    + rewrite Ea. cbn [formatTimecode]. intros E.
      injection E as -> -> -> -> -> -> -> ->.
      rewrite <- Ah, <- Am, <- As, <- Af.
      repeat split; reflexivity.
    + intros [Zh [Zm [Zs Zf]]].
      unfold formatTimecode, field. rewrite Zh, Zm, Zs, Zf.
      vm_compute. reflexivity.
Qed.

Lemma timecode_column_witness :
  String.length
    (formatTimecode (Some (Timecode.mk 1 2 3 4 (25 # 1)%Q "midi")))
  = 11%nat
  /\ (formatTimecode (Some (Timecode.mk 1 2 3 4 (25 # 1)%Q "midi"))
      = formatTimecode (Some (Timecode.mk 1 2 3 4 (30 # 1)%Q "manual")) ->
      sameClock (Timecode.mk 1 2 3 4 (25 # 1)%Q "midi")
        (Timecode.mk 1 2 3 4 (30 # 1)%Q "manual")).
Proof.
  assert (A : twoDigits (Timecode.mk 1 2 3 4 (25 # 1)%Q "midi"))
    by (unfold twoDigits; simpl; lia).
  assert (B : twoDigits (Timecode.mk 1 2 3 4 (30 # 1)%Q "manual"))
    by (unfold twoDigits; simpl; lia).
  destruct (timecode_column _ _ A B) as [_ [L [I _]]].
  split; [exact L | exact I].
Defined.

End FormatMore.

(** ** The anonymity timer on the clock *)

Module ClockFacts.
Import Server Socket SocketSpec SocketFacts MoreSpec RegistryFacts LoopFacts.
Import TimerFacts TimerMore AuthorsMore ClockSpec.

(** An anonymous session stays as it is under every handler but its own
    timer, its own disconnection and its own successful name change. *)
Lemma quiet_step_anonymous (toLowerCase : string -> string)
    (sid name : string) (i : Loop.Input) (s : Server.t) :
  notConnecting sid i ->
  i <> Loop.anonymity_timeout sid ->
  (forall env, i <> Loop.socket_event sid env disconnect) ->
  (forall message,
     ~ In (socket_emit sid (name_change_success message))
          (snd (Loop.step toLowerCase i s))) ->
  anonymousAs sid name s ->
  anonymousAs sid name (fst (Loop.step toLowerCase i s)).
Proof.
  intros C T H Q A.
  assert (Easy : leavesAnonymous sid i ->
                 anonymousAs sid name (fst (Loop.step toLowerCase i s)))
    by (intros L; apply step_keeps_anonymous; assumption).
  destruct i as [msg|address value|sid' userIP isOverlay env|sid' env ev|sid'].
  - apply Easy. exact I.
  - apply Easy. exact I.
  - apply Easy. exact C.
  - destruct (String.eqb_spec sid' sid) as [->|Ne];
      [|apply Easy; left; exact Ne].
    destruct ev; try (apply Easy; right; exact I).
    + (* a name change that did not succeed *)
      clear Easy. destruct A as [u [G [An [Ov Nm]]]].
      cbn [Loop.step] in *. unfold on_event in *. rewrite G in *.
      unfold on_user_name_change, unlessOverlay in *. rewrite G, Ov in *.
      destruct (isNameTaken toLowerCase s u newName).
      * exists u. cbn [fst]. repeat split; assumption.
      * exfalso. eapply Q. cbn [snd]. right. right. left. reflexivity.
    + exfalso. apply (H env). reflexivity.
  - apply Easy. cbn [leavesAnonymous]. intros ->. apply T. reflexivity.
Qed.

(** A session that is gone stays gone while its id does not connect. *)
Lemma step_keeps_gone (toLowerCase : string -> string) (sid : string)
    (i : Loop.Input) (s : Server.t) :
  notConnecting sid i -> gone sid s ->
  gone sid (fst (Loop.step toLowerCase i s)).
Proof.
  intros C G. unfold gone in *.
  pose proof (step_users toLowerCase i s) as U. cbv zeta in U.
  destruct i as [msg|address value|sid' userIP isOverlay env|sid' env ev|sid'].
  - rewrite U. exact G.
  - rewrite U. exact G.
  - rewrite U. rewrite map_get_set_other; [exact G|].
    intros E. apply C. symmetry. exact E.
  - clear U. cbn [Loop.step].
    destruct (String.eqb_spec sid' sid) as [->|Ne].
    + unfold on_event. rewrite G. exact G.
    + rewrite on_event_others; [exact G|].
      intros E. apply Ne. symmetry. exact E.
  - destruct (String.eqb_spec sid' sid) as [->|Ne].
    + clear U. cbn [Loop.step]. unfold on_anonymity_timeout. rewrite G.
      exact G.
    + destruct U as [U|U]; rewrite U; [exact G|].
      rewrite map_get_delete_other; [exact G|].
      intros E. apply Ne. symmetry. exact E.
Qed.

(** A named session stays named while it does not disconnect and its id
    does not connect anew. *)
Lemma step_keeps_registered (toLowerCase : string -> string) (sid : string)
    (i : Loop.Input) (s : Server.t) :
  notConnecting sid i ->
  (forall env, i <> Loop.socket_event sid env disconnect) ->
  registryOk s -> named sid s ->
  named sid (fst (Loop.step toLowerCase i s)).
Proof.
  intros C H R [u [G An]]. unfold named.
  pose proof (step_users toLowerCase i s) as U. cbv zeta in U.
  destruct i as [msg|address value|sid' userIP isOverlay env|sid' env ev|sid'].
  - rewrite U. exists u. split; assumption.
  - rewrite U. exists u. split; assumption.
  - rewrite U. rewrite map_get_set_other;
      [exists u; split; assumption|].
    intros E. apply C. symmetry. exact E.
  - clear U. cbn [Loop.step].
    destruct (String.eqb_spec sid' sid) as [->|Ne].
    + assert (D : ev <> disconnect)
        by (intros ->; apply (H env); reflexivity).
      destruct (on_event_stays toLowerCase sid env ev s u D G)
        as [u' [G' [_ [_ [_ K]]]]].
      exists u'. split; [exact G' | apply K, An].
    + rewrite on_event_others; [exists u; split; assumption|].
      intros E. apply Ne. symmetry. exact E.
  - destruct (String.eqb_spec sid' sid) as [->|Ne].
    + clear U. cbn [Loop.step].
      destruct R as [N _].
      destruct (anonymity_timeout_effect sid s N) as [_ [K _]].
      cbv zeta in K. destruct (K u G An) as [E _]. rewrite E.
      exists u. split; assumption.
    + destruct U as [U|U]; rewrite U; [exists u; split; assumption|].
      rewrite map_get_delete_other; [exists u; split; assumption|].
      intros E. apply Ne. symmetry. exact E.
Qed.

(** The callback of its timer disconnects an anonymous session and
    broadcasts its departure. *)
Lemma timeout_anonymous (sid name : string) (s : Server.t) :
  registryOk s -> anonymousAs sid name s ->
  gone sid (fst (on_anonymity_timeout sid s))
  /\ exists n us,
       snd (on_anonymity_timeout sid s)
       = [io_emit (user_left name n); io_emit (users_update us)].
Proof.
  intros [N _] [u [G [An [Ov Nm]]]].
  unfold on_anonymity_timeout, on_disconnect, gone.
  rewrite G, An, Ov. cbn [andb negb fst snd]. split.
  - unfold users, set_globalState.
    cbn [globalState GlobalState.users GlobalState.set_users
         GlobalState.set_anonymousUsers].
    fold (users s). apply map_get_delete_gone, N.
  - rewrite Nm. eexists. eexists. reflexivity.
Qed.

(** The callback of its timer sends nothing for a session that has a name
    or is gone. *)
Lemma timeout_named_or_gone (sid : string) (s : Server.t) :
  registryOk s -> namedOrGone sid s ->
  snd (on_anonymity_timeout sid s) = [].
Proof.
  intros [N _] K.
  destruct (anonymity_timeout_effect sid s N) as [_ [A B]]. cbv zeta in A, B.
  unfold namedOrGone in K.
  destruct (Js.map_get (users s) sid) as [u|].
  - apply (A u eq_refl (K u eq_refl)).
  - apply (B eq_refl).
Qed.

(** A socket that disconnects is gone. *)
Lemma hang_up_gone (toLowerCase : string -> string) (sid : string)
    (env : Env.t) (s : Server.t) :
  registryOk s ->
  gone sid (fst (on_event toLowerCase sid env disconnect s)).
Proof.
  intros [N _]. unfold gone, on_event, on_disconnect.
  destruct (Js.map_get (users s) sid) as [u|] eqn:G; [|cbn [fst]; exact G].
  assert (E : forall out,
            Js.map_get
              (users (fst (set_globalState s
                             (GlobalState.set_users (globalState s)
                                (Js.map_delete (users s) sid)), out : list Emit)))
              sid = None).
  { intros out. cbn [fst]. unfold users, set_globalState.
    cbn [globalState GlobalState.users GlobalState.set_users].
    fold (users s). apply map_get_delete_gone, N. }
  destruct (negb (User.isOverlay u)); apply E.
Qed.

(** What the callback of a timer sends *)
Lemma timeout_out (sid : string) (s : Server.t) :
  snd (on_anonymity_timeout sid s) = []
  \/ exists name n us,
       snd (on_anonymity_timeout sid s)
       = [io_emit (user_left name n); io_emit (users_update us)].
Proof.
  unfold on_anonymity_timeout.
  destruct (Js.map_get (users s) sid) as [u|] eqn:G; [|left; reflexivity].
  destruct (User.isAnonymous u && negb (User.isOverlay u))%bool;
    [|left; reflexivity].
  unfold on_disconnect. rewrite G.
  destruct (negb (User.isOverlay u)); [right|left; reflexivity].
  eexists. eexists. eexists. reflexivity.
Qed.

Ltac no_success H :=
  repeat (destruct H as [H|H]; [discriminate H|]); contradiction H.

(** Only a name change of the socket itself is acknowledged to it, and
    the session then has a name. *)
Lemma success_named (toLowerCase : string -> string) (sid message : string)
    (i : Loop.Input) (s : Server.t) :
  In (socket_emit sid (name_change_success message))
     (snd (Loop.step toLowerCase i s)) ->
  named sid (fst (Loop.step toLowerCase i s)).
Proof.
  destruct i as [msg|address value|sid' userIP isOverlay env|sid' env ev|sid'];
    cbn [Loop.step].
  - destruct (StateMore.midi_cases msg s) as [E|[ty [v E]]]; rewrite E;
      [intros []|].
    unfold Mtc.parseEasyMIDIMTC, Mtc.parseCompleteMTC.
    split_cases; cbn [snd]; intros H; no_success H.
  - destruct (oscServer s); [|intros []].
    unfold Osc.message. split_cases; cbn [snd]; intros H; no_success H.
  - unfold on_connection. destruct isOverlay; cbn [negb snd app];
      intros H; no_success H.
  - unfold on_event.
    destruct (Js.map_get (users s) sid') as [u|] eqn:G; [|intros []].
    destruct ev; open_handlers; rewrite ?G; split_cases; cbn [fst snd];
      intros H;
      repeat (destruct H as [H|H];
              [first [ discriminate H
                     | injection H as -> _;
                       exists (User.rename u newName);
                       split; [|reflexivity];
                       unfold users, set_notes, set_user, set_globalState;
                       cbn [globalState GlobalState.users
                            GlobalState.set_notes GlobalState.set_users
                            GlobalState.set_anonymousUsers];
                       fold (users s); apply map_get_set_same ]|]);
      contradiction H.
  - destruct (timeout_out sid' s) as [E|[name [n [us E]]]]; rewrite E;
      intros H; no_success H.
Qed.

(** *** The callbacks that run while time passes *)

Lemma fire_app (ts ts' : list Clock.Timer) : forall s,
  Clock.fire (ts ++ ts') s
  = (fst (Clock.fire ts' (fst (Clock.fire ts s))),
     snd (Clock.fire ts s) ++ snd (Clock.fire ts' (fst (Clock.fire ts s)))).
Proof.
  induction ts as [|tm ts IH]; intros s.
  - cbn [app Clock.fire fst snd]. destruct (Clock.fire ts' s); reflexivity.
  - cbn [app Clock.fire fst snd]. rewrite IH. reflexivity.
Qed.

(** What holds before and is kept by every callback holds after them. *)
Lemma fire_keeps (Q : Server.t -> Prop) (ts : list Clock.Timer) :
  (forall tm s, In tm ts -> Q s ->
     Q (fst (on_anonymity_timeout (Clock.socket tm) s))) ->
  forall s, Q s -> Q (fst (Clock.fire ts s)).
Proof.
  induction ts as [|tm ts IH]; intros K s H; [exact H|].
  cbn [Clock.fire fst]. apply IH.
  - intros tm' s' I. apply K. right. exact I.
  - apply K; [left; reflexivity | exact H].
Qed.

(** A callback is no input of a client: it tells no socket of a name
    change and is no disconnection. *)
Lemma fire_entries (sid : string) (ts : list Clock.Timer) : forall s e,
  In e (snd (Clock.fire ts s)) -> ~ renamed sid e /\ ~ hungUp sid e.
Proof.
  induction ts as [|tm ts IH]; intros s e I; [contradiction I|].
  cbn [Clock.fire snd] in I. destruct I as [<-|I]; [|apply (IH _ _ I)].
  split.
  - intros [message H]. cbn [Clock.out] in H.
    destruct (timeout_out (Clock.socket tm) s) as [E|[name [n [us E]]]];
      rewrite E in H; no_success H.
  - intros [env H]. discriminate H.
Qed.

(** The callbacks that ran for [sid] are those of its timers. *)
Lemma fire_times (sid : string) (ts : list Clock.Timer) : forall s,
  List.map Clock.time (filter (firedFor sid) (snd (Clock.fire ts s)))
  = List.map Clock.due (filter (fun tm => (Clock.socket tm =? sid)%string) ts).
Proof.
  induction ts as [|tm ts IH]; intros s; [reflexivity|].
  cbn [Clock.fire snd filter]. unfold firedFor at 1. cbn [Clock.cause].
  destruct (Clock.socket tm =? sid)%string; cbn [List.map Clock.time];
    rewrite IH; reflexivity.
Qed.

(** For a session that has a name or is gone every callback of its timers
    is silent. *)
Lemma fire_silent (toLowerCase : string -> string) (sid : string)
    (ts : list Clock.Timer) : forall s,
  registryOk s -> namedOrGone sid s ->
  forall e, In e (snd (Clock.fire ts s)) -> firedFor sid e = true ->
            Clock.out e = [].
Proof.
  induction ts as [|tm ts IH]; intros s R K e I F; [contradiction I|].
  cbn [Clock.fire snd] in I. destruct I as [<-|I].
  - unfold firedFor in F. cbn [Clock.cause] in F.
    apply String.eqb_eq in F. cbn [Clock.out]. rewrite F.
    apply timeout_named_or_gone; assumption.
  - refine (IH _ _ _ e I F).
    + apply (step_registry toLowerCase
               (Loop.anonymity_timeout (Clock.socket tm)) s R).
    + exact (step_keeps_named toLowerCase sid
               (Loop.anonymity_timeout (Clock.socket tm)) s Logic.I R K).
Qed.

Lemma filter_single {A} (f : A -> bool) (x : A) : forall l,
  filter f l = [x] ->
  exists l1 l2, l = l1 ++ x :: l2 /\ filter f l1 = [] /\ filter f l2 = [].
Proof.
  induction l as [|y l IH]; intros E; [discriminate E|].
  cbn [filter] in E. destruct (f y) eqn:Fy.
  - injection E as -> E. exists [], l. repeat split; assumption.
  - destruct (IH E) as [l1 [l2 [-> [E1 E2]]]].
    exists (y :: l1), l2. cbn [filter app]. rewrite Fy.
    repeat split; assumption.
Qed.

Lemma filter_none {A} (f : A -> bool) : forall l,
  filter f l = [] -> forall y, In y l -> f y = false.
Proof.
  induction l as [|z l IH]; intros E y I; [contradiction I|].
  cbn [filter] in E. destruct (f z) eqn:Fz; [discriminate E|].
  destruct I as [<-|I]; [exact Fz | apply (IH E y I)].
Qed.

Lemma filter_swap {A} (f g : A -> bool) (l : list A) :
  filter f (filter g l) = filter g (filter f l).
Proof.
  induction l as [|y l IH]; [reflexivity|].
  cbn [filter]. destruct (g y) eqn:Gy, (f y) eqn:Fy; cbn [filter];
    rewrite ?Gy, ?Fy, IH; reflexivity.
Qed.

(** *** The queue of timers *)

Lemma toLoop_no_timeout (sid : string) (i : Clock.Input) :
  Clock.toLoop i <> Loop.anonymity_timeout sid.
Proof. destruct i; discriminate. Qed.

Lemma step_now (toLowerCase : string -> string) (k : Clock.Tick)
    (w : Clock.World) :
  Clock.now w <= Clock.now (fst (Clock.step toLowerCase k w)).
Proof. destruct k as [dt|i]; cbn [Clock.step fst Clock.now]; lia. Qed.

Lemma run_now (toLowerCase : string -> string) (ticks : list Clock.Tick) :
  forall w, Clock.now w <= Clock.now (fst (Clock.run toLowerCase ticks w)).
Proof.
  induction ticks as [|k ticks IH]; intros w; cbn [Clock.run fst]; [lia|].
  pose proof (step_now toLowerCase k w).
  pose proof (IH (fst (Clock.step toLowerCase k w))). lia.
Qed.

Lemma arm_other (sid : string) (i : Clock.Input) (t : Z)
    (pending : list Clock.Timer) :
  notConnecting sid (Clock.toLoop i) ->
  filter (fun tm => (Clock.socket tm =? sid)%string) (Clock.arm i t pending)
  = filter (fun tm => (Clock.socket tm =? sid)%string) pending.
Proof.
  intros C. destruct i as [msg|address value|sid' userIP isOverlay env|sid' env ev];
    try reflexivity.
  cbn [Clock.arm]. destruct (negb isOverlay); [|reflexivity].
  rewrite filter_app. cbn [filter Clock.socket].
  cbn [Clock.toLoop notConnecting] in C.
  destruct (String.eqb_spec sid' sid) as [E|_]; [contradiction (C E)|].
  apply app_nil_r.
Qed.

(** The timer of a socket runs once, when the clock reaches its time. *)
Lemma step_timer (toLowerCase : string -> string) (t : Z) (sid : string)
    (k : Clock.Tick) (w : Clock.World) :
  unique sid k -> oneTimer t sid w ->
  oneTimer t sid (fst (Clock.step toLowerCase k w))
  /\ List.map Clock.time
       (filter (firedFor sid) (snd (Clock.step toLowerCase k w)))
     = if ((Clock.now w <? t)
           && (t <=? Clock.now (fst (Clock.step toLowerCase k w))))%bool
       then [t] else [].
Proof.
  unfold oneTimer, timersOf. intros U P.
  destruct k as [dt|i]; cbn [Clock.step fst snd Clock.now Clock.timers].
  - rewrite fire_times.
    rewrite (filter_swap _ (fun tm => negb (Clock.isDue _ tm))).
    rewrite (filter_swap _ (Clock.isDue _)). rewrite P.
    destruct (Z.ltb_spec (Clock.now w) t);
      destruct (Z.ltb_spec (Clock.now w + Z.of_N dt) t);
      destruct (Z.leb_spec t (Clock.now w + Z.of_N dt));
      try lia; cbn [filter]; unfold Clock.isDue; cbn [Clock.due];
      repeat match goal with
             | |- context [?a <=? ?b] =>
                 destruct (Z.leb_spec a b); try lia
             end;
      cbn [negb andb List.map Clock.due]; split; reflexivity.
  - rewrite (arm_other sid i _ _ U), P. split; [reflexivity|].
    unfold firedFor. cbn [filter Clock.cause].
    pose proof (toLoop_no_timeout sid i) as T.
    assert (E : ((Clock.now w <? t) && (t <=? Clock.now w))%bool = false)
      by (destruct (Z.ltb_spec (Clock.now w) t);
          destruct (Z.leb_spec t (Clock.now w)); try lia; reflexivity).
    rewrite E.
    destruct (Clock.toLoop i) as [| | | |sid'] eqn:L; try reflexivity.
    destruct (String.eqb_spec sid' sid) as [->|_]; [|reflexivity].
    contradiction (T eq_refl).
Qed.

Lemma run_timer (toLowerCase : string -> string) (t : Z) (sid : string)
    (ticks : list Clock.Tick) : forall w,
  Forall (unique sid) ticks -> oneTimer t sid w ->
  oneTimer t sid (fst (Clock.run toLowerCase ticks w))
  /\ List.map Clock.time
       (filter (firedFor sid) (snd (Clock.run toLowerCase ticks w)))
     = if ((Clock.now w <? t)
           && (t <=? Clock.now (fst (Clock.run toLowerCase ticks w))))%bool
       then [t] else [].
Proof.
  induction ticks as [|k ticks IH]; intros w U P.
  - cbn [Clock.run fst snd filter List.map]. split; [exact P|].
    destruct (Z.ltb_spec (Clock.now w) t);
      destruct (Z.leb_spec t (Clock.now w)); try lia; reflexivity.
  - inversion U as [|? ? Uk Urest]; subst.
    destruct (step_timer toLowerCase t sid k w Uk P) as [P1 F1].
    destruct (IH _ Urest P1) as [P2 F2].
    cbn [Clock.run fst snd]. split; [exact P2|].
    rewrite filter_app, map_app, F1, F2.
    pose proof (step_now toLowerCase k w).
    pose proof (run_now toLowerCase ticks (fst (Clock.step toLowerCase k w))).
    repeat match goal with
           | |- context [?a <? ?b] => destruct (Z.ltb_spec a b); try lia
           | |- context [?a <=? ?b] => destruct (Z.leb_spec a b); try lia
           end; reflexivity.
Qed.

(** *** The order of the queue *)

Lemma ordered_weaken (ts : list Clock.Timer) (lo lo' : Z) :
  lo' <= lo -> ordered lo ts -> ordered lo' ts.
Proof.
  destruct ts as [|tm ts]; cbn [ordered]; [tauto|].
  intros L [L1 O]. split; [lia | exact O].
Qed.

Lemma ordered_filter (t : Z) (ts : list Clock.Timer) : forall lo,
  ordered lo ts ->
  ordered (Z.max lo (t + 1))
    (filter (fun tm => negb (Clock.isDue t tm)) ts).
Proof.
  induction ts as [|tm ts IH]; intros lo O; [exact Logic.I|].
  cbn [ordered] in O. destruct O as [L O]. cbn [filter].
  pose proof (IH _ O) as K. unfold Clock.isDue at 1.
  destruct (Z.leb_spec (Clock.due tm) t); cbn [negb].
  - apply (ordered_weaken _ (Z.max (Clock.due tm) (t + 1))); [lia | exact K].
  - cbn [ordered]. split; [lia|].
    apply (ordered_weaken _ (Z.max (Clock.due tm) (t + 1))); [lia | exact K].
Qed.

Lemma ordered_snoc (d : Z) (sid : string) (ts : list Clock.Timer) :
  forall lo,
  ordered lo ts -> Forall (fun tm => Clock.due tm <= d) ts -> lo <= d ->
  ordered lo (ts ++ [Clock.mkTimer d sid]).
Proof.
  induction ts as [|tm ts IH]; intros lo O F L.
  - cbn [app ordered Clock.due]. split; [exact L | exact Logic.I].
  - cbn [ordered] in O. destruct O as [L1 O].
    inversion F as [|? ? Ftm Frest]; subst.
    cbn [app ordered]. split; [exact L1|]. apply IH; assumption.
Qed.

Lemma step_queue (toLowerCase : string -> string) (k : Clock.Tick)
    (w : Clock.World) :
  queueOk w -> queueOk (fst (Clock.step toLowerCase k w)).
Proof.
  unfold queueOk. intros [O F].
  destruct k as [dt|i]; cbn [Clock.step fst Clock.now Clock.timers].
  - split.
    + apply (ordered_weaken _ (Z.max (Clock.now w + 1)
                                 (Clock.now w + Z.of_N dt + 1))); [lia|].
      apply ordered_filter, O.
    + rewrite Forall_forall in *. intros tm I.
      apply filter_In in I. destruct I as [I _].
      pose proof (F tm I). lia.
  - destruct i as [msg|address value|sid userIP isOverlay env|sid env ev];
      cbn [Clock.arm]; try (split; assumption).
    destruct (negb isOverlay); [|split; assumption]. split.
    + apply ordered_snoc; [exact O | exact F | unfold Clock.delay; lia].
    + apply Forall_app. split; [exact F|].
      apply Forall_cons; [cbn [Clock.due]; lia | apply Forall_nil].
Qed.

Lemma run_queue (toLowerCase : string -> string) (tags : list Tag.t)
    (midi osc : bool) (ticks : list Clock.Tick) :
  queueOk (fst (Clock.run toLowerCase ticks (Clock.initial tags midi osc))).
Proof.
  assert (K : forall w, queueOk w ->
                        queueOk (fst (Clock.run toLowerCase ticks w))).
  { induction ticks as [|k ticks IH]; intros w Q; [exact Q|].
    cbn [Clock.run fst]. apply IH, step_queue, Q. }
  apply K. split; [exact Logic.I | apply Forall_nil].
Qed.

(** *** The registry on the clock *)

Lemma step_world_registry (toLowerCase : string -> string) (k : Clock.Tick)
    (w : Clock.World) :
  registryOk (Clock.server w) ->
  registryOk (Clock.server (fst (Clock.step toLowerCase k w))).
Proof.
  intros R. destruct k as [dt|i]; cbn [Clock.step fst Clock.server].
  - apply fire_keeps; [|exact R].
    intros tm s _ Rs.
    apply (step_registry toLowerCase
             (Loop.anonymity_timeout (Clock.socket tm)) s Rs).
  - apply step_registry, R.
Qed.

Lemma run_world_registry (toLowerCase : string -> string)
    (ticks : list Clock.Tick) : forall w,
  registryOk (Clock.server w) ->
  registryOk (Clock.server (fst (Clock.run toLowerCase ticks w))).
Proof.
  induction ticks as [|k ticks IH]; intros w R; [exact R|].
  cbn [Clock.run fst]. apply IH, step_world_registry, R.
Qed.

(** *** A session that waits for its timer *)

Lemma quiet_app (sid : string) (a b : list Clock.Entry) :
  quiet sid (a ++ b) -> quiet sid a /\ quiet sid b.
Proof.
  intros Q. split; intros e I; apply Q, in_or_app; [left|right]; exact I.
Qed.

Lemma fire_keeps_anonymous (toLowerCase : string -> string)
    (sid name : string) (ts : list Clock.Timer) (s : Server.t) :
  filter (fun tm => (Clock.socket tm =? sid)%string) ts = [] ->
  registryOk s /\ anonymousAs sid name s ->
  registryOk (fst (Clock.fire ts s))
  /\ anonymousAs sid name (fst (Clock.fire ts s)).
Proof.
  intros E.
  apply (fire_keeps (fun s => registryOk s /\ anonymousAs sid name s)).
  intros tm s' I [R A].
  pose proof (filter_none _ _ E tm I) as Ne. cbv beta in Ne.
  apply String.eqb_neq in Ne. split.
  - apply (step_registry toLowerCase
             (Loop.anonymity_timeout (Clock.socket tm)) s' R).
  - apply (step_keeps_anonymous toLowerCase sid name
             (Loop.anonymity_timeout (Clock.socket tm)) s' Ne A).
Qed.

Lemma fire_keeps_gone (toLowerCase : string -> string) (sid : string)
    (ts : list Clock.Timer) (s : Server.t) :
  gone sid s -> gone sid (fst (Clock.fire ts s)).
Proof.
  apply (fire_keeps (gone sid)). intros tm s' _ G.
  apply (step_keeps_gone toLowerCase sid
           (Loop.anonymity_timeout (Clock.socket tm)) s' Logic.I G).
Qed.

Lemma step_waiting (toLowerCase : string -> string) (t : Z)
    (sid name : string) (k : Clock.Tick) (w : Clock.World) :
  unique sid k -> oneTimer t sid w -> registryOk (Clock.server w) ->
  waiting t sid name w ->
  quiet sid (snd (Clock.step toLowerCase k w)) ->
  waiting t sid name (fst (Clock.step toLowerCase k w))
  /\ (Clock.now w < t ->
      t <= Clock.now (fst (Clock.step toLowerCase k w)) ->
      exists n us,
        In (Clock.mkEntry t (Loop.anonymity_timeout sid)
              [io_emit (user_left name n); io_emit (users_update us)])
           (snd (Clock.step toLowerCase k w))).
Proof.
  unfold waiting, oneTimer, timersOf. intros U P R W Q.
  destruct k as [dt|i];
    cbn [Clock.step fst snd Clock.now Clock.server] in *.
  - clear Q.
    set (t' := Clock.now w + Z.of_N dt) in *.
    assert (D : filter (fun tm => (Clock.socket tm =? sid)%string)
                  (filter (Clock.isDue t') (Clock.timers w))
                = filter (Clock.isDue t')
                    (if Clock.now w <? t then [Clock.mkTimer t sid] else []))
      by (rewrite filter_swap, P; reflexivity).
    destruct (Z.ltb_spec (Clock.now w) t) as [Lt|Ge].
    + destruct (Z.ltb_spec t' t) as [Lt'|Ge'].
      * (* the timer is not due yet *)
        assert (Hd : Clock.isDue t' (Clock.mkTimer t sid) = false)
          by (unfold Clock.isDue; cbn [Clock.due]; apply Z.leb_gt; lia).
        cbn [filter] in D. rewrite Hd in D.
        split; [|lia].
        apply (fire_keeps_anonymous toLowerCase sid name _ _ D).
        split; assumption.
      * (* the timer runs *)
        assert (Hd : Clock.isDue t' (Clock.mkTimer t sid) = true)
          by (unfold Clock.isDue; cbn [Clock.due]; apply Z.leb_le; lia).
        cbn [filter] in D. rewrite Hd in D.
        destruct (filter_single _ _ _ D) as [ts1 [ts2 [E [E1 E2]]]].
        rewrite E, fire_app. cbn [fst snd Clock.fire Clock.socket Clock.due].
        destruct (fire_keeps_anonymous toLowerCase sid name ts1
                    (Clock.server w) E1 (conj R W)) as [R1 A1].
        destruct (timeout_anonymous sid name _ R1 A1) as [G [n [us O]]].
        split.
        -- apply fire_keeps_gone; [exact toLowerCase | exact G].
        -- intros _ _. exists n, us. apply in_or_app. right. left.
           rewrite O. reflexivity.
    + destruct (Z.ltb_spec t' t); [lia|]. split; [|lia].
      apply fire_keeps_gone; [exact toLowerCase | exact W].
  - split; [|lia].
    assert (Qe : ~ renamed sid
                     (Clock.mkEntry (Clock.now w) (Clock.toLoop i)
                        (snd (Loop.step toLowerCase (Clock.toLoop i)
                                (Clock.server w))))
                 /\ ~ hungUp sid
                        (Clock.mkEntry (Clock.now w) (Clock.toLoop i)
                           (snd (Loop.step toLowerCase (Clock.toLoop i)
                                   (Clock.server w)))))
      by (apply Q; left; reflexivity).
    destruct Qe as [Nr Nh].
    destruct (Clock.now w <? t).
    + apply quiet_step_anonymous.
      * exact U.
      * apply toLoop_no_timeout.
      * intros env E. apply Nh. exists env. exact E.
      * intros message I. apply Nr. exists message. exact I.
      * exact W.
    + apply step_keeps_gone; [exact U | exact W].
Qed.

Lemma run_waiting (toLowerCase : string -> string) (t : Z)
    (sid name : string) (ticks : list Clock.Tick) : forall w,
  Forall (unique sid) ticks -> oneTimer t sid w ->
  registryOk (Clock.server w) -> waiting t sid name w ->
  quiet sid (snd (Clock.run toLowerCase ticks w)) ->
  waiting t sid name (fst (Clock.run toLowerCase ticks w))
  /\ (Clock.now w < t ->
      t <= Clock.now (fst (Clock.run toLowerCase ticks w)) ->
      exists n us,
        In (Clock.mkEntry t (Loop.anonymity_timeout sid)
              [io_emit (user_left name n); io_emit (users_update us)])
           (snd (Clock.run toLowerCase ticks w))).
Proof.
  induction ticks as [|k ticks IH]; intros w U P R W Q.
  - cbn [Clock.run fst snd]. split; [exact W | lia].
  - inversion U as [|? ? Uk Urest]; subst.
    cbn [Clock.run fst snd] in *.
    destruct (quiet_app _ _ _ Q) as [Q1 Q2].
    destruct (step_waiting toLowerCase t sid name k w Uk P R W Q1) as [W1 F1].
    destruct (step_timer toLowerCase t sid k w Uk P) as [P1 _].
    pose proof (step_world_registry toLowerCase k w R) as R1.
    destruct (IH _ Urest P1 R1 W1 Q2) as [W2 F2].
    split; [exact W2|]. intros Lt Ge.
    destruct (Z.lt_ge_cases
                (Clock.now (fst (Clock.step toLowerCase k w))) t) as [L|G].
    + destruct (F2 L Ge) as [n [us I]]. exists n, us.
      apply in_or_app. right. exact I.
    + destruct (F1 Lt G) as [n [us I]]. exists n, us.
      apply in_or_app. left. exact I.
Qed.

(** *** A session that renamed or disconnected *)

Lemma step_named_or_gone (toLowerCase : string -> string) (sid : string)
    (k : Clock.Tick) (w : Clock.World) :
  unique sid k ->
  registryOk (Clock.server w) /\ namedOrGone sid (Clock.server w) ->
  (registryOk (Clock.server (fst (Clock.step toLowerCase k w)))
   /\ namedOrGone sid (Clock.server (fst (Clock.step toLowerCase k w))))
  /\ (forall e, In e (snd (Clock.step toLowerCase k w)) ->
        firedFor sid e = true -> Clock.out e = []).
Proof.
  intros U [R K]. destruct k as [dt|i]; cbn [Clock.step fst snd Clock.server].
  - split.
    + apply (fire_keeps (fun s => registryOk s /\ namedOrGone sid s));
        [|split; assumption].
      intros tm s _ [Rs Ks]. split.
      * apply (step_registry toLowerCase
                 (Loop.anonymity_timeout (Clock.socket tm)) s Rs).
      * exact (step_keeps_named toLowerCase sid
                 (Loop.anonymity_timeout (Clock.socket tm)) s Logic.I Rs Ks).
    + apply (fire_silent toLowerCase); assumption.
  - split.
    + split; [apply step_registry, R|].
      exact (step_keeps_named toLowerCase sid (Clock.toLoop i) _ U R K).
    + intros e [<-|[]] F. unfold firedFor in F. cbn [Clock.cause] in F.
      pose proof (toLoop_no_timeout sid i) as T.
      destruct (Clock.toLoop i) as [| | | |sid']; try discriminate F.
      apply String.eqb_eq in F. subst sid'. contradiction (T eq_refl).
Qed.

Lemma run_silent (toLowerCase : string -> string) (sid : string)
    (ticks : list Clock.Tick) : forall w,
  Forall (unique sid) ticks ->
  registryOk (Clock.server w) /\ namedOrGone sid (Clock.server w) ->
  forall e, In e (snd (Clock.run toLowerCase ticks w)) ->
            firedFor sid e = true -> Clock.out e = [].
Proof.
  induction ticks as [|k ticks IH]; intros w U K e I F; [contradiction I|].
  inversion U as [|? ? Uk Urest]; subst.
  cbn [Clock.run snd] in I.
  destruct (step_named_or_gone toLowerCase sid k w Uk K) as [K1 S1].
  apply in_app_or in I. destruct I as [I|I].
  - apply (S1 e I F).
  - apply (IH _ Urest K1 e I F).
Qed.

Lemma run_registered (toLowerCase : string -> string) (sid : string)
    (ticks : list Clock.Tick) : forall w,
  Forall (unique sid) ticks ->
  registryOk (Clock.server w) /\ named sid (Clock.server w) ->
  (forall e, In e (snd (Clock.run toLowerCase ticks w)) -> ~ hungUp sid e) ->
  named sid (Clock.server (fst (Clock.run toLowerCase ticks w))).
Proof.
  induction ticks as [|k ticks IH]; intros w U [R K] H; [exact K|].
  inversion U as [|? ? Uk Urest]; subst.
  cbn [Clock.run fst snd] in *.
  apply (IH _ Urest).
  - split; [apply step_world_registry, R|].
    destruct k as [dt|i]; cbn [Clock.step fst Clock.server].
    + apply (fire_keeps (fun s => registryOk s /\ named sid s));
        [|split; assumption].
      intros tm s _ [Rs Ks]. split.
      * apply (step_registry toLowerCase
                 (Loop.anonymity_timeout (Clock.socket tm)) s Rs).
      * apply (step_keeps_registered toLowerCase sid
                 (Loop.anonymity_timeout (Clock.socket tm)) s Logic.I);
          [discriminate | exact Rs | exact Ks].
    + apply step_keeps_registered; [exact Uk | | exact R | exact K].
      intros env E. apply (H (Clock.mkEntry (Clock.now w) (Clock.toLoop i)
                                (snd (Loop.step toLowerCase (Clock.toLoop i)
                                        (Clock.server w))))).
      * apply in_or_app. left. left. reflexivity.
      * exists env. exact E.
  - intros e I. apply H, in_or_app. right. exact I.
Qed.

(** What a client did is logged at the time it was received. *)
Lemma run_input_time (toLowerCase : string -> string) (sid : string)
    (ticks : list Clock.Tick) : forall w e,
  In e (snd (Clock.run toLowerCase ticks w)) ->
  renamed sid e \/ hungUp sid e -> Clock.now w <= Clock.time e.
Proof.
  induction ticks as [|k ticks IH]; intros w e I C; [contradiction I|].
  cbn [Clock.run snd] in I. apply in_app_or in I. destruct I as [I|I].
  - destruct k as [dt|i]; cbn [Clock.step snd] in I.
    + destruct (fire_entries sid _ _ _ I) as [Nr Nh]. tauto.
    + destruct I as [<-|[]]. cbn [Clock.time]. lia.
  - pose proof (IH _ _ I C). pose proof (step_now toLowerCase k w). lia.
Qed.

Lemma run_excused (toLowerCase : string -> string) (t : Z) (sid : string)
    (ticks : list Clock.Tick) : forall w,
  Forall (unique sid) ticks -> oneTimer t sid w ->
  registryOk (Clock.server w) ->
  (exists e, In e (snd (Clock.run toLowerCase ticks w))
             /\ Clock.time e < t /\ (renamed sid e \/ hungUp sid e)) ->
  (forall e, In e (snd (Clock.run toLowerCase ticks w)) ->
             firedFor sid e = true -> Clock.out e = [])
  /\ ((forall e, In e (snd (Clock.run toLowerCase ticks w)) ->
                 ~ hungUp sid e) ->
      named sid (Clock.server (fst (Clock.run toLowerCase ticks w)))).
Proof.
  induction ticks as [|k ticks IH]; intros w U P R [e [I [Lt C]]];
    [contradiction I|].
  inversion U as [|? ? Uk Urest]; subst.
  cbn [Clock.run fst snd] in *.
  destruct (step_timer toLowerCase t sid k w Uk P) as [P1 F1].
  pose proof (step_world_registry toLowerCase k w R) as R1.
  apply in_app_or in I. destruct I as [I|I].
  - (* the session renames or disconnects in this turn *)
    destruct k as [dt|i].
    { cbn [Clock.step snd] in I.
      destruct (fire_entries sid _ _ _ I) as [Nr Nh]. tauto. }
    cbn [Clock.step fst snd Clock.server] in *.
    destruct I as [<-|[]].
    assert (K : named sid
                  (fst (Loop.step toLowerCase (Clock.toLoop i)
                          (Clock.server w)))
                \/ (hungUp sid
                      (Clock.mkEntry (Clock.now w) (Clock.toLoop i)
                         (snd (Loop.step toLowerCase (Clock.toLoop i)
                                 (Clock.server w))))
                    /\ gone sid
                         (fst (Loop.step toLowerCase (Clock.toLoop i)
                                 (Clock.server w))))).
    { destruct C as [[message S]|[env E]].
      - left. apply (success_named toLowerCase sid message). exact S.
      - right. split; [exists env; exact E|].
        cbn [Clock.cause] in E. rewrite E. cbn [Loop.step].
        apply hang_up_gone, R. }
    assert (N : namedOrGone sid
                  (fst (Loop.step toLowerCase (Clock.toLoop i)
                          (Clock.server w)))).
    { intros u G. destruct K as [[u' [G' A]]|[_ G']].
      - rewrite G' in G. injection G as <-. exact A.
      - unfold gone in G'. rewrite G' in G. discriminate G. }
    split.
    + intros e' [<-|I'] F.
      * unfold firedFor in F. cbn [Clock.cause] in F.
        pose proof (toLoop_no_timeout sid i) as T.
        destruct (Clock.toLoop i) as [| | | |sid']; try discriminate F.
        apply String.eqb_eq in F. subst sid'. contradiction (T eq_refl).
      * eapply (run_silent toLowerCase sid ticks); [exact Urest| |exact I'|exact F].
        split; [exact R1 | exact N].
    + intros H. destruct K as [K|[Hu _]].
      * apply (run_registered toLowerCase sid ticks); [exact Urest| |].
        -- split; [exact R1 | exact K].
        -- intros e' I'. apply H. right. exact I'.
      * exfalso. apply (H _ (or_introl eq_refl) Hu).
  - (* it does so later: its timer has not run yet *)
    pose proof (run_input_time toLowerCase sid ticks _ e I C) as T.
    assert (E1 : filter (firedFor sid) (snd (Clock.step toLowerCase k w)) = []).
    { destruct (Z.leb_spec t
                  (Clock.now (fst (Clock.step toLowerCase k w)))); [lia|].
      rewrite andb_false_r in F1.
      destruct (filter (firedFor sid) (snd (Clock.step toLowerCase k w)));
        [reflexivity | discriminate F1]. }
    destruct (IH _ Urest P1 R1 (ex_intro _ e (conj I (conj Lt C))))
      as [S2 N2].
    split.
    + intros e' I' F. apply in_app_or in I'. destruct I' as [I'|I'].
      * assert (I2 : In e' (filter (firedFor sid)
                              (snd (Clock.step toLowerCase k w))))
          by (apply filter_In; split; assumption).
        rewrite E1 in I2. contradiction I2.
      * apply (S2 e' I' F).
    + intros H. apply N2. intros e' I'. apply H, in_or_app. right. exact I'.
Qed.

End ClockFacts.

Module ExpiryClaims.
Import Server Socket SocketSpec SocketFacts MoreSpec RegistryFacts LoopFacts.
Import ClockSpec ClockFacts.

(** A participant that connects with a new socket id is registered as
    anonymous and has one timer, due 15 minutes later. *)
Lemma connection_armed (toLowerCase : string -> string) (sid userIP : string)
    (env : Env.t) (w0 : Clock.World) :
  registryOk (Clock.server w0) -> timersOf sid w0 = [] ->
  let w1 :=
    fst (Clock.step toLowerCase
           (Clock.receive (Clock.connection sid userIP false env)) w0) in
  registryOk (Clock.server w1)
  /\ oneTimer (Clock.now w1 + 900000) sid w1
  /\ waiting (Clock.now w1 + 900000) sid userIP w1.
Proof.
  intros R T w1. subst w1. split; [|split].
  - apply step_world_registry, R.
  - unfold oneTimer, timersOf in *.
    cbn [Clock.step fst Clock.now Clock.timers Clock.arm negb].
    rewrite filter_app, T. cbn [filter Clock.socket app].
    rewrite String.eqb_refl. unfold Clock.delay.
    destruct (Z.ltb_spec (Clock.now w0) (Clock.now w0 + 900000)); [|lia].
    reflexivity.
  - unfold waiting.
    cbn [Clock.step fst Clock.now Clock.server Clock.toLoop Loop.step].
    destruct (Z.ltb_spec (Clock.now w0) (Clock.now w0 + 900000)); [|lia].
    unfold anonymousAs. rewrite connection_users, map_get_set_same.
    eexists. split; [reflexivity|]. repeat split.
Qed.

(** C9: the anonymity timer on the clock of the process.  A participant
    connects, under a socket id that no other connection has, when the
    process has handled any inputs; the time is then [now w1], and any
    inputs and waits follow.  The callback of the session's timer has run
    exactly when the clock has reached 15 minutes (900000 ms) after the
    connection: once, at that time, and neither before nor again.  If the
    session neither renames nor disconnects, it is anonymous under its
    first name as long as the clock is before that time, and from then on
    it is gone, the callback having broadcast its departure at that time.
    If it renamed or disconnected before that time, the callback sends
    nothing, and a session that renamed and does not disconnect is still
    registered, under a name, at the end. *)
Theorem C9_anonymity_expiry (toLowerCase : string -> string)
    (tags : list Tag.t) (midi osc : bool) (before after : list Clock.Tick)
    (sid userIP : string) (env : Env.t) :
  Forall (unique sid) before -> Forall (unique sid) after ->
  let w0 := fst (Clock.run toLowerCase before (Clock.initial tags midi osc)) in
  let w1 :=
    fst (Clock.step toLowerCase
           (Clock.receive (Clock.connection sid userIP false env)) w0) in
  let due := Clock.now w1 + 900000 in
  let w := fst (Clock.run toLowerCase after w1) in
  let tr := snd (Clock.run toLowerCase after w1) in
  List.map Clock.time (filter (firedFor sid) tr)
  = (if due <=? Clock.now w then [due] else [])
  /\ (quiet sid tr ->
      (Clock.now w < due -> anonymousAs sid userIP (Clock.server w))
      /\ (due <= Clock.now w ->
          gone sid (Clock.server w)
          /\ exists n us,
               In (Clock.mkEntry due (Loop.anonymity_timeout sid)
                     [io_emit (user_left userIP n);
                      io_emit (users_update us)])
                  tr))
  /\ ((exists e, In e tr /\ Clock.time e < due
                 /\ (renamed sid e \/ hungUp sid e)) ->
      (forall e, In e tr -> firedFor sid e = true -> Clock.out e = [])
      /\ ((forall e, In e tr -> ~ hungUp sid e) ->
          named sid (Clock.server w))).
Proof.
  intros Ub Ua w0 w1 due w tr.
  assert (R0 : registryOk (Clock.server w0)).
  { apply run_world_registry. cbn [Clock.initial Clock.server].
    split; [apply NoDup_nil | apply Forall_nil]. }
  assert (T0 : timersOf sid w0 = []).
  { assert (P : oneTimer 0 sid (Clock.initial tags midi osc))
      by reflexivity.
    destruct (run_timer toLowerCase 0 sid before _ Ub P) as [P0 _].
    fold w0 in P0. unfold oneTimer in P0.
    pose proof (run_now toLowerCase before (Clock.initial tags midi osc)) as N.
    fold w0 in N. cbn [Clock.initial Clock.now] in N.
    destruct (Z.ltb_spec (Clock.now w0) 0); [lia | exact P0]. }
  destruct (connection_armed toLowerCase sid userIP env w0 R0 T0)
    as [R1 [P1 W1]].
  fold w1 in R1, P1, W1. fold due in P1, W1.
  assert (Lt : Clock.now w1 < due) by (unfold due; lia).
  split; [|split].
  - destruct (run_timer toLowerCase due sid after w1 Ua P1) as [_ F].
    fold w tr in F. rewrite F.
    destruct (Z.ltb_spec (Clock.now w1) due); [reflexivity | lia].
  - intros Q.
    destruct (run_waiting toLowerCase due sid userIP after w1 Ua P1 R1 W1 Q)
      as [W F].
    fold w tr in W, F. unfold waiting in W. split.
    + intros L. destruct (Z.ltb_spec (Clock.now w) due); [exact W | lia].
    + intros G. split; [|apply (F Lt G)].
      destruct (Z.ltb_spec (Clock.now w) due); [lia | exact W].
  - intros E. apply (run_excused toLowerCase due sid after w1 Ua P1 R1 E).
Qed.

Lemma C9_anonymity_expiry_witness :
  Forall (unique "p9")
    [Clock.receive
       (Clock.connection "p1" "10.0.0.5" false (Example.env "c1"));
     Clock.wait 1000]
  /\ Forall (unique "p9")
       [Clock.wait 60000;
        Clock.receive
          (Clock.socket_event "p9" (Example.env "t") (typing_start None None));
        Clock.wait 840000;
        Clock.receive
          (Clock.socket_event "p1" (Example.env "u") (typing_start None None))]
  /\ List.map Clock.time
       (filter (firedFor "p9")
          (snd (Clock.run Example.lower
                  [Clock.wait 60000;
                   Clock.receive
                     (Clock.socket_event "p9" (Example.env "t")
                        (typing_start None None));
                   Clock.wait 840000;
                   Clock.receive
                     (Clock.socket_event "p1" (Example.env "u")
                        (typing_start None None))]
                  (fst (Clock.step Example.lower
                          (Clock.receive
                             (Clock.connection "p9" "10.0.0.9" false
                                (Example.env "c9")))
                          (fst (Clock.run Example.lower
                                  [Clock.receive
                                     (Clock.connection "p1" "10.0.0.5" false
                                        (Example.env "c1"));
                                   Clock.wait 1000]
                                  (Clock.initial Example.tags true true))))))))
     = [901000].
Proof.
  assert (Ub : Forall (unique "p9")
                 [Clock.receive
                    (Clock.connection "p1" "10.0.0.5" false (Example.env "c1"));
                  Clock.wait 1000]).
  { apply Forall_cons; [cbn; discriminate|].
    apply Forall_cons; [exact Logic.I | apply Forall_nil]. }
  assert (Ua : Forall (unique "p9")
                 [Clock.wait 60000;
                  Clock.receive
                    (Clock.socket_event "p9" (Example.env "t")
                       (typing_start None None));
                  Clock.wait 840000;
                  Clock.receive
                    (Clock.socket_event "p1" (Example.env "u")
                       (typing_start None None))])
    by (repeat (apply Forall_cons; [exact Logic.I|]); apply Forall_nil).
  split; [exact Ub|]. split; [exact Ua|].
  etransitivity.
  - exact (proj1 (C9_anonymity_expiry Example.lower Example.tags true true
                    _ _ "p9" "10.0.0.9" (Example.env "c9") Ub Ua)).
  - vm_compute. reflexivity.
Defined.

End ExpiryClaims.
